(** * wled-christmas-tree: the spatial model, colour math and effect lifecycle

    A shallow embedding of [src/tree_model.py], [src/effect_base.py],
    [utils/color_utils.py] and the effect classes of [effects/], with the
    properties of the design document stated and proved (or refuted) on it.

    Python values are modelled as follows.
    - [int] is [Z].
    - [float] is any type [F] carrying the operations of the class
      [PyFloat].  Two instances are given: [Q], exact rational arithmetic,
      on which the laws that quantify over all numbers are proved, and the
      primitive [binary64] floats, which compute what CPython computes and
      on which concrete runs are evaluated.
    - raising an exception is the [Raise] case of [result].
    - a NumPy [uint8] buffer is a list of triples of [Z]; storing into it
      keeps the low eight bits.
    - objects are records, a method takes the object and returns the
      object it leaves; logging and the hooks [on_start] and [on_stop],
      which no effect overrides, are left out. *)

From stdpp Require Import base list strings.
From Stdlib Require Import ZArith QArith Qround Lia Lqa Sorted.
From Stdlib Require Floats.

Local Open Scope Z_scope.

(** ** Exceptions *)

Inductive exn : Type :=
  | ZeroDivisionError
  | ValueError (msg : string)
  | IndexError
  | StopIteration.

Inductive result (A : Type) : Type :=
  | Ok (a : A)
  | Raise (e : exn).
Arguments Ok {A} a.
Arguments Raise {A} e.

#[global] Instance result_ret : MRet result := fun _ a => Ok a.
#[global] Instance result_bind : MBind result := fun _ _ f m =>
  match m with
  | Ok a => f a
  | Raise e => Raise e
  end.

(** ** Python floats *)

Class PyFloat (F : Type) : Type := {
  of_int : Z -> F;          (* float(n) for an int n *)
  fadd : F -> F -> F;
  fsub : F -> F -> F;
  fmul : F -> F -> F;
  fdiv : F -> F -> F;       (* divisor not zero *)
  fmod : F -> F -> F;       (* x % y, the result has the sign of y *)
  flt : F -> F -> bool;     (* x < y *)
  feq : F -> F -> bool;     (* x == y *)
  int_of : F -> Z           (* int(x): truncation toward zero *)
}.

Declare Scope py_scope.
Delimit Scope py_scope with py.
Infix "+" := fadd : py_scope.
Infix "-" := fsub : py_scope.
Infix "*" := fmul : py_scope.
Infix "/" := fdiv : py_scope.
Infix "%%" := fmod (at level 40, left associativity) : py_scope.
Infix "<?" := flt : py_scope.
Infix "=?" := feq : py_scope.

(** *** Exact arithmetic *)

Definition Q_trunc (q : Q) : Z := Z.quot (Qnum q) (Zpos (Qden q)).

Definition Q_mod (x y : Q) : Q :=
  (x - y * inject_Z (Qfloor (x / y)))%Q.

Definition Q_ltb (x y : Q) : bool :=
  match (x ?= y)%Q with Lt => true | _ => false end.

#[global] Instance Q_float : PyFloat Q := {|
  of_int := inject_Z;
  fadd := Qplus;
  fsub := Qminus;
  fmul := Qmult;
  fdiv := Qdiv;
  fmod := Q_mod;
  flt := Q_ltb;
  feq := Qeq_bool;
  int_of := Q_trunc
|}.

(** *** IEEE 754 binary64, as CPython's [float] *)

Module Binary64.
Import Floats.

Definition t : Type := PrimFloat.float.

Definition of_SF (x : spec_float) : t := SF2Prim x.

(** Conversion of an integer, rounded to nearest even. *)
Definition of_Z (z : Z) : t := of_SF (binary_normalize prec emax z 0 false).

(** [int(x)]; CPython raises on nan and on the infinities, which no run
    of the effects below produces. *)
Definition trunc (x : t) : Z :=
  match Prim2SF x with
  | S754_finite s m e =>
      let v := match e with
               | Z0 => Zpos m
               | Zpos p => Z.shiftl (Zpos m) (Zpos p)
               | Zneg p => Z.shiftr (Zpos m) (Zpos p)
               end in
      if s then - v else v
  | _ => 0
  end.

(** C's [fmod]: exact, with the sign of the dividend. *)
Definition c_fmod (x y : t) : t :=
  match Prim2SF x, Prim2SF y with
  | S754_finite sx mx ex, S754_finite _ my ey =>
      let e := Z.min ex ey in
      let X := Z.shiftl (Zpos mx) (ex - e) in
      let Y := Z.shiftl (Zpos my) (ey - e) in
      of_SF (binary_normalize prec emax (cond_Zopp sx (Z.rem X Y)) e sx)
  | S754_zero s, S754_finite _ _ _ => x
  | S754_finite _ _ _, S754_infinity _ => x
  | S754_zero _, S754_infinity _ => x
  | _, _ => PrimFloat.nan
  end.

(** [float_rem] of CPython's floatobject.c. *)
Definition py_mod (x y : t) : t :=
  let m := c_fmod x y in
  if PrimFloat.eqb m PrimFloat.zero then
    (if PrimFloat.ltb y PrimFloat.zero then PrimFloat.neg_zero
     else PrimFloat.zero)
  else if Bool.eqb (PrimFloat.ltb y PrimFloat.zero)
                   (PrimFloat.ltb m PrimFloat.zero)
  then m else PrimFloat.add m y.
End Binary64.

#[global] Instance binary64_float : PyFloat Binary64.t := {|
  of_int := Binary64.of_Z;
  fadd := PrimFloat.add;
  fsub := PrimFloat.sub;
  fmul := PrimFloat.mul;
  fdiv := PrimFloat.div;
  fmod := Binary64.py_mod;
  flt := PrimFloat.ltb;
  feq := PrimFloat.eqb;
  int_of := Binary64.trunc
|}.

(** NumPy functions the repository calls but does not define. *)
Class NumPy (F : Type) : Type := {
  np_arctan2 : F -> F -> F;
  np_sqrt : F -> F;
  np_pi : F
}.

(** A Python number is an [int] or a [float]; arithmetic on two ints stays
    in the integers, anything else is carried out on floats. *)
Inductive pynum (F : Type) : Type :=
  | PInt (z : Z)
  | PFloat (x : F).
Arguments PInt {F} z.
Arguments PFloat {F} x.

Section pynum.
Context {F : Type} `{PyFloat F}.

Definition to_float (a : pynum F) : F :=
  match a with PInt z => of_int z | PFloat x => x end.

Definition pybin (fz : Z -> Z -> Z) (ff : F -> F -> F) (a b : pynum F)
  : pynum F :=
  match a, b with
  | PInt x, PInt y => PInt (fz x y)
  | _, _ => PFloat (ff (to_float a) (to_float b))
  end.

Definition pyadd := pybin Z.add fadd.
Definition pysub := pybin Z.sub fsub.
Definition pymul := pybin Z.mul fmul.

Definition pylt (a b : pynum F) : bool :=
  match a, b with
  | PInt x, PInt y => x <? y
  | _, _ => (to_float a <? to_float b)%py
  end.

(** [int(a)] *)
Definition pyint (a : pynum F) : Z :=
  match a with PInt z => z | PFloat x => int_of x end.

(** The builtins [min(a, b)] and [max(a, b)] return their first argument
    unless the second is strictly smaller, respectively larger. *)
Definition pymin (a b : pynum F) : pynum F := if pylt b a then b else a.
Definition pymax (a b : pynum F) : pynum F := if pylt a b then b else a.
End pynum.

(** Indexing of a Python list: a negative index counts from the end. *)
Definition py_index {A} (l : list A) (i : Z) : result A :=
  let n := Z.of_nat (length l) in
  let j := if i <? 0 then i + n else i in
  if (j <? 0) || (n <=? j) then Raise IndexError
  else match l !! Z.to_nat j with
       | Some a => Ok a
       | None => Raise IndexError
       end.

(** ** utils/color_utils.py *)

Definition color : Type := Z * Z * Z.

(** What a [uint8] array keeps of an integer stored into it. *)
Definition uint8 (v : Z) : Z := v mod 256.

(** [colorsys.hsv_to_rgb] of the Python standard library. *)
Module colorsys.
Section colorsys.
Context {F : Type} `{PyFloat F}.

Definition hsv_to_rgb (h s v : F) : F * F * F :=
  if (s =? of_int 0)%py then (v, v, v)
  else
    let i := int_of (h * of_int 6)%py in
    let f := (h * of_int 6 - of_int i)%py in
    let p := (v * (of_int 1 - s))%py in
    let q := (v * (of_int 1 - s * f))%py in
    let t := (v * (of_int 1 - s * (of_int 1 - f)))%py in
    let i := i mod 6 in
    if i =? 0 then (v, t, p)
    else if i =? 1 then (q, v, p)
    else if i =? 2 then (p, v, t)
    else if i =? 3 then (p, q, v)
    else if i =? 4 then (t, p, v)
    else (v, p, q).
End colorsys.
End colorsys.

Section color_utils.
Context {F : Type} `{PyFloat F}.

Definition hsv_to_rgb (h s v : F) : color :=
  let '(r, g, b) := colorsys.hsv_to_rgb h s v in
  (int_of (r * of_int 255)%py, int_of (g * of_int 255)%py,
   int_of (b * of_int 255)%py).

Definition blend_channel (c1 c2 : Z) (ratio : pynum F) : Z :=
  pyint (pyadd (pymul (PInt c1) (pysub (PInt 1) ratio))
               (pymul (PInt c2) ratio)).

Definition blend_colors (color1 color2 : color) (ratio : pynum F) : color :=
  let ratio := pymax (PInt 0) (pymin (PInt 1) ratio) in
  let '(r1, g1, b1) := color1 in
  let '(r2, g2, b2) := color2 in
  (blend_channel r1 r2 ratio,
   blend_channel g1 g2 ratio,
   blend_channel b1 b2 ratio).
End color_utils.

Definition wheel (pos : Z) : color :=
  let pos := 255 - pos in
  if pos <? 85 then (255 - pos * 3, 0, pos * 3)
  else if pos <? 170 then
    let pos := pos - 85 in (0, pos * 3, 255 - pos * 3)
  else
    let pos := pos - 170 in (pos * 3, 255 - pos * 3, 0).

(** ** src/tree_model.py *)

(** A field of a CSV row, by what [float(field)] does with it. *)
Inductive csv_field (F : Type) : Type :=
  | Number (x : F)
  | Text.
Arguments Number {F} x.
Arguments Text {F}.

(** The rows [csv.reader] yields; [None] when the file cannot be opened. *)
Definition csv_file (F : Type) : Type := option (list (list (csv_field F))).

Module tree_model.

Record TreeModel (F : Type) : Type := mkTreeModel {
  led_count : Z;
  coordinates : list (list F);
  bounds : (F * F) * (F * F) * (F * F);
  center : list F
}.
Arguments mkTreeModel {F}.
Arguments led_count {F}.
Arguments coordinates {F}.
Arguments bounds {F}.
Arguments center {F}.

Section tree_model.
Context {F : Type} `{PyFloat F}.

Definition fmin (a b : F) : F := if (b <? a)%py then b else a.
Definition fmax (a b : F) : F := if (a <? b)%py then b else a.

(** [np.min(a, axis=0)] and [np.max(a, axis=0)]: a reduction over no row
    at all raises. *)
Definition reduce_axis0 (f : F -> F -> F) (a : list (list F))
  : result (list F) :=
  match a with
  | [] => Raise (ValueError "zero-size array to reduction operation")
  | row :: rows => Ok (foldl (zip_with f) row rows)
  end.

(** [np.mean(a, axis=0)], of at least one row. *)
Definition np_mean_axis0 (a : list (list F)) : list F :=
  match a with
  | [] => []
  | row :: rows =>
      map (fun x : F => (x / of_int (Z.of_nat (length a)))%py)
          (foldl (zip_with fadd) row rows)
  end.

(** [np.array(rows, dtype=np.float32)]: the rows must have one length.
    The rounding of the values to single precision is left to the
    instance of [F]. *)
Definition np_array (rows : list (list F)) : result (list (list F)) :=
  match rows with
  | [] => Ok []
  | row :: rest =>
      if forallb (fun r => Nat.eqb (length r) (length row)) rest
      then Ok rows
      else Raise (ValueError "inhomogeneous shape")
  end.

(** [np.linspace(0, 1, num)]: the samples [i * step + start], the last
    one overwritten with [stop]. *)
Definition np_linspace01 (num : Z) : list F :=
  let div := num - 1 in
  let delta : F := (of_int 1 - of_int 0)%py in
  let step : F := if 0 <? div then (delta / of_int div)%py else delta in
  let y := map (fun i : nat => (of_int (Z.of_nat i) * step + of_int 0)%py)
               (seq 0 (Z.to_nat num)) in
  if 1 <? num then <[Z.to_nat (num - 1) := of_int 1]> y else y.

(** [_calculate_bounds], on the count and the coordinates the object
    holds when it is called. *)
Definition _calculate_bounds (led_count : Z) (coordinates : list (list F))
  : result (TreeModel F) :=
  min_coords ← reduce_axis0 fmin coordinates;
  max_coords ← reduce_axis0 fmax coordinates;
  x0 ← py_index min_coords 0; x1 ← py_index max_coords 0;
  y0 ← py_index min_coords 1; y1 ← py_index max_coords 1;
  z0 ← py_index min_coords 2; z1 ← py_index max_coords 2;
  Ok (mkTreeModel led_count coordinates ((x0, x1), (y0, y1), (z0, z1))
        (np_mean_axis0 coordinates)).

Definition _create_linear_fallback (led_count : Z) : result (TreeModel F) :=
  if led_count <? 0
  then Raise (ValueError "negative dimensions are not allowed")
  else
    let coordinates :=
      map (fun z : F => [of_int 0; of_int 0; z]) (np_linspace01 led_count) in
    _calculate_bounds led_count coordinates.

(** [float(x)] on every field of the first row. *)
Definition parse_first_row (row : list (csv_field F)) : option (list F) :=
  mapM (fun c => match c with Number x => Some x | Text => None end) row.

(** The loop over the remaining rows: short rows are skipped, a field of
    a longer row that is not a number raises. *)
Fixpoint read_rows (rows : list (list (csv_field F)))
  : result (list (list F)) :=
  match rows with
  | [] => Ok []
  | row :: rows' =>
      match row with
      | c0 :: c1 :: c2 :: _ =>
          match c0, c1, c2 with
          | Number x, Number y, Number z =>
              rest ← read_rows rows'; Ok ([x; y; z] :: rest)
          | _, _, _ => Raise (ValueError "could not convert string to float")
          end
      | _ => read_rows rows'
      end
  end.

(** The body of the [with] block of [load_from_csv]. *)
Definition read_csv (rows : list (list (csv_field F)))
  : result (list (list F)) :=
  match rows with
  | [] => Raise StopIteration (* next(reader) on a file without rows *)
  | first_row :: rows' =>
      let coordinates :=
        match parse_first_row first_row with
        | Some coords => [coords]
        | None => []
        end in
      rest ← read_rows rows'; Ok (coordinates ++ rest)
  end.

Definition load_from_csv (led_count : Z) (file : csv_file F)
  : result (TreeModel F) :=
  match file with
  | None => _create_linear_fallback led_count
  | Some rows =>
      match read_csv rows ≫= np_array with
      | Raise _ => _create_linear_fallback led_count
      | Ok coordinates =>
          let n := Z.of_nat (length coordinates) in
          let led_count := if n =? led_count then led_count else n in
          match _calculate_bounds led_count coordinates with
          | Ok self => Ok self
          | Raise _ => _create_linear_fallback led_count
          end
      end
  end.

(** [TreeModel(csv_path, led_count)]; the file behind a path that is
    given is [file]. *)
Definition TreeModel_init (csv_path : option (csv_file F)) (led_count : Z)
  : result (TreeModel F) :=
  match csv_path with
  | Some file => load_from_csv led_count file
  | None => _create_linear_fallback led_count
  end.

Definition get_position (self : TreeModel F) (led_index : Z)
  : result (list F) :=
  py_index (coordinates self) led_index.

Definition column (j : nat) (a : list (list F)) : list F :=
  map (fun row => nth j row (of_int 0)) a.

Definition get_height_normalized (self : TreeModel F) : list F :=
  let z_coords := column 2 (coordinates self) in
  let '(z_min, z_max) := (bounds self).2 in
  if (z_min <? z_max)%py
  then map (fun z : F => ((z - z_min) / (z_max - z_min))%py) z_coords
  else replicate (Z.to_nat (led_count self)) (of_int 0).

Context `{NumPy F}.

Definition get_angle_from_center (self : TreeModel F) : list F :=
  let cx := nth 0 (center self) (of_int 0) in
  let cy := nth 1 (center self) (of_int 0) in
  let two_pi := (of_int 2 * np_pi)%py in
  map (fun row : list F =>
         let x := (nth 0 row (of_int 0) - cx)%py in
         let y := (nth 1 row (of_int 0) - cy)%py in
         ((np_arctan2 y x + two_pi) %% two_pi)%py)
      (coordinates self).
End tree_model.

End tree_model.

(** ** The wall clock *)

(** [time.time()] answers its [calls]-th call with [readings calls]. *)
Record clock (F : Type) : Type := mkClock {
  readings : nat -> F;
  calls : nat
}.
Arguments mkClock {F}.
Arguments readings {F}.
Arguments calls {F}.

Definition time_time {F} (w : clock F) : F * clock F :=
  (readings w (calls w), mkClock (readings w) (S (calls w))).

(** ** src/effect_base.py *)

Module effect_base.

Record Effect (F : Type) : Type := mkEffect {
  led_count : Z;
  fps : Z;
  frame_time : F;
  tree_model : option (tree_model.TreeModel F);
  start_time : option F;
  current_time : F;
  frame_count : Z;
  pixels : list color;
  running : bool
}.
Arguments mkEffect {F}.
Arguments led_count {F}.
Arguments fps {F}.
Arguments frame_time {F}.
Arguments tree_model {F}.
Arguments start_time {F}.
Arguments current_time {F}.
Arguments frame_count {F}.
Arguments pixels {F}.
Arguments running {F}.

Definition set_pixels {F} (p : list color) (self : Effect F) : Effect F :=
  mkEffect (led_count self) (fps self) (frame_time self) (tree_model self)
    (start_time self) (current_time self) (frame_count self) p (running self).

Definition set_running {F} (b : bool) (self : Effect F) : Effect F :=
  mkEffect (led_count self) (fps self) (frame_time self) (tree_model self)
    (start_time self) (current_time self) (frame_count self) (pixels self) b.

Definition set_timing {F} (st : option F) (ct : F) (fc : Z) (self : Effect F)
  : Effect F :=
  mkEffect (led_count self) (fps self) (frame_time self) (tree_model self)
    st ct fc (pixels self) (running self).

(** An effect class: the object holds the fields of [Effect] and overrides
    [update]. *)
Class EffectClass (F E : Type) : Type := {
  base : E -> Effect F;
  with_base : Effect F -> E -> E;
  update : F -> E -> result E
}.

Section effect_base.
Context {F : Type} `{PyFloat F}.

Definition Effect_init (led_count fps : Z)
    (tree_model : option (tree_model.TreeModel F)) : result (Effect F) :=
  if fps =? 0 then Raise ZeroDivisionError
  else
    let frame_time := (of_int 1 / of_int fps)%py in
    if led_count <? 0
    then Raise (ValueError "negative dimensions are not allowed")
    else Ok (mkEffect led_count fps frame_time tree_model None (of_int 0) 0
               (replicate (Z.to_nat led_count) (0, 0, 0)) false).

Definition start (w : clock F) (self : Effect F) : Effect F * clock F :=
  let '(now, w) := time_time w in
  (set_running true (set_timing (Some now) (of_int 0) 0 self), w).

Definition stop (self : Effect F) : Effect F := set_running false self.

Definition clear (self : Effect F) : Effect F :=
  set_pixels (map (fun _ => (0, 0, 0)) (pixels self)) self.

Definition reset (self : Effect F) : Effect F :=
  set_timing (start_time self) (of_int 0) 0 (clear self).

Definition get_pixels (self : Effect F) : list color := pixels self.

(** Inside the bounds of [led_count] the store is NumPy's, which raises
    past the end of the buffer. *)
Definition set_pixel (self : Effect F) (index r g b : Z)
  : result (Effect F) :=
  if (0 <=? index) && (index <? led_count self)
  then
    if (Z.to_nat index <? length (pixels self))%nat
    then Ok (set_pixels
               (<[Z.to_nat index := (uint8 r, uint8 g, uint8 b)]>
                  (pixels self)) self)
    else Raise IndexError
  else Ok self.

Definition set_all_pixels (self : Effect F) (r g b : Z) : Effect F :=
  set_pixels (map (fun _ => (uint8 r, uint8 g, uint8 b)) (pixels self)) self.



Definition get_time (self : Effect F) : F := current_time self.

Context {E : Type} `{EffectClass F E}.

Definition tick (w : clock F) (self : E)
  : result (list color * E * clock F) :=
  let e := base self in
  if negb (running e) then Ok (pixels e, self, w)
  else
    let '(start_time, w) :=
      match start_time e with
      | Some t => (t, w)
      | None => time_time w
      end in
    let '(current, w) := time_time w in
    let dt := (current - (start_time + current_time e))%py in
    let e := set_timing (Some start_time) (current_time e + dt)%py
               (frame_count e + 1) e in
    self ← update dt (with_base e self);
    Ok (pixels (base self), self, w).
End effect_base.

End effect_base.

(** The message of the [ValueError] a spatial effect raises when it is
    constructed without a tree model. *)
Definition MissingGeometry (class_name : string) : exn :=
  ValueError (class_name +:+ " requires a tree_model").

(** [for i in range(n): self = body(i, self)], stopping at the first
    exception. *)
Fixpoint for_range {A} (body : Z -> A -> result A) (i : Z) (n : nat) (self : A)
  : result A :=
  match n with
  | O => Ok self
  | S n' => self ← body i self; for_range body (i + 1) n' self
  end.

(** ** effects/height_gradient.py *)

Module height_gradient.
Import effect_base.

Record HeightGradientEffect (F : Type) : Type := mkHeightGradientEffect {
  effect : Effect F;
  colors : option (list color);
  animated : bool;
  speed : F;
  heights : list F
}.
Arguments mkHeightGradientEffect {F}.
Arguments effect {F}.
Arguments colors {F}.
Arguments animated {F}.
Arguments speed {F}.
Arguments heights {F}.

Section height_gradient.
Context {F : Type} `{PyFloat F}.

Definition HeightGradientEffect_init (led_count fps : Z)
    (tree_model : option (tree_model.TreeModel F))
    (colors : option (list color)) (animated : bool) (speed : F)
  : result (HeightGradientEffect F) :=
  effect ← Effect_init led_count fps tree_model;
  match tree_model with
  | None => Raise (MissingGeometry "HeightGradientEffect")
  | Some tm =>
      Ok (mkHeightGradientEffect effect colors animated speed
            (tree_model.get_height_normalized tm))
  end.

Definition _interpolate_colors (colors : list color) (position : F)
  : result color :=
  let len := Z.of_nat (length colors) in
  if len =? 1 then py_index colors 0
  else
    let segment_size : F := (of_int 1 / of_int (len - 1))%py in
    let segment_idx := int_of (position / segment_size)%py in
    let segment_idx := Z.min segment_idx (len - 2) in
    let segment_pos :=
      ((position - of_int segment_idx * segment_size) / segment_size)%py in
    color1 ← py_index colors segment_idx;
    color2 ← py_index colors (segment_idx + 1);
    Ok (blend_colors color1 color2 (PFloat segment_pos)).

(** The colour [update] gives to a LED at [height]. *)
Definition led_color (self : HeightGradientEffect F) (height : F)
  : result color :=
  let time_offset :=
    if animated self then PFloat (get_time (effect self) * speed self)%py
    else PInt 0 in
  let height := (to_float (pyadd (PFloat height) time_offset) %% of_int 1)%py in
  match colors self with
  | None => Ok (hsv_to_rgb height (of_int 1) (of_int 1))
  | Some colors => _interpolate_colors colors height
  end.

Definition update (dt : F) (self : HeightGradientEffect F)
  : result (HeightGradientEffect F) :=
  for_range
    (fun i self =>
       height ← py_index (heights self) i;
       '(r, g, b) ← led_color self height;
       effect ← set_pixel (effect self) i r g b;
       Ok (mkHeightGradientEffect effect (colors self) (animated self)
             (speed self) (heights self)))
    0 (Z.to_nat (led_count (effect self))) self.

#[global] Instance HeightGradientEffect_class
  : EffectClass F (HeightGradientEffect F) :=
  Build_EffectClass F (HeightGradientEffect F) effect
    (fun e self =>
       mkHeightGradientEffect e (colors self) (animated self) (speed self)
         (heights self))
    update.
End height_gradient.

End height_gradient.

(** ** effects/rising_wave.py, spiral.py, rotating_plane.py, sphere_pulse.py

    The constructors; every one of them first runs [Effect.__init__], then
    checks the tree model, then precomputes its per-LED features. *)

Module rising_wave.
Import effect_base.

Record RisingWaveEffect (F : Type) : Type := mkRisingWaveEffect {
  effect : Effect F;
  speed : F;
  wave_height : F;
  hue : F;
  heights : list F
}.
Arguments mkRisingWaveEffect {F}.

Definition RisingWaveEffect_init {F} `{PyFloat F} (led_count fps : Z)
    (tree_model : option (tree_model.TreeModel F)) (speed wave_height hue : F)
  : result (RisingWaveEffect F) :=
  effect ← Effect_init led_count fps tree_model;
  match tree_model with
  | None => Raise (MissingGeometry "RisingWaveEffect")
  | Some tm =>
      Ok (mkRisingWaveEffect effect speed wave_height hue
            (tree_model.get_height_normalized tm))
  end.

End rising_wave.

Module spiral.
Import effect_base.

Record SpiralEffect (F : Type) : Type := mkSpiralEffect {
  effect : Effect F;
  speed : F;
  rotations : F;
  width : F;
  heights : list F;
  angles : list F
}.
Arguments mkSpiralEffect {F}.

Definition SpiralEffect_init {F} `{PyFloat F} `{NumPy F} (led_count fps : Z)
    (tree_model : option (tree_model.TreeModel F)) (speed rotations width : F)
  : result (SpiralEffect F) :=
  effect ← Effect_init led_count fps tree_model;
  match tree_model with
  | None => Raise (MissingGeometry "SpiralEffect")
  | Some tm =>
      Ok (mkSpiralEffect effect speed rotations width
            (tree_model.get_height_normalized tm)
            (tree_model.get_angle_from_center tm))
  end.

End spiral.

Module rotating_plane.
Import effect_base.

Record RotatingPlaneEffect (F : Type) : Type := mkRotatingPlaneEffect {
  effect : Effect F;
  speed : F;
  thickness : F;
  angles : list F;
  heights : list F
}.
Arguments mkRotatingPlaneEffect {F}.

Definition RotatingPlaneEffect_init {F} `{PyFloat F} `{NumPy F}
    (led_count fps : Z) (tree_model : option (tree_model.TreeModel F))
    (speed thickness : F)
  : result (RotatingPlaneEffect F) :=
  effect ← Effect_init led_count fps tree_model;
  match tree_model with
  | None => Raise (MissingGeometry "RotatingPlaneEffect")
  | Some tm =>
      Ok (mkRotatingPlaneEffect effect speed thickness
            (tree_model.get_angle_from_center tm)
            (tree_model.get_height_normalized tm))
  end.

End rotating_plane.

Module sphere_pulse.
Import effect_base.

Record SpherePulseEffect (F : Type) : Type := mkSpherePulseEffect {
  effect : Effect F;
  speed : F;
  pulse_width : F;
  num_pulses : Z;
  max_distance : F;
  pulse_origins : list (list F)
}.
Arguments mkSpherePulseEffect {F}.

Section sphere_pulse.
Context {F : Type} `{PyFloat F} `{NumPy F}.

Definition _calculate_max_distance (tm : tree_model.TreeModel F) : F :=
  let '((x0, x1), (y0, y1), (z0, z1)) := tree_model.bounds tm in
  let sq (d : F) : F := (d * d)%py in
  np_sqrt (of_int 0 + sq (x1 - x0) + sq (y1 - y0) + sq (z1 - z0))%py.

(** [np.random.randint(0, high)]: the [k]-th draw of the generator is
    [rng k], brought into the range. *)
Definition randint (rng : nat -> Z) (k : nat) (high : Z) : result Z :=
  if high <=? 0 then Raise (ValueError "high <= 0")
  else Ok (rng k mod high).

Fixpoint draw_origins (rng : nat -> Z) (tm : tree_model.TreeModel F)
    (led_count : Z) (k n : nat) : result (list (list F)) :=
  match n with
  | O => Ok []
  | S n' =>
      idx ← randint rng k led_count;
      origin ← tree_model.get_position tm idx;
      rest ← draw_origins rng tm led_count (S k) n';
      Ok (origin :: rest)
  end.

Definition SpherePulseEffect_init (rng : nat -> Z) (led_count fps : Z)
    (tree_model : option (tree_model.TreeModel F))
    (speed pulse_width : F) (num_pulses : Z)
  : result (SpherePulseEffect F) :=
  effect ← Effect_init led_count fps tree_model;
  match tree_model with
  | None => Raise (MissingGeometry "SpherePulseEffect")
  | Some tm =>
      let max_distance := _calculate_max_distance tm in
      pulse_origins ←
        draw_origins rng tm led_count 0 (Z.to_nat num_pulses);
      Ok (mkSpherePulseEffect effect speed pulse_width num_pulses
            max_distance pulse_origins)
  end.
End sphere_pulse.

End sphere_pulse.

(** ** effects/rainbow.py *)

Module rainbow.
Import effect_base.

Record RainbowEffect (F : Type) : Type := mkRainbowEffect {
  effect : Effect F;
  speed : F;
  offset : pynum F
}.
Arguments mkRainbowEffect {F}.
Arguments effect {F}.
Arguments speed {F}.
Arguments offset {F}.

Section rainbow.
Context {F : Type} `{PyFloat F}.

Definition RainbowEffect_init (led_count fps : Z) (speed : F)
  : result (RainbowEffect F) :=
  effect ← Effect_init led_count fps None;
  Ok (mkRainbowEffect effect speed (PInt 0)).

(** The index [update] hands to [wheel] for LED [i]. *)
Definition pixel_index (self : RainbowEffect F) (i : Z) : Z :=
  let pos := (of_int (i * 256) / of_int (led_count (effect self)))%py in
  pyint (pyadd (PFloat pos) (offset self)) mod 256.

Definition update (dt : F) (self : RainbowEffect F)
  : result (RainbowEffect F) :=
  let offset' :=
    pyadd (offset self) (PFloat (dt * speed self * of_int 50)%py) in
  for_range
    (fun i self =>
       let '(r, g, b) := wheel (pixel_index self i) in
       if (Z.to_nat i <? length (pixels (effect self)))%nat
       then Ok (mkRainbowEffect
                  (set_pixels
                     (<[Z.to_nat i := (uint8 r, uint8 g, uint8 b)]>
                        (pixels (effect self))) (effect self))
                  (speed self) (offset self))
       else Raise IndexError)
    0 (Z.to_nat (led_count (effect self)))
    (mkRainbowEffect (effect self) (speed self) offset').
End rainbow.

End rainbow.

(** ** src/wled_client.py: streaming a frame *)

(** [range(start, stop, step)] for a positive step. *)
Definition py_range (start stop step : Z) : list Z :=
  map (fun k : nat => start + step * Z.of_nat k)
      (seq 0 (Z.to_nat ((stop - start + step - 1) / step))).

Module wled_client.

(** [struct.pack] of one unsigned field in network byte order; a value
    that does not fit raises [struct.error], here [None]. *)
Definition pack_B (v : Z) : option (list Z) :=
  if (0 <=? v) && (v <? 256) then Some [v] else None.

Definition pack_H (v : Z) : option (list Z) :=
  if (0 <=? v) && (v <? 65536) then Some [v / 256; v mod 256] else None.

Definition pack_L (v : Z) : option (list Z) :=
  if (0 <=? v) && (v <? 4294967296)
  then Some [v / 16777216; (v / 65536) mod 256; (v / 256) mod 256; v mod 256]
  else None.

(** [struct.pack('!BBHHL', b0, b1, h0, h1, l)] *)
Definition pack_BBHHL (b0 b1 h0 h1 l : Z) : option (list Z) :=
  x0 ← pack_B b0; x1 ← pack_B b1; x2 ← pack_H h0; x3 ← pack_H h1;
  x4 ← pack_L l;
  Some (x0 ++ x1 ++ x2 ++ x3 ++ x4).

(** [pixels.astype(np.uint8)], then [.flatten().tobytes()] *)
Definition to_bytes (pixels : list color) : list Z :=
  flat_map (fun '(r, g, b) => [uint8 r; uint8 g; uint8 b]) pixels.

Definition max_pixels_per_packet : Z := 480.

(** The datagram the loop of [stream_pixels_ddp] builds at [offset]. *)
Definition ddp_packet (pixels : list color) (start_channel offset : Z)
  : option (list Z) :=
  let num_pixels := Z.of_nat (length pixels) in
  let end_ := Z.min (offset + max_pixels_per_packet) num_pixels in
  let chunk :=
    take (Z.to_nat (end_ - offset)) (drop (Z.to_nat offset) pixels) in
  let chunk_size := (end_ - offset) * 3 in
  let flags := if num_pixels <=? end_ then 1 else 0 in
  header ← pack_BBHHL 65 flags 0 1 (start_channel + offset * 3);
  len ← pack_H chunk_size;
  Some (header ++ len ++ to_bytes chunk).

(** The body of the [try] block over the offsets that are left: the
    datagrams handed to the socket, in order, and whether the loop ran to
    its end.  [accepts packet] tells whether [sendto] returns, rather than
    raises, for that datagram. *)
Fixpoint send_packets (accepts : list Z -> bool) (pixels : list color)
    (start_channel : Z) (offsets : list Z) : list (list Z) * bool :=
  match offsets with
  | [] => ([], true)
  | offset :: offsets' =>
      match ddp_packet pixels start_channel offset with
      | None => ([], false)
      | Some packet =>
          if accepts packet
          then
            let '(sent, ok) :=
              send_packets accepts pixels start_channel offsets' in
            (packet :: sent, ok)
          else ([], false)
      end
  end.

(** [stream_pixels_ddp]: what was sent, and the value returned.  A list of
    colours always has the shape the method checks for. *)
Definition stream_pixels_ddp (accepts : list Z -> bool) (pixels : list color)
    (start_channel : Z) : list (list Z) * bool :=
  let num_pixels := Z.of_nat (length pixels) in
  send_packets accepts pixels start_channel
    (py_range 0 num_pixels max_pixels_per_packet).

Definition stream_pixels (accepts : list Z -> bool) (pixels : list color)
  : list (list Z) * bool :=
  stream_pixels_ddp accepts pixels 0.

End wled_client.

(** ** src/config_manager.py *)

From stdpp Require Import gmap.
From Stdlib Require Import Ascii.

Local Open Scope Z_scope.

Module config_manager.

(** What [yaml.safe_load] returns.  A mapping is a [dict]; of its keys only
    the strings matter here, since every lookup is by a string. *)
#[warnings="-register-all"]
Inductive yaml : Type :=
  | YNull
  | YBool (b : bool)
  | YInt (z : Z)
  | YFloat (x : Binary64.t)
  | YStr (s : string)
  | YList (l : list yaml)
  | YDict (d : gmap string yaml).

(** [s.split('.')] *)
Fixpoint split_dot (s : string) : list string :=
  match s with
  | EmptyString => [EmptyString]
  | String c s' =>
      if Ascii.eqb c "."%char then EmptyString :: split_dot s'
      else match split_dot s' with
           | piece :: pieces => String c piece :: pieces
           | [] => [String c EmptyString]
           end
  end.

Record ConfigManager : Type := mkConfigManager {
  config_path : string;
  config : yaml
}.

(** What opening and parsing the file at a path does. *)
Inductive file_outcome : Type :=
  | NotFound
  | YAMLError
  | Loaded (content : yaml).

Inductive config_error : Type :=
  | FileNotFoundError (path : string)
  | ValueError
  | AttributeError.

Section config_manager.
(** The files of the machine, and where [__init__] looks by default. *)
Variable files : string -> file_outcome.
Variable default_path : string.

Definition _load_config (config_path : string) : config_error + yaml :=
  match files config_path with
  | NotFound => inl (FileNotFoundError config_path)
  | YAMLError => inl ValueError
  | Loaded content => inr content
  end.

Definition ConfigManager_init (config_path : option string)
  : config_error + ConfigManager :=
  let config_path := default default_path config_path in
  match _load_config config_path with
  | inl e => inl e
  | inr config => inr (mkConfigManager config_path config)
  end.

(** The loop of [get] over the keys that are left. *)
Fixpoint get_loop (keys : list string) (value default : yaml) : yaml :=
  match keys with
  | [] => value
  | k :: keys' =>
      match value with
      | YDict d =>
          match d !! k with
          | Some v => get_loop keys' v default
          | None => default
          end
      | _ => default
      end
  end.

Definition get (self : ConfigManager) (key : string) (default : yaml) : yaml :=
  get_loop (split_dot key) (config self) default.

(** [self.config.get(section, {})] *)
Definition get_section (self : ConfigManager) (section : string)
  : config_error + yaml :=
  match config self with
  | YDict d => inr (default (YDict ∅) (d !! section))
  | _ => inl AttributeError
  end.

Definition get_wled_config (self : ConfigManager) := get_section self "wled".
Definition get_led_config (self : ConfigManager) := get_section self "leds".
Definition get_effect_config (self : ConfigManager) :=
  get_section self "effects".

Definition led_count (self : ConfigManager) : yaml :=
  get self "leds.count" (YInt 1610).

Definition fps (self : ConfigManager) : yaml := get self "leds.fps" (YInt 30).

Definition wled_host (self : ConfigManager) : yaml :=
  get self "wled.host" (YStr "localhost").

(** [get_config], on the module's [_config_instance]: the value returned
    and the instance the module holds afterwards. *)
Definition get_config (_config_instance : option ConfigManager)
    (config_path : option string)
  : (config_error + ConfigManager) * option ConfigManager :=
  match _config_instance with
  | Some instance => (inr instance, Some instance)
  | None =>
      match ConfigManager_init config_path with
      | inl e => (inl e, None)
      | inr instance => (inr instance, Some instance)
      end
  end.
End config_manager.

End config_manager.

(** ** Python floats: order, absolute value, literals *)

Section float_order.
Context {F : Type} `{PyFloat F}.

(** [a <= b] and [a >= b] *)
Definition fle (a b : F) : bool := (a <? b)%py || (a =? b)%py.
Definition fge (a b : F) : bool := fle b a.

(** [abs(x)] *)
Definition fabs (x : F) : F :=
  if (x <? of_int 0)%py then (of_int 0 - x)%py else x.

(** The decimal literal [n * 10 ** -k], for [n] and [10 ** k] below
    [2 ** 53]. *)
Definition dec (n : Z) (k : nat) : F := (of_int n / of_int (10 ^ Z.of_nat k))%py.
End float_order.

(** ** src/tree_model.py: the queries *)

Module tree_queries.
Import tree_model.

Section tree_queries.
Context {F : Type} `{PyFloat F}.

(** [self.bounds[axis]] for the axes 0, 1 and 2. *)
Definition bounds_axis (self : TreeModel F) (axis : nat) : F * F :=
  let '(bx, by_, bz) := bounds self in
  match axis with
  | O => bx
  | S O => by_
  | _ => bz
  end.


(** [normalized[:, axis] = (normalized[:, axis] - min_val) / (max_val -
    min_val)] *)
Definition rescale_column (a : list (list F)) (axis : nat)
    (min_val max_val : F) : result (list (list F)) :=
  mapM (M := result)
    (fun row =>
       match row !! axis with
       | Some x =>
           Ok (<[axis := ((x - min_val) / (max_val - min_val))%py]> row)
       | None => Raise IndexError
       end) a.

(** The body of the loop of [normalize_coordinates]. *)
Definition normalize_axis (self : TreeModel F) (axis : nat)
    (normalized : list (list F)) : result (list (list F)) :=
  let '(min_val, max_val) := bounds_axis self axis in
  if (min_val <? max_val)%py
  then rescale_column normalized axis min_val max_val
  else Ok normalized.

Definition normalize_coordinates (self : TreeModel F)
  : result (list (list F)) :=
  normalized ← normalize_axis self 0 (coordinates self);
  normalized ← normalize_axis self 1 normalized;
  normalize_axis self 2 normalized.


End tree_queries.

End tree_queries.


(** ** src/effect_base.py: [blur] and [get_progress] *)

Module effect_tools.
Import effect_base.

Section effect_tools.
Context {F : Type} `{PyFloat F}.

(** [(self.current_time % duration) / duration]; Python raises on a
    modulo by zero. *)
Definition get_progress (self : Effect F) (duration : F) : result F :=
  if (duration =? of_int 0)%py then Raise ZeroDivisionError
  else Ok ((current_time self %% duration) / duration)%py.

(** One channel of [blurred[i]]: the weighted sum, stored into the
    [uint8] copy. *)
Definition box_channel (prev cur next : Z) : Z :=
  let quarter : F := (of_int 1 / of_int 4)%py in
  let half : F := (of_int 1 / of_int 2)%py in
  uint8 (int_of (of_int prev * quarter + of_int cur * half
                 + of_int next * quarter)%py).

Definition box (prev cur next : color) : color :=
  let '(r0, g0, b0) := prev in
  let '(r1, g1, b1) := cur in
  let '(r2, g2, b2) := next in
  (box_channel r0 r1 r2, box_channel g0 g1 g2, box_channel b0 b1 b2).

(** One channel of [self.pixels * (1 - amount) + blurred * amount], cast
    to [uint8]. *)
Definition mix_channel (amount : F) (c blurred : Z) : Z :=
  uint8 (int_of (of_int c * (of_int 1 - amount) + of_int blurred * amount)%py).

Definition mix (amount : F) (c blurred : color) : color :=
  let '(r, g, b) := c in
  let '(r', g', b') := blurred in
  (mix_channel amount r r', mix_channel amount g g', mix_channel amount b b').

(** The loop of [blur] over [range(1, led_count - 1)]. *)
Definition blurred (self : Effect F) : result (list color) :=
  for_range
    (fun i blurred =>
       match pixels self !! Z.to_nat (i - 1), pixels self !! Z.to_nat i,
             pixels self !! Z.to_nat (i + 1) with
       | Some prev, Some cur, Some next =>
           Ok (<[Z.to_nat i := box prev cur next]> blurred)
       | _, _, _ => Raise IndexError
       end)
    1 (Z.to_nat (led_count self - 2)) (pixels self).

Definition blur (self : Effect F) (amount : F) : result (Effect F) :=
  if fle amount (of_int 0) then Ok self
  else
    blurred ← blurred self;
    Ok (set_pixels (zip_with (mix amount) (pixels self) blurred) self).
End effect_tools.

End effect_tools.

(** ** utils/color_utils.py: [dim] and [kelvin_to_rgb] *)

(** The logarithm and the power of the C library, which [np.log] and
    [**] call. *)
Class Libm (F : Type) : Type := {
  np_log : F -> F;
  fpow : F -> F -> F
}.

Section color_temperature.
Context {F : Type} `{PyFloat F} `{Libm F}.

Definition dim (c : color) (factor : pynum F) : color :=
  let '(r, g, b) := c in
  (pyint (pymul (PInt r) factor), pyint (pymul (PInt g) factor),
   pyint (pymul (PInt b) factor)).

(** [max(0, min(255, x))] *)
Definition clamp_255 (x : pynum F) : pynum F :=
  pymax (PInt 0) (pymin (PInt 255) x).

Definition kelvin_to_rgb (kelvin : F) : color :=
  let temp : F := (kelvin / of_int 100)%py in
  let red : pynum F :=
    if fle temp (of_int 66) then PInt 255
    else
      let red := (temp - of_int 60)%py in
      let red :=
        (dec 329698727446 9 * fpow red (dec (-1332047592) 10))%py in
      clamp_255 (PFloat red) in
  let green : F :=
    if fle temp (of_int 66)
    then (dec 994708025861 10 * np_log temp - dec 1611195681661 10)%py
    else
      let green := (temp - of_int 60)%py in
      (dec 2881221695283 10 * fpow green (dec (-755148492) 10))%py in
  let green := clamp_255 (PFloat green) in
  let blue : pynum F :=
    if fge temp (of_int 66) then PInt 255
    else if fle temp (of_int 19) then PInt 0
    else
      let blue := (temp - of_int 10)%py in
      let blue :=
        (dec 1385177312231 10 * np_log blue - dec 3050447927307 10)%py in
      clamp_255 (PFloat blue) in
  (pyint red, pyint green, pyint blue).
End color_temperature.

(** ** effects/rising_wave.py: [update] *)

Module rising_wave_update.
Import effect_base rising_wave.

Section rising_wave_update.
Context {F : Type} `{PyFloat F}.

(** Where the wave is: [(time * self.speed) % 1.0] *)
Definition wave_pos (self : RisingWaveEffect F) : F :=
  ((get_time (effect F self) * speed F self) %% of_int 1)%py.

(** The brightness of a LED at [height]; [brightness ** 2] is the
    square. *)
Definition brightness (wave_height wave_pos height : F) : F :=
  let dist_from_wave := fabs (height - wave_pos)%py in
  if (dist_from_wave <? wave_height)%py
  then
    let brightness := (of_int 1 - dist_from_wave / wave_height)%py in
    (brightness * brightness)%py
  else of_int 0.

Definition update (dt : F) (self : RisingWaveEffect F)
  : result (RisingWaveEffect F) :=
  let wave_pos := wave_pos self in
  for_range
    (fun i self =>
       height ← py_index (heights F self) i;
       let '(r, g, b) :=
         hsv_to_rgb (hue F self) (of_int 1)
           (brightness (wave_height F self) wave_pos height) in
       effect ← set_pixel (effect F self) i r g b;
       Ok (mkRisingWaveEffect effect (speed F self) (wave_height F self)
             (hue F self) (heights F self)))
    0 (Z.to_nat (led_count (effect F self))) self.
End rising_wave_update.

End rising_wave_update.

(** * Vocabulary of the properties *)

Import effect_base tree_model.

(** The literal [n / d] as CPython reads it: the binary64 value nearest to
    the quotient. *)
Definition b64 (n d : Z) : Binary64.t :=
  PrimFloat.div (Binary64.of_Z n) (Binary64.of_Z d).

(** What it means for an effect class to leave the bookkeeping of [Effect]
    to the base class: [update] writes pixels and fields of its own, not
    the clock fields or the run state. *)
Class EffectLaws (F E : Type) `{EffectClass F E} : Prop := {
  base_with_base : forall (e : Effect F) (self : E),
    base (with_base e self) = e;
  update_timing : forall (dt : F) (self self' : E),
    update dt self = Ok self' ->
    start_time (base self') = start_time (base self) /\
    current_time (base self') = current_time (base self) /\
    frame_count (base self') = frame_count (base self) /\
    running (base self') = running (base self)
}.

(** The buffer has one pixel per LED. *)
Definition buffer_sized {F} (self : Effect F) : Prop :=
  length (pixels self) = Z.to_nat (effect_base.led_count self).

(** A colour of 8-bit channels. *)
Definition channels_ok (c : color) : Prop :=
  let '(r, g, b) := c in
  0 <= r <= 255 /\ 0 <= g <= 255 /\ 0 <= b <= 255.


(** An array of rows of [w] columns. *)
Definition rectangular {A} (w : nat) (a : list (list A)) : Prop :=
  Forall (fun row => length row = w) a.

(** The shape of every model a constructor returns: one coordinate per
    LED, at least one row, rows of one width of three columns or more, and
    z bounds that are the minimum and the maximum of the third column. *)
Definition model_wf {F} `{PyFloat F} (m : TreeModel F) : Prop :=
  Z.of_nat (length (coordinates m)) = led_count m /\
  (exists w, (3 <= w)%nat /\ rectangular w (coordinates m)) /\
  exists row rows, coordinates m = row :: rows /\
    (bounds m).2
    = (foldl fmin (nth 2 row (of_int 0)) (column 2 rows),
       foldl fmax (nth 2 row (of_int 0)) (column 2 rows)).

(** What is asked of the constructor [init] of a spatial effect, as a
    function of the tree model it is given.  Without a model it returns no
    effect, and raises the missing-model error of its class as soon as the
    base initializer accepts the frame rate and the LED count; with a
    model it never raises that error, and returns an effect when the base
    initializer accepts its arguments and the model is [enough]. *)
Definition requires_tree_model {F T} (class_name : string) (led_count fps : Z)
    (enough : TreeModel F -> Prop) (init : option (TreeModel F) -> result T)
  : Prop :=
  (forall e, init None <> Ok e) /\
  (fps <> 0 -> 0 <= led_count ->
   init None = Raise (MissingGeometry class_name)) /\
  (forall tm, init (Some tm) <> Raise (MissingGeometry class_name)) /\
  (forall tm, fps <> 0 -> 0 <= led_count -> enough tm ->
     exists e, init (Some tm) = Ok e).

(** The tetrahedron of the design document, behind a header row. *)
Definition tetrahedron_csv : list (list (csv_field Q)) :=
  [ [Text; Text; Text];
    [Number 0%Q; Number 0%Q; Number 0%Q];
    [Number 1%Q; Number 0%Q; Number 0%Q];
    [Number 0%Q; Number 1%Q; Number 0%Q];
    [Number 0%Q; Number 0%Q; Number 1%Q] ].

(** The points read from it. *)
Definition tetrahedron : list (list Q) :=
  [ [0%Q; 0%Q; 0%Q]; [1%Q; 0%Q; 0%Q]; [0%Q; 1%Q; 0%Q]; [0%Q; 0%Q; 1%Q] ].

(** The elapsed times after each of [n] successive ticks, up to the first
    one that raises. *)
Fixpoint elapsed_trace {F E} `{PyFloat F} `{EffectClass F E}
    (n : nat) (w : clock F) (self : E) : list F :=
  match n with
  | O => []
  | S n' =>
      match tick w self with
      | Ok (_, self', w') =>
          current_time (base self') :: elapsed_trace n' w' self'
      | Raise _ => []
      end
  end.

(** A clock that never steps back. *)
Definition nondecreasing (r : nat -> Q) : Prop :=
  forall i j : nat, (i <= j)%nat -> (r i <= r j)%Q.

(** The next reading of the clock is not before the moment the effect has
    reached. *)
Definition synced {E} `{EffectClass Q E} (w : clock Q) (self : E) : Prop :=
  running (base self) = true /\
  exists st, start_time (base self) = Some st /\
             (st + current_time (base self) <= readings w (calls w))%Q.

(** Three LEDs on a vertical line, at the bottom, in the middle and at the
    top, behind a header row. *)
Definition line_csv {F} `{PyFloat F} : list (list (csv_field F)) :=
  [ [Text; Text; Text];
    [Number (of_int 0); Number (of_int 0); Number (of_int 0)];
    [Number (of_int 0); Number (of_int 0); Number (of_int 1 / of_int 2)%py];
    [Number (of_int 0); Number (of_int 0); Number (of_int 1)] ].

(** The colours of examples/simple_effect.py. *)
Definition blue_to_red : list color := [(0, 0, 255); (255, 0, 0)].

(** [HeightGradientEffect(3, 30, TreeModel(line, 3), colors=blue_to_red,
    animated=False)] *)
Definition sample_gradient {F} `{PyFloat F}
  : result (height_gradient.HeightGradientEffect F) :=
  tm ← TreeModel_init (Some (Some line_csv)) 3;
  height_gradient.HeightGradientEffect_init 3 30 (Some tm) (Some blue_to_red)
    false (of_int 1 / of_int 2)%py.

(** A clock that reads the given times, then stays at the last one. *)
Definition clock_of {F} `{PyFloat F} (times : list Z) : clock F :=
  mkClock (fun k => of_int (nth k times (List.last times 0))) 0.

(** The sample effect after [start()], on the clock [times]. *)
Definition started {F} `{PyFloat F} (times : list Z)
  : result (height_gradient.HeightGradientEffect F * clock F) :=
  self ← sample_gradient;
  let '(e, w) := start (clock_of times) (height_gradient.effect self) in
  Ok (with_base e self, w).

(** The buffer its first [tick()] returns. *)
Definition first_frame {F} `{PyFloat F} (times : list Z)
  : result (list color) :=
  '(self, w) ← started times;
  '(p, _, _) ← tick w self;
  Ok p.

(** The elapsed times over its first [n] ticks. *)
Definition elapsed_after {F} `{PyFloat F} (n : nat) (times : list Z)
  : result (list F) :=
  '(self, w) ← started times;
  Ok (elapsed_trace n w self).

(** Values for the NumPy functions, to run the constructors that call
    them; nothing proved here depends on what they return. *)
Definition numpy_stub : NumPy Q :=
  {| np_arctan2 := fun _ _ => 0%Q;
     np_sqrt := fun x => x;
     np_pi := (355 # 113)%Q |}.

(** The binary64 number just below 1: 1 - 2^-53, which Python prints as
    0.9999999999999999. *)
Definition below_one : Binary64.t :=
  PrimFloat.sub (b64 1 1) (b64 1 (2 ^ 53)).

(** [RainbowEffect(3, 30, speed=1)] when its offset has reached [offset]. *)
Definition rainbow_at {F} `{PyFloat F} (offset : pynum F)
  : result (rainbow.RainbowEffect F) :=
  self ← rainbow.RainbowEffect_init 3 30 (of_int 1);
  Ok (rainbow.mkRainbowEffect (rainbow.effect self) (rainbow.speed self)
        offset).

(** The rainbow one turn of the wheel later: its offset is 256 larger. *)
Definition turned {F} `{PyFloat F} (self : rainbow.RainbowEffect F)
  : rainbow.RainbowEffect F :=
  rainbow.mkRainbowEffect (rainbow.effect self) (rainbow.speed self)
    (pyadd (rainbow.offset self) (PInt 256)).



(** A clock that reads the given times, in tenths of a second, then stays
    at the last one. *)
Definition clock_of_tenths {F} `{PyFloat F} (times : list Z) : clock F :=
  mkClock
    (fun k => (of_int (nth k times (List.last times 0)) / of_int 10)%py) 0.

(** The sample effect after [start()], on the clock [w]. *)
Definition started_on {F} `{PyFloat F} (w : clock F)
  : result (height_gradient.HeightGradientEffect F * clock F) :=
  self ← sample_gradient;
  let '(e, w) := start w (height_gradient.effect self) in
  Ok (with_base e self, w).

(** The elapsed times over its first [n] ticks. *)
Definition elapsed_on {F} `{PyFloat F} (n : nat) (w : clock F)
  : result (list F) :=
  '(self, w) ← started_on w;
  Ok (elapsed_trace n w self).

(** The number a receiver reads from bytes in network byte order. *)
Definition be_value (bytes : list Z) : Z :=
  fold_left (fun acc b => acc * 256 + b) bytes 0.

Definition is_byte (b : Z) : Prop := 0 <= b < 256.

(** The parts of a datagram of [stream_pixels_ddp]: the push flag, the
    channel offset, the data length and the data. *)
Definition ddp_push (packet : list Z) : option Z := packet !! 1%nat.
Definition ddp_offset (packet : list Z) : Z := be_value (take 4 (drop 6 packet)).
Definition ddp_length (packet : list Z) : Z := be_value (take 2 (drop 10 packet)).
Definition ddp_data (packet : list Z) : list Z := drop 12 packet.

(** The pixels of the [k]-th datagram of a frame. *)
Definition ddp_chunk (pixels : list color) (k : nat) : list color :=
  take 480 (drop (480 * k) pixels).

(** The number of datagrams of a frame of [n] pixels. *)
Definition ddp_count (n : nat) : nat := Z.to_nat ((Z.of_nat n + 479) / 480).

(** A key component: a string without a dot. *)
Fixpoint no_dot (s : string) : bool :=
  match s with
  | EmptyString => true
  | String c s' => negb (Ascii.eqb c ".") && no_dot s'
  end.

(** A configuration with a [leds] section and a [wled] entry that is not
    a mapping. *)
Definition sample_config : config_manager.ConfigManager :=
  config_manager.mkConfigManager "config.yaml"
    (config_manager.YDict
       {[ "leds" := config_manager.YDict
                      {[ "count" := config_manager.YInt 50 ]};
          "wled" := config_manager.YStr "10.0.0.7" ]}).

(** The least and the greatest value of column [j] of an array. *)
Definition axis_range {F} `{PyFloat F} (a : list (list F)) (j : nat) : F * F :=
  match a with
  | [] => (of_int 0, of_int 0)
  | row :: rows =>
      (foldl fmin (nth j row (of_int 0)) (column j rows),
       foldl fmax (nth j row (of_int 0)) (column j rows))
  end.

(** The shape of every model a constructor returns, on all three axes. *)
Definition model_axes {F} `{PyFloat F} (m : TreeModel F) : Prop :=
  Z.of_nat (length (coordinates m)) = led_count m /\
  coordinates m <> [] /\
  (exists w, (3 <= w)%nat /\ rectangular w (coordinates m)) /\
  forall j, (j < 3)%nat ->
    tree_queries.bounds_axis m j = axis_range (coordinates m) j.

(** A file whose first row is a header and whose other rows are too short
    to be read. *)
Definition header_only_csv : list (list (csv_field Q)) :=
  [ [Text; Text; Text]; [Number 1%Q; Number 2%Q]; [] ].

(** A file without a header that has an index column before the
    coordinates. *)
Definition indexed_csv : list (list (csv_field Q)) :=
  [ [Number 0%Q; Number 0%Q; Number 0%Q; Number 0%Q];
    [Number 1%Q; Number 1%Q; Number 0%Q; Number 0%Q];
    [Number 2%Q; Number 0%Q; Number 0%Q; Number 1%Q] ].

(** A row of the file that the reading loop cannot convert: three fields
    or more, and one of the first three is not a number. *)
Definition bad_row {F} (row : list (csv_field F)) : bool :=
  match row with
  | c0 :: c1 :: c2 :: _ =>
      match c0, c1, c2 with
      | Number _, Number _, Number _ => false
      | _, _, _ => true
      end
  | _ => false
  end.

(** What [normalize_coordinates] makes of the value [x] in column [j]. *)
Definition rescaled {F} `{PyFloat F} (m : TreeModel F) (j : nat) (x : F) : F :=
  let '(lo, hi) := tree_queries.bounds_axis m j in
  if (lo <? hi)%py then ((x - lo) / (hi - lo))%py else x.

(** One pass of its loop over a row. *)
Definition step_row {F} `{PyFloat F} (m : TreeModel F) (j : nat)
    (row : list F) : list F :=
  let '(lo, hi) := tree_queries.bounds_axis m j in
  if (lo <? hi)%py
  then <[j := ((nth j row (of_int 0) - lo) / (hi - lo))%py]> row
  else row.

(** A file with a row that holds a word where a coordinate should be. *)
Definition misprinted_csv : list (list (csv_field Q)) :=
  [ [Text; Text; Text];
    [Number 0%Q; Number 0%Q; Number 0%Q];
    [Number 1%Q; Text; Number 0%Q] ].

(** Values for the functions of the C library, to run [kelvin_to_rgb];
    nothing proved here depends on what they return. *)
Definition libm_stub : Libm Q :=
  {| np_log := fun x => x; fpow := fun x _ => x |}.

(** The largest of the three channels. *)
Definition brightest (c : color) : Z :=
  let '(r, g, b) := c in Z.max r (Z.max g b).

(** The colours of a gradient that [update] can interpolate: at least
    one, all of 8-bit channels; no list stands for the rainbow. *)
Definition gradient_colors_ok (colors : option (list color)) : Prop :=
  match colors with
  | None => True
  | Some cs => cs <> [] /\ Forall channels_ok cs
  end.

(** What [update] of the height gradient relies on: a buffer of
    [led_count] pixels, a height for each of them, and usable colours. *)
Definition gradient_ready {F}
    (self : height_gradient.HeightGradientEffect F) : Prop :=
  buffer_sized (height_gradient.effect self) /\
  (Z.to_nat (effect_base.led_count (height_gradient.effect self))
   <= length (height_gradient.heights self))%nat /\
  gradient_colors_ok (height_gradient.colors self).

(** The effect with another buffer. *)
Definition gradient_with_pixels {F} (p : list color)
    (self : height_gradient.HeightGradientEffect F)
  : height_gradient.HeightGradientEffect F :=
  height_gradient.mkHeightGradientEffect
    (set_pixels p (height_gradient.effect self))
    (height_gradient.colors self) (height_gradient.animated self)
    (height_gradient.speed self) (height_gradient.heights self).

Definition wave_with_pixels {F} (p : list color)
    (self : rising_wave.RisingWaveEffect F) : rising_wave.RisingWaveEffect F :=
  rising_wave.mkRisingWaveEffect
    (set_pixels p (rising_wave.effect F self))
    (rising_wave.speed F self) (rising_wave.wave_height F self)
    (rising_wave.hue F self) (rising_wave.heights F self).

(** The rising wave over the five LEDs of the fallback line, at the
    heights 0, 1/4, 1/2, 3/4 and 1: a wave of height 1/5 that stands at
    1/2 after 5/2 seconds. *)
Definition sample_wave : result (rising_wave.RisingWaveEffect Q) :=
  tm ← TreeModel_init None 5;
  self ← rising_wave.RisingWaveEffect_init 5 30 (Some tm)
           (1 # 5)%Q (1 # 5)%Q (1 # 2)%Q;
  Ok (rising_wave.mkRisingWaveEffect
        (set_running true
           (set_timing (Some 0%Q) (5 # 2)%Q 75 (rising_wave.effect Q self)))
        (rising_wave.speed Q self) (rising_wave.wave_height Q self)
        (rising_wave.hue Q self) (rising_wave.heights Q self)).

(** The sample gradient, started when the clock reads 10 and ticked when
    it reads 12 and 13; the next reading is 17. *)
Definition ticked_twice
  : result (height_gradient.HeightGradientEffect Q * clock Q) :=
  '(self, w) ← started [10; 12; 13; 17];
  '(_, self, w) ← tick w self;
  '(_, self, w) ← tick w self;
  Ok (self, w).

(** * Properties *)

(** ** The colour wheel *)

(** C3, as stated, fails: [wheel] does not reduce its argument, so one turn
    further it leaves the range of a colour channel. *)
Lemma wheel_not_periodic : ~ (forall pos : Z, wheel (pos + 256) = wheel pos).
Proof.
  intros Hper. specialize (Hper 0). vm_compute in Hper. discriminate Hper.
Qed.

Lemma wheel_shift_differs (pos : Z) : wheel (pos + 256) <> wheel pos.
Proof.
  unfold wheel.
  repeat match goal with
         | |- context [?a <? ?b] => destruct (Z.ltb_spec a b)
         end; intros Heq; inversion Heq; lia.
Qed.

Lemma wheel_channels (pos : Z) (r g b : Z) :
  0 <= pos <= 255 -> wheel pos = (r, g, b) ->
  (0 <= r <= 255 /\ 0 <= g <= 255 /\ 0 <= b <= 255) /\ r + g + b = 255.
Proof.
  unfold wheel. intros Hpos.
  repeat match goal with
         | |- context [?a <? ?b] => destruct (Z.ltb_spec a b)
         end; intros Heq; inversion Heq; lia.
Qed.

Lemma rainbow_pixel_index_range {F} `{PyFloat F}
    (self : rainbow.RainbowEffect F) (i : Z) :
  rainbow.pixel_index self i = rainbow.pixel_index self i mod 256.
Proof.
  unfold rainbow.pixel_index. symmetry. apply Z.mod_mod. lia.
Qed.

(** ** Blending *)

Section blend.
Context {F : Type} `{PyFloat F}.

Lemma blend_channel_0 (c1 c2 : Z) : blend_channel (F:=F) c1 c2 (PInt 0) = c1.
Proof. unfold blend_channel; simpl. lia. Qed.

Lemma blend_channel_1 (c1 c2 : Z) : blend_channel (F:=F) c1 c2 (PInt 1) = c2.
Proof. unfold blend_channel; simpl. lia. Qed.

(** Once the clamp has turned the ratio into the int 0 or the int 1 the
    blend is computed on integers and returns an end of the segment. *)
Lemma blend_colors_clamped_0 (color1 color2 : color) (ratio : pynum F) :
  pymax (PInt 0) (pymin (PInt 1) ratio) = PInt 0 ->
  blend_colors color1 color2 ratio = color1.
Proof.
  intros Hclamp. destruct color1 as [[r1 g1] b1], color2 as [[r2 g2] b2].
  unfold blend_colors. rewrite Hclamp, !blend_channel_0. reflexivity.
Qed.

Lemma blend_colors_clamped_1 (color1 color2 : color) (ratio : pynum F) :
  pymax (PInt 0) (pymin (PInt 1) ratio) = PInt 1 ->
  blend_colors color1 color2 ratio = color2.
Proof.
  intros Hclamp. destruct color1 as [[r1 g1] b1], color2 as [[r2 g2] b2].
  unfold blend_colors. rewrite Hclamp, !blend_channel_1. reflexivity.
Qed.

Lemma clamp_int (k : Z) :
  pymax (PInt 0) (pymin (PInt 1) (PInt k)) = PInt (F:=F) (Z.max 0 (Z.min 1 k)).
Proof.
  unfold pymax, pymin, pylt.
  destruct (Z.ltb_spec k 1); simpl.
  - destruct (Z.ltb_spec 0 k); f_equal; lia.
  - f_equal; lia.
Qed.
End blend.

(** Exact arithmetic: truncation of a rational that is an integer. *)
Lemma Q_trunc_inject_Z (q : Q) (z : Z) : (q == inject_Z z)%Q -> Q_trunc q = z.
Proof.
  unfold Qeq, Q_trunc; simpl. intros Heq.
  rewrite Z.mul_1_r in Heq. rewrite Heq. apply Z.quot_mul. discriminate.
Qed.

Lemma Q_ltb_lt (x y : Q) : Q_ltb x y = true <-> (x < y)%Q.
Proof.
  unfold Q_ltb. rewrite Qlt_alt. destruct (x ?= y)%Q; split; congruence.
Qed.

Lemma Q_ltb_ge (x y : Q) : Q_ltb x y = false <-> (y <= x)%Q.
Proof.
  pose proof (Q_ltb_lt x y) as Hlt. pose proof (Qnot_lt_le x y) as Hnl.
  pose proof (Qle_not_lt y x) as Hln.
  destruct (Q_ltb x y); split; intros Hyp; try congruence.
  - exfalso. apply (Hln Hyp). apply Hlt. reflexivity.
  - apply Hnl. intros Hxy. apply Hlt in Hxy. discriminate Hxy.
Qed.

Lemma blend_channel_same_Q (c : Z) (r : Q) :
  blend_channel c c (PFloat r) = c.
Proof.
  unfold blend_channel; simpl. apply Q_trunc_inject_Z.
  change (inject_Z 1) with 1%Q. ring.
Qed.

Lemma blend_colors_same_Q (c : color) (ratio : pynum Q) :
  blend_colors c c ratio = c.
Proof.
  destruct c as [[r g] b]. unfold blend_colors.
  destruct (pymax (PInt 0) (pymin (PInt 1) ratio)) as [k | x] eqn:Hclamp.
  - destruct ratio as [j | y].
    + rewrite clamp_int in Hclamp. injection Hclamp as <-.
      unfold blend_channel; simpl. f_equal; [f_equal |]; lia.
    + unfold blend_channel; simpl. f_equal; [f_equal |]; lia.
  - rewrite !blend_channel_same_Q. reflexivity.
Qed.

(** C4, as stated, fails on binary64 floats: a third of the way between
    the colour (3, 3, 3) and itself the sum 3 * 0.7 + 3 * 0.3 is rounded
    below 3 and truncated to 2. *)
Lemma blend_colors_same_binary64_counterexample :
  blend_colors (3, 3, 3) (3, 3, 3) (PFloat (b64 3 10)) = (2, 2, 2) /\
  ~ (forall (c : color) (r : Binary64.t), blend_colors c c (PFloat r) = c).
Proof.
  assert (Hrun : blend_colors (3, 3, 3) (3, 3, 3) (PFloat (b64 3 10))
                 = (2, 2, 2)) by (vm_compute; reflexivity).
  split; [exact Hrun |].
  intros Hsame. rewrite Hsame in Hrun. discriminate Hrun.
Qed.

(** C4 (amended): [blend_colors c1 c2 0] is [c1] and [blend_colors c1 c2 1]
    is [c2], whether 0 and 1 are given as ints or as floats, in exact
    arithmetic and on binary64 floats alike; [blend_colors c c r] is [c]
    for every ratio in exact arithmetic (on binary64 floats the truncated
    sum can fall one short). *)
Theorem blend_colors_endpoints_and_self (c1 c2 : color) :
  (blend_colors (F:=Q) c1 c2 (PInt 0) = c1 /\
   blend_colors (F:=Q) c1 c2 (PInt 1) = c2 /\
   blend_colors c1 c2 (PFloat 0%Q) = c1 /\
   blend_colors c1 c2 (PFloat 1%Q) = c2) /\
  (blend_colors (F:=Binary64.t) c1 c2 (PInt 0) = c1 /\
   blend_colors (F:=Binary64.t) c1 c2 (PInt 1) = c2 /\
   blend_colors c1 c2 (PFloat (b64 0 1)) = c1 /\
   blend_colors c1 c2 (PFloat (b64 1 1)) = c2) /\
  (forall ratio : pynum Q, blend_colors c1 c1 ratio = c1).
Proof.
  repeat split;
    try (apply blend_colors_clamped_0; vm_compute; reflexivity);
    try (apply blend_colors_clamped_1; vm_compute; reflexivity).
  apply blend_colors_same_Q.
Qed.

(** ** The frame buffer *)

Section frame_buffer.
Context {F : Type} `{PyFloat F}.

Lemma Effect_init_sized (led_count fps : Z) tm (self : Effect F) :
  Effect_init led_count fps tm = Ok self ->
  buffer_sized self /\ Forall (fun c => c = (0, 0, 0)) (pixels self) /\
  running self = false /\ effect_base.led_count self = led_count.
Proof.
  unfold Effect_init.
  destruct (fps =? 0); [discriminate |].
  destruct (led_count <? 0); [discriminate |].
  intros [= <-]. unfold buffer_sized; simpl.
  rewrite length_replicate. repeat split.
  apply Forall_forall. intros c Hc. apply elem_of_replicate in Hc. tauto.
Qed.

Lemma set_pixel_sized (self self' : Effect F) (index r g b : Z) :
  buffer_sized self -> set_pixel self index r g b = Ok self' ->
  buffer_sized self'.
Proof.
  unfold set_pixel, buffer_sized.
  destruct (_ && _); [destruct (_ <? _)%nat |]; intros Hlen [= <-]; simpl;
    [rewrite length_insert |]; exact Hlen.
Qed.

(** C9: [set_pixel] with an index outside [0, led_count) returns without
    an exception and leaves the effect, its buffer included, as it was;
    with an index inside, on a buffer of [led_count] pixels, it stores
    the colour at that index and changes no other pixel and no other
    field. *)
Theorem set_pixel_bounds_checked (self : Effect F) (index r g b : Z) :
  (~ (0 <= index < effect_base.led_count self) ->
   set_pixel self index r g b = Ok self) /\
  (buffer_sized self -> 0 <= index < effect_base.led_count self ->
   exists self' : Effect F,
     set_pixel self index r g b = Ok self' /\
     pixels self' !! Z.to_nat index = Some (uint8 r, uint8 g, uint8 b) /\
     (forall j : nat, j <> Z.to_nat index ->
        pixels self' !! j = pixels self !! j) /\
     length (pixels self') = length (pixels self) /\
     self' = set_pixels (pixels self') self).
Proof.
  unfold set_pixel, buffer_sized. split.
  - intros Hout.
    destruct (Z.leb_spec 0 index),
      (Z.ltb_spec index (effect_base.led_count self));
      simpl; try reflexivity.
    exfalso; apply Hout; lia.
  - intros Hlen Hin.
    destruct (Z.leb_spec 0 index); [| lia].
    destruct (Z.ltb_spec index (effect_base.led_count self)); [| lia]. simpl.
    destruct (Nat.ltb_spec (Z.to_nat index) (length (pixels self)));
      [| lia].
    eexists. split; [reflexivity |]. simpl. repeat split.
    + apply list_lookup_insert_eq. assumption.
    + intros j Hj. apply list_lookup_insert_ne. congruence.
    + apply length_insert.
Qed.
End frame_buffer.

(** C9 at work: a buffer of two pixels, an index inside and the slot it
    fills. *)
Lemma set_pixel_bounds_checked_witness :
  let self : Effect Q :=
    mkEffect 2 30 (1 # 30)%Q None None 0%Q 0 [(0, 0, 0); (0, 0, 0)] false in
  ~ (0 <= 5 < effect_base.led_count self) /\ buffer_sized self /\
  0 <= 1 < effect_base.led_count self /\
  set_pixel self 5 10 20 30 = Ok self /\
  exists self', set_pixel self 1 10 20 30 = Ok self' /\
                pixels self' = [(0, 0, 0); (10, 20, 30)].
Proof.
  intros self.
  assert (Hout : ~ (0 <= 5 < effect_base.led_count self)) by (simpl; lia).
  assert (Hlen : buffer_sized self) by reflexivity.
  assert (Hin : 0 <= 1 < effect_base.led_count self) by (simpl; lia).
  split; [exact Hout |]. split; [exact Hlen |]. split; [exact Hin |]. split.
  - exact (proj1 (set_pixel_bounds_checked self 5 10 20 30) Hout).
  - destruct (proj2 (set_pixel_bounds_checked self 1 10 20 30) Hlen Hin)
      as (self' & Hset & _).
    exists self'. split; [exact Hset |].
    vm_compute in Hset. injection Hset as <-. reflexivity.
Defined.

(** ** Ticks of an effect that is not running *)

Section tick_idle.
Context {F E : Type} `{PyFloat F} `{EffectClass F E}.

Lemma stop_fields (e : Effect F) :
  running (stop e) = false /\ pixels (stop e) = pixels e /\
  frame_count (stop e) = frame_count e /\
  current_time (stop e) = current_time e /\
  start_time (stop e) = start_time e.
Proof. repeat split. Qed.

(** C5: when [running] is false, [tick] returns the pixel buffer and
    leaves the effect as it was: no frame is counted, the elapsed time
    does not advance, no pixel is written, and the clock is not read.
    [stop] brings an effect into such a state without touching the
    buffer or the counters. *)
Theorem tick_not_running_is_noop (w : clock F) (self : E) :
  running (base self) = false ->
  tick w self = Ok (pixels (base self), self, w) /\
  running (stop (base self)) = false /\
  pixels (stop (base self)) = pixels (base self) /\
  frame_count (stop (base self)) = frame_count (base self).
Proof.
  intros Hidle. split; [| repeat split].
  unfold tick. rewrite Hidle. reflexivity.
Qed.
End tick_idle.

(** ** Fading *)

Lemma Q_trunc_bounds (q : Q) (c : Z) :
  (0 <= q)%Q -> (q <= inject_Z c)%Q -> 0 <= Q_trunc q <= c.
Proof.
  intros Hlo Hhi.
  assert (Hfloor : Q_trunc q = Qfloor q).
  { unfold Q_trunc, Qfloor. destruct q as [n d]; simpl.
    apply Z.quot_div_nonneg; [| reflexivity].
    unfold Qle in Hlo; simpl in Hlo. lia. }
  rewrite Hfloor. split.
  - change 0 with (Qfloor 0). apply Qfloor_resp_le. exact Hlo.
  - rewrite <- (Qfloor_Z c). apply Qfloor_resp_le. exact Hhi.
Qed.

Lemma uint8_small (v : Z) : 0 <= v <= 255 -> uint8 v = v.
Proof. intros Hv. unfold uint8. apply Z.mod_small. lia. Qed.








(** ** The index of the rainbow *)

Lemma Q_trunc_floor (q : Q) : (0 <= q)%Q -> Q_trunc q = Qfloor q.
Proof.
  intros Hq. unfold Q_trunc, Qfloor. destruct q as [n d]; simpl.
  apply Z.quot_div_nonneg; [| reflexivity].
  unfold Qle in Hq; simpl in Hq. lia.
Qed.

Lemma Qfloor_unique (q : Q) (n : Z) :
  (inject_Z n <= q)%Q -> (q < inject_Z (n + 1))%Q -> Qfloor q = n.
Proof.
  intros Hlo Hhi.
  pose proof (Qfloor_resp_le _ _ Hlo) as Hge. rewrite Qfloor_Z in Hge.
  pose proof (Qfloor_le q) as Hle.
  assert (Hlt : (inject_Z (Qfloor q) < inject_Z (n + 1))%Q)
    by (eapply Qle_lt_trans; eassumption).
  rewrite <- Zlt_Qlt in Hlt. lia.
Qed.

(** [int(x + 256) = int(x) + 256] for [x] that is not negative. *)
Lemma Q_trunc_turn (x y : Q) :
  (0 <= x)%Q -> (y == x + 256)%Q -> Q_trunc y = Q_trunc x + 256.
Proof.
  intros Hx Hy.
  rewrite (Q_trunc_floor x Hx), (Q_trunc_floor y) by (rewrite Hy; lra).
  rewrite (Qfloor_comp _ _ Hy). apply Qfloor_unique.
  - rewrite inject_Z_plus. pose proof (Qfloor_le x) as Hle.
    change (inject_Z 256) with 256%Q. lra.
  - replace (Qfloor x + 256 + 1) with (Qfloor x + 1 + 256) by lia.
    rewrite inject_Z_plus. pose proof (Qlt_floor x) as Hlt.
    change (inject_Z 256) with 256%Q. lra.
Qed.

(** C3 (amended): on the positions 0..255 it is written for, [wheel] gives
    three channels in 0..255 that sum to 255; it does not reduce its
    argument.  The period of 256 is that of the index the Rainbow effect
    hands to it, [int(i * 256 / led_count + offset) % 256]: in exact
    arithmetic that index is a position in 0..255 for every LED, and with
    an offset that is not negative every LED has the same index, hence
    the same colour, when the offset is 256 larger.  On binary64 floats
    the larger sum is rounded and the index can differ: at an offset of
    1 - 2^-53, LED 0 has index 0, and index 1 one turn later. *)
Theorem rainbow_index_periodic_256 :
  (forall pos : Z, 0 <= pos <= 255 ->
     channels_ok (wheel pos) /\
     (wheel pos).1.1 + (wheel pos).1.2 + (wheel pos).2 = 255) /\
  (forall (self : rainbow.RainbowEffect Q) (i : Z),
     0 <= rainbow.pixel_index self i <= 255) /\
  (forall (self : rainbow.RainbowEffect Q) (i : Z),
     0 <= i < effect_base.led_count (rainbow.effect self) ->
     (0 <= to_float (rainbow.offset self))%Q ->
     rainbow.pixel_index (turned self) i = rainbow.pixel_index self i /\
     wheel (rainbow.pixel_index (turned self) i)
     = wheel (rainbow.pixel_index self i)) /\
  (exists self : rainbow.RainbowEffect Binary64.t,
     rainbow_at (PFloat below_one) = Ok self /\
     rainbow.pixel_index self 0 = 0 /\
     rainbow.pixel_index (turned self) 0 = 1).
Proof.
  split; [| split; [| split]].
  - intros pos Hpos. destruct (wheel pos) as [[r g] b] eqn:Hwheel.
    destruct (wheel_channels pos r g b Hpos Hwheel) as [Hc Hsum].
    split; [exact Hc | exact Hsum].
  - intros self i. unfold rainbow.pixel_index.
    match goal with
    | |- 0 <= ?a mod 256 <= 255 => pose proof (Z.mod_pos_bound a 256); lia
    end.
  - intros self i Hi Ho.
    assert (Hindex : rainbow.pixel_index (turned self) i
                     = rainbow.pixel_index self i); [| rewrite Hindex; auto].
    unfold rainbow.pixel_index, turned; simpl.
    set (n := effect_base.led_count (rainbow.effect self)) in *.
    set (pos := (inject_Z (i * 256) / inject_Z n)%Q).
    assert (Hpos : (0 <= pos)%Q).
    { apply Qle_shift_div_l.
      - change 0%Q with (inject_Z 0). rewrite <- Zlt_Qlt. lia.
      - rewrite Qmult_0_l. change 0%Q with (inject_Z 0).
        rewrite <- Zle_Qle. lia. }
    assert (Hturn : forall x y : Q, (0 <= x)%Q -> (y == x + 256)%Q ->
              Q_trunc y mod 256 = Q_trunc x mod 256).
    { intros x y Hx Hy. rewrite (Q_trunc_turn x y Hx Hy).
      rewrite <- (Z.mul_1_l 256) at 1. apply Z_mod_plus_full. }
    clearbody pos.
    destruct (rainbow.offset self) as [k | o]; simpl in Ho |- *; apply Hturn.
    + lra.
    + rewrite inject_Z_plus. change (inject_Z 256) with 256%Q. ring.
    + lra.
    + change (inject_Z 256) with 256%Q. ring.
  - eexists. split; [vm_compute; reflexivity |].
    split; vm_compute; reflexivity.
Qed.

(** C3 at work: three LEDs at an offset of 12.5; LED 1 has index 97 now
    and one turn later. *)
Lemma rainbow_index_periodic_256_witness :
  exists self : rainbow.RainbowEffect Q,
    rainbow_at (PFloat (25 # 2)%Q) = Ok self /\
    0 <= 1 < effect_base.led_count (rainbow.effect self) /\
    (0 <= to_float (rainbow.offset self))%Q /\
    rainbow.pixel_index self 1 = 97 /\
    rainbow.pixel_index (turned self) 1 = 97.
Proof.
  eexists. split; [vm_compute; reflexivity |].
  match goal with
  | |- ?i /\ ?o /\ _ =>
      assert (Hi : i) by (simpl; lia);
      assert (Ho : o) by (unfold Qle; simpl; lia)
  end.
  split; [exact Hi |]. split; [exact Ho |].
  split; [vm_compute; reflexivity |].
  rewrite (proj1 (proj1 (proj2 (proj2 rainbow_index_periodic_256))
                    _ 1 Hi Ho)).
  vm_compute; reflexivity.
Defined.

(** ** The tree model *)

Lemma py_index_Ok {A} (l : list A) (i : Z) (a : A) :
  0 <= i -> py_index l i = Ok a -> l !! Z.to_nat i = Some a.
Proof.
  intros Hi. unfold py_index.
  destruct (Z.ltb_spec i 0); [lia |].
  destruct (_ || _); [discriminate |].
  destruct (l !! Z.to_nat i); [| discriminate]. congruence.
Qed.

Lemma py_index_lookup {A} (l : list A) (i : nat) (a : A) :
  l !! i = Some a -> py_index l (Z.of_nat i) = Ok a.
Proof.
  intros Hl. pose proof (lookup_lt_Some _ _ _ Hl) as Hlt. unfold py_index.
  destruct (Z.ltb_spec (Z.of_nat i) 0); [lia |].
  destruct (Z.ltb_spec (Z.of_nat i) 0); [lia |].
  destruct (Z.leb_spec (Z.of_nat (length l)) (Z.of_nat i)); [lia |]. simpl.
  rewrite Nat2Z.id, Hl. reflexivity.
Qed.

Section tree_model_facts.
Context {F : Type} `{PyFloat F}.

Lemma foldl_zip_with_length (f : F -> F -> F) (w : nat) rows :
  forall row, length row = w -> rectangular w rows ->
  length (foldl (zip_with f) row rows) = w.
Proof.
  induction rows as [| r rows IH]; intros row Hrow Hrect; simpl.
  - exact Hrow.
  - inversion Hrect; subst. apply IH; [| assumption].
    rewrite length_zip_with. lia.
Qed.

Lemma foldl_zip_with_nth (f : F -> F -> F) (w j : nat) (d : F) rows :
  forall row, (j < w)%nat -> length row = w -> rectangular w rows ->
  nth j (foldl (zip_with f) row rows) d
  = foldl f (nth j row d) (map (fun r => nth j r d) rows).
Proof.
  induction rows as [| r rows IH]; intros row Hj Hrow Hrect; simpl.
  - reflexivity.
  - inversion Hrect as [| ? ? Hr Hrows]; subst.
    rewrite IH; [| assumption | rewrite length_zip_with; lia | assumption].
    f_equal.
    destruct (lookup_lt_is_Some_2 row j) as [x Hx]; [lia |].
    destruct (lookup_lt_is_Some_2 r j) as [y Hy]; [lia |].
    rewrite (nth_lookup_Some _ _ _ _ Hx), (nth_lookup_Some _ _ _ _ Hy).
    apply nth_lookup_Some.
    rewrite lookup_zip_with, Hx, Hy. reflexivity.
Qed.

Lemma np_array_Ok (rows a : list (list F)) :
  np_array rows = Ok a -> a = rows /\ exists w, rectangular w rows.
Proof.
  unfold np_array. destruct rows as [| row rest].
  - intros [= <-]. split; [reflexivity |]. exists 0%nat. constructor.
  - destruct (forallb _ rest) eqn:Hall; [| discriminate].
    intros [= <-]. split; [reflexivity |].
    exists (length row). constructor; [reflexivity |].
    apply Forall_forall. intros r Hr.
    rewrite forallb_forall in Hall.
    apply Nat.eqb_eq, Hall, list_elem_of_In, Hr.
Qed.

Lemma np_array_rectangular (w : nat) (rows : list (list F)) :
  rectangular w rows -> np_array rows = Ok rows.
Proof.
  unfold np_array. destruct rows as [| row rest]; [reflexivity |].
  intros Hrect. inversion Hrect as [| ? ? Hrow Hrest]; subst.
  replace (forallb _ rest) with true; [reflexivity |].
  symmetry. apply forallb_forall. intros r Hr. apply Nat.eqb_eq.
  rewrite Forall_forall in Hrest. apply Hrest, list_elem_of_In, Hr.
Qed.

(** What [_calculate_bounds] returns on a rectangular array: the model
    holds the count and the coordinates it was given, there is at least
    one row of at least three columns, and the z bounds are the running
    minimum and maximum of the third column. *)
Lemma calculate_bounds_Ok (w : nat) (n : Z) (a : list (list F))
    (m : TreeModel F) :
  rectangular w a -> _calculate_bounds n a = Ok m ->
  led_count m = n /\ coordinates m = a /\ (3 <= w)%nat /\
  exists row rows, a = row :: rows /\
    (bounds m).2
    = (foldl fmin (nth 2 row (of_int 0)) (column 2 rows),
       foldl fmax (nth 2 row (of_int 0)) (column 2 rows)).
Proof.
  intros Hrect. unfold _calculate_bounds.
  destruct a as [| row rows]; [discriminate |].
  inversion Hrect as [| ? ? Hrow Hrows]; subst. simpl.
  set (lo := foldl (zip_with fmin) row rows).
  set (hi := foldl (zip_with fmax) row rows).
  destruct (py_index lo 0) as [x0 |]; [simpl | discriminate].
  destruct (py_index hi 0) as [x1 |]; [simpl | discriminate].
  destruct (py_index lo 1) as [y0 |]; [simpl | discriminate].
  destruct (py_index hi 1) as [y1 |]; [simpl | discriminate].
  destruct (py_index lo 2) as [z0 |] eqn:Hz0; [simpl | discriminate].
  destruct (py_index hi 2) as [z1 |] eqn:Hz1; [simpl | discriminate].
  intros [= <-]; simpl.
  apply py_index_Ok in Hz0; [| lia]. apply py_index_Ok in Hz1; [| lia].
  assert (Hw : (2 < length row)%nat).
  { apply lookup_lt_Some in Hz0. subst lo.
    rewrite (foldl_zip_with_length fmin (length row)) in Hz0;
      [lia | reflexivity | assumption]. }
  repeat split; [lia |].
  exists row, rows. split; [reflexivity |].
  apply (nth_lookup_Some _ _ (of_int 0)) in Hz0, Hz1. subst lo hi.
  rewrite (foldl_zip_with_nth fmin (length row)) in Hz0
    by (lia || reflexivity || assumption).
  rewrite (foldl_zip_with_nth fmax (length row)) in Hz1
    by (lia || reflexivity || assumption).
  change (Z.to_nat 2) with 2%nat in Hz0, Hz1.
  unfold column. rewrite Hz0, Hz1. reflexivity.
Qed.

Lemma calculate_bounds_total (w : nat) (n : Z) (a : list (list F)) :
  rectangular w a -> (3 <= w)%nat -> a <> [] ->
  exists m, _calculate_bounds n a = Ok m.
Proof.
  intros Hrect Hw Ha. unfold _calculate_bounds.
  destruct a as [| row rows]; [congruence |].
  inversion Hrect as [| ? ? Hrow Hrows]; subst. simpl.
  set (lo := foldl (zip_with fmin) row rows).
  set (hi := foldl (zip_with fmax) row rows).
  assert (Hlo : length lo = length row)
    by (apply foldl_zip_with_length; [reflexivity | assumption]).
  assert (Hhi : length hi = length row)
    by (apply foldl_zip_with_length; [reflexivity | assumption]).
  assert (Hget : forall (v : list F) (j : Z),
             length v = length row -> 0 <= j < 3 ->
             exists x, py_index v j = Ok x).
  { intros v j Hv Hj.
    destruct (lookup_lt_is_Some_2 v (Z.to_nat j)) as [x Hx]; [lia |].
    exists x. rewrite <- (Z2Nat.id j) by lia. apply py_index_lookup, Hx. }
  destruct (Hget lo 0 Hlo) as [x0 ->]; [lia |].
  destruct (Hget hi 0 Hhi) as [x1 ->]; [lia |].
  destruct (Hget lo 1 Hlo) as [y0 ->]; [lia |].
  destruct (Hget hi 1 Hhi) as [y1 ->]; [lia |].
  destruct (Hget lo 2 Hlo) as [z0 ->]; [lia |].
  destruct (Hget hi 2 Hhi) as [z1 ->]; [lia |].
  simpl. eexists. reflexivity.
Qed.

Lemma np_linspace01_length (num : Z) :
  length (np_linspace01 (F:=F) num) = Z.to_nat num.
Proof.
  unfold np_linspace01. destruct (1 <? num);
    rewrite ?length_insert, length_map, length_seq; reflexivity.
Qed.

Lemma fallback_rectangular (n : Z) :
  rectangular 3
    (map (fun z : F => [of_int 0; of_int 0; z]) (np_linspace01 n)).
Proof.
  unfold rectangular. apply Forall_forall. intros row Hrow.
  apply list_elem_of_In, in_map_iff in Hrow. destruct Hrow as (z & <- & _).
  reflexivity.
Qed.

Lemma create_linear_fallback_Ok (n : Z) (m : TreeModel F) :
  _create_linear_fallback n = Ok m ->
  led_count m = n /\ Z.of_nat (length (coordinates m)) = n /\
  rectangular 3 (coordinates m) /\
  exists row rows, coordinates m = row :: rows /\
    (bounds m).2
    = (foldl fmin (nth 2 row (of_int 0)) (column 2 rows),
       foldl fmax (nth 2 row (of_int 0)) (column 2 rows)).
Proof.
  unfold _create_linear_fallback.
  destruct (Z.ltb_spec n 0); [discriminate |].
  intros Hm.
  destruct (calculate_bounds_Ok 3 _ _ _ (fallback_rectangular n) Hm)
    as (Hn & Ha & _ & Hb).
  rewrite Ha. repeat split; try assumption.
  - rewrite length_map, np_linspace01_length. lia.
  - apply fallback_rectangular.
Qed.
End tree_model_facts.

Section tree_model_invariant.
Context {F : Type} `{PyFloat F}.

Lemma create_linear_fallback_wf (n : Z) (m : TreeModel F) :
  _create_linear_fallback n = Ok m -> model_wf m.
Proof.
  intros Hm. apply create_linear_fallback_Ok in Hm.
  destruct Hm as (Hn & Hlen & Hrect & Hb).
  repeat split; [congruence | | exact Hb].
  exists 3%nat. split; [lia | exact Hrect].
Qed.

Lemma load_from_csv_wf (n : Z) (file : csv_file F) (m : TreeModel F) :
  load_from_csv n file = Ok m -> model_wf m.
Proof.
  unfold load_from_csv.
  destruct file as [rows |]; [| apply create_linear_fallback_wf].
  destruct (read_csv rows ≫= np_array) as [a | e] eqn:Hread;
    [| apply create_linear_fallback_wf].
  assert (Hrect : exists w, rectangular w a).
  { destruct (read_csv rows) as [pts |]; [| discriminate]. simpl in Hread.
    apply np_array_Ok in Hread. destruct Hread as [-> Hrect]. exact Hrect. }
  destruct Hrect as [w Hrect].
  set (k := if Z.of_nat (length a) =? n then n else Z.of_nat (length a)).
  assert (Hk : k = Z.of_nat (length a)).
  { subst k. destruct (Z.eqb_spec (Z.of_nat (length a)) n); congruence. }
  destruct (_calculate_bounds k a) as [m' |] eqn:Hm';
    [| apply create_linear_fallback_wf].
  intros [= <-].
  destruct (calculate_bounds_Ok w _ _ _ Hrect Hm') as (Hn & Ha & Hw & Hb).
  repeat split.
  - congruence.
  - exists w. rewrite Ha. split; assumption.
  - rewrite Ha. exact Hb.
Qed.

Lemma TreeModel_init_wf csv_path (n : Z) (m : TreeModel F) :
  TreeModel_init csv_path n = Ok m -> model_wf m.
Proof.
  unfold TreeModel_init. destruct csv_path as [file |].
  - apply load_from_csv_wf.
  - apply create_linear_fallback_wf.
Qed.

Lemma create_linear_fallback_total (n : Z) :
  0 < n -> exists m, _create_linear_fallback (F:=F) n = Ok m.
Proof.
  intros Hn. unfold _create_linear_fallback.
  destruct (Z.ltb_spec n 0); [lia |].
  apply (calculate_bounds_total 3); [apply fallback_rectangular | lia |].
  intros Hnil. apply (f_equal length) in Hnil.
  rewrite length_map, np_linspace01_length in Hnil. simpl in Hnil. lia.
Qed.

(** C7: every model a constructor returns, from a file or from the
    linear fallback, has as many coordinates as its [led_count] says.
    Points that were read from the file (at least one, all rows of one
    width of three columns or more) are kept as they are and [led_count]
    is their number, whatever count was expected; and the fallback for a
    positive count has that many points. *)
Theorem tree_model_count_matches_coordinates :
  (forall csv_path (n : Z) (m : TreeModel F),
     TreeModel_init csv_path n = Ok m ->
     Z.of_nat (length (coordinates m)) = led_count m) /\
  (forall rows (pts : list (list F)) (w : nat) (n : Z),
     read_csv rows = Ok pts -> pts <> [] -> (3 <= w)%nat ->
     rectangular w pts ->
     exists m, TreeModel_init (Some (Some rows)) n = Ok m /\
               coordinates m = pts /\
               led_count m = Z.of_nat (length pts)) /\
  (forall n : Z, 0 < n ->
     exists m : TreeModel F, TreeModel_init None n = Ok m /\
               led_count m = n /\
               Z.of_nat (length (coordinates m)) = n).
Proof.
  split; [| split].
  - intros csv_path n m Hm. apply TreeModel_init_wf in Hm. apply Hm.
  - intros rows pts w n Hread Hne Hw Hrect.
    unfold TreeModel_init, load_from_csv. rewrite Hread. simpl.
    rewrite (np_array_rectangular w) by exact Hrect.
    set (k := if Z.of_nat (length pts) =? n then n
              else Z.of_nat (length pts)).
    assert (Hk : k = Z.of_nat (length pts)).
    { subst k. destruct (Z.eqb_spec (Z.of_nat (length pts)) n); congruence. }
    destruct (calculate_bounds_total w k pts Hrect Hw Hne) as [m Hm].
    rewrite Hm. exists m. split; [reflexivity |].
    destruct (calculate_bounds_Ok w _ _ _ Hrect Hm) as (Hn & Ha & _).
    split; congruence.
  - intros n Hn. simpl.
    destruct (create_linear_fallback_total n Hn) as [m Hm].
    exists m. split; [exact Hm |].
    apply create_linear_fallback_Ok in Hm. tauto.
Qed.
End tree_model_invariant.

(** C7 at work: four points read where ten were expected. *)
Lemma tree_model_count_matches_coordinates_witness :
  read_csv tetrahedron_csv = Ok tetrahedron /\ tetrahedron <> [] /\
  (3 <= 3)%nat /\ rectangular 3 tetrahedron /\ 0 < 10 /\
  (exists m, TreeModel_init (Some (Some tetrahedron_csv)) 10 = Ok m /\
             coordinates m = tetrahedron /\ led_count m = 4 /\
             Z.of_nat (length (coordinates m)) = led_count m) /\
  (exists m : TreeModel Q, TreeModel_init None 10 = Ok m /\ led_count m = 10 /\
             Z.of_nat (length (coordinates m)) = 10).
Proof.
  assert (Hread : read_csv tetrahedron_csv = Ok tetrahedron) by reflexivity.
  assert (Hne : tetrahedron <> []) by discriminate.
  assert (Hw : (3 <= 3)%nat) by lia.
  assert (Hrect : rectangular 3 tetrahedron) by (repeat constructor).
  assert (Hn : 0 < 10) by lia.
  destruct (tree_model_count_matches_coordinates (F:=Q))
    as (Hinv & Hload & Hfb).
  repeat split; try assumption.
  - destruct (Hload tetrahedron_csv tetrahedron 3%nat 10 Hread Hne Hw Hrect)
      as (m & Hm & Hpts & Hcount).
    exists m. repeat split; try assumption.
    exact (Hinv _ _ _ Hm).
  - exact (Hfb 10 Hn).
Defined.

(** ** Normalized heights, in exact arithmetic *)

Lemma foldl_fmin_Q (l : list Q) (a : Q) :
  let lo := foldl fmin a l in
  (lo <= a)%Q /\ Forall (fun x => (lo <= x)%Q) l /\ (lo = a \/ In lo l).
Proof.
  revert a. induction l as [| x l IH]; intros a; simpl.
  - split; [apply Qle_refl |]. split; [constructor | left; reflexivity].
  - destruct (IH (fmin a x)) as (Hle & Hall & Hin).
    assert (Hmin : (fmin a x <= a)%Q /\ (fmin a x <= x)%Q /\
                   (fmin a x = a \/ fmin a x = x)).
    { unfold fmin; simpl. destruct (Q_ltb x a) eqn:Hlt.
      - apply Q_ltb_lt in Hlt. repeat split; [lra | lra | right; reflexivity].
      - apply Q_ltb_ge in Hlt. repeat split; [lra | lra | left; reflexivity]. }
    destruct Hmin as (Ha & Hx & Hor).
    split; [lra |]. split.
    + constructor; [lra | exact Hall].
    + destruct Hin as [Hin | Hin]; [| right; right; exact Hin].
      destruct Hor as [Hor | Hor]; [left | right; left]; congruence.
Qed.

Lemma foldl_fmax_Q (l : list Q) (a : Q) :
  let hi := foldl fmax a l in
  (a <= hi)%Q /\ Forall (fun x => (x <= hi)%Q) l /\ (hi = a \/ In hi l).
Proof.
  revert a. induction l as [| x l IH]; intros a; simpl.
  - split; [apply Qle_refl |]. split; [constructor | left; reflexivity].
  - destruct (IH (fmax a x)) as (Hle & Hall & Hin).
    assert (Hmax : (a <= fmax a x)%Q /\ (x <= fmax a x)%Q /\
                   (fmax a x = a \/ fmax a x = x)).
    { unfold fmax; simpl. destruct (Q_ltb a x) eqn:Hlt.
      - apply Q_ltb_lt in Hlt. repeat split; [lra | lra | right; reflexivity].
      - apply Q_ltb_ge in Hlt. repeat split; [lra | lra | left; reflexivity]. }
    destruct Hmax as (Ha & Hx & Hor).
    split; [lra |]. split.
    + constructor; [lra | exact Hall].
    + destruct Hin as [Hin | Hin]; [| right; right; exact Hin].
      destruct Hor as [Hor | Hor]; [left | right; left]; congruence.
Qed.

Lemma normalized_range (z lo hi : Q) :
  (lo < hi)%Q -> (lo <= z)%Q -> (z <= hi)%Q ->
  (0 <= (z - lo) / (hi - lo))%Q /\ ((z - lo) / (hi - lo) <= 1)%Q.
Proof.
  intros Hd Hlo Hhi. split.
  - apply Qle_shift_div_l; lra.
  - apply Qle_shift_div_r; lra.
Qed.





(** ** Construction of the spatial effects *)

Section constructors.
Context {F : Type} `{PyFloat F} `{NumPy F}.

Lemma Effect_init_total (led_count fps : Z) tm :
  fps <> 0 -> 0 <= led_count ->
  exists effect : Effect F, Effect_init led_count fps tm = Ok effect.
Proof.
  intros Hfps Hn. unfold Effect_init.
  destruct (Z.eqb_spec fps 0); [contradiction |].
  destruct (Z.ltb_spec led_count 0); [lia |].
  eexists; reflexivity.
Qed.

Lemma Effect_init_raises (led_count fps : Z) tm (e : exn) :
  Effect_init (F:=F) led_count fps tm = Raise e ->
  e = ZeroDivisionError \/
  e = ValueError "negative dimensions are not allowed".
Proof.
  unfold Effect_init.
  destruct (fps =? 0); [intros [= <-]; left; reflexivity |].
  destruct (led_count <? 0); [intros [= <-]; right; reflexivity |].
  discriminate.
Qed.

Lemma draw_origins_raises rng (tm : TreeModel F) (led_count : Z)
    (n k : nat) (e : exn) :
  sphere_pulse.draw_origins rng tm led_count k n = Raise e ->
  e = ValueError "high <= 0" \/ e = IndexError.
Proof.
  revert k. induction n as [| n IH]; intros k; simpl; [discriminate |].
  unfold sphere_pulse.randint, get_position, py_index.
  destruct (led_count <=? 0); simpl; [intros [= <-]; left; reflexivity |].
  repeat match goal with
         | |- context [if ?c then _ else _] => destruct c; simpl
         | |- context [match ?l !! ?i with _ => _ end] =>
             destruct (l !! i); simpl
         end;
    try (intros [= <-]; right; reflexivity).
  all: destruct (sphere_pulse.draw_origins rng tm led_count (S k) n) eqn:Hrest;
    simpl; [discriminate | intros [= <-]; eapply IH; exact Hrest].
Qed.

Lemma draw_origins_total rng (tm : TreeModel F) (led_count : Z) (n : nat) :
  0 < led_count <= Z.of_nat (length (coordinates tm)) ->
  forall k, exists origins,
    sphere_pulse.draw_origins rng tm led_count k n = Ok origins.
Proof.
  intros Hn. induction n as [| n IH]; intros k; simpl.
  - eexists; reflexivity.
  - unfold sphere_pulse.randint.
    destruct (Z.leb_spec led_count 0); [lia |]. simpl.
    pose proof (Z.mod_pos_bound (rng k) led_count ltac:(lia)) as Hidx.
    destruct (lookup_lt_is_Some_2 (coordinates tm)
                (Z.to_nat (rng k mod led_count))) as [origin Horigin];
      [lia |].
    unfold get_position.
    rewrite <- (Z2Nat.id (rng k mod led_count)) by lia.
    rewrite (py_index_lookup _ _ _ Horigin). simpl.
    destruct (IH (S k)) as [rest ->]. simpl. eexists; reflexivity.
Qed.

(** A constructor that runs [Effect.__init__], raises without a model and
    otherwise goes on with [rest], which does not raise that error. *)
Lemma requires_tree_model_intro {T} (class_name : string) (led_count fps : Z)
    (enough : TreeModel F -> Prop)
    (rest : Effect F -> TreeModel F -> result T) :
  (forall e tm, rest e tm <> Raise (MissingGeometry class_name)) ->
  (forall e tm, enough tm -> exists x, rest e tm = Ok x) ->
  MissingGeometry class_name <> ZeroDivisionError ->
  MissingGeometry class_name
  <> ValueError "negative dimensions are not allowed" ->
  requires_tree_model class_name led_count fps enough
    (fun tree_model =>
       effect ← Effect_init led_count fps tree_model;
       match tree_model with
       | None => Raise (MissingGeometry class_name)
       | Some tm => rest effect tm
       end).
Proof.
  intros Hrest Henough Hzero Hneg. repeat split.
  - intros e. destruct (Effect_init led_count fps None); discriminate.
  - intros Hfps Hn.
    destruct (Effect_init_total led_count fps None Hfps Hn) as [e ->].
    reflexivity.
  - intros tm.
    destruct (Effect_init led_count fps (Some tm)) as [e | err] eqn:He; simpl.
    + apply Hrest.
    + apply Effect_init_raises in He. destruct He as [-> | ->]; congruence.
  - intros tm Hfps Hn Htm.
    destruct (Effect_init_total led_count fps (Some tm) Hfps Hn) as [e ->].
    simpl. apply Henough, Htm.
Qed.

(** C6 (amended): constructing any of the five spatial effects without a tree
    model fails, and with arguments the base initializer accepts (a frame
    rate other than 0, a count of LEDs that is not negative) the failure
    is the missing-model [ValueError] of the class; with a tree model that
    error is never raised and, on such arguments, the construction
    returns the effect (for the sphere pulse, whose origins are LEDs drawn
    below [led_count], when the model has that many points). *)
Theorem spatial_effects_require_tree_model
    (led_count fps : Z) (colors : option (list color)) (animated : bool)
    (speed wave_height hue rotations width thickness pulse_width : F)
    (num_pulses : Z) (rng : nat -> Z) :
  requires_tree_model "HeightGradientEffect" led_count fps (fun _ => True)
    (fun tree_model =>
       height_gradient.HeightGradientEffect_init led_count fps tree_model
         colors animated speed) /\
  requires_tree_model "RisingWaveEffect" led_count fps (fun _ => True)
    (fun tree_model =>
       rising_wave.RisingWaveEffect_init led_count fps tree_model speed
         wave_height hue) /\
  requires_tree_model "SpiralEffect" led_count fps (fun _ => True)
    (fun tree_model =>
       spiral.SpiralEffect_init led_count fps tree_model speed rotations
         width) /\
  requires_tree_model "RotatingPlaneEffect" led_count fps (fun _ => True)
    (fun tree_model =>
       rotating_plane.RotatingPlaneEffect_init led_count fps tree_model speed
         thickness) /\
  requires_tree_model "SpherePulseEffect" led_count fps
    (fun tm => 0 < led_count <= Z.of_nat (length (coordinates tm)))
    (fun tree_model =>
       sphere_pulse.SpherePulseEffect_init rng led_count fps tree_model speed
         pulse_width num_pulses).
Proof.
  split; [| split; [| split; [| split]]].
  - apply (requires_tree_model_intro _ _ _ _
             (fun effect tm =>
                Ok (height_gradient.mkHeightGradientEffect effect colors
                      animated speed (get_height_normalized tm))));
      [discriminate | eexists; reflexivity | discriminate | discriminate].
  - apply (requires_tree_model_intro _ _ _ _
             (fun effect tm =>
                Ok (rising_wave.mkRisingWaveEffect effect speed wave_height
                      hue (get_height_normalized tm))));
      [discriminate | eexists; reflexivity | discriminate | discriminate].
  - apply (requires_tree_model_intro _ _ _ _
             (fun effect tm =>
                Ok (spiral.mkSpiralEffect effect speed rotations width
                      (get_height_normalized tm)
                      (get_angle_from_center tm))));
      [discriminate | eexists; reflexivity | discriminate | discriminate].
  - apply (requires_tree_model_intro _ _ _ _
             (fun effect tm =>
                Ok (rotating_plane.mkRotatingPlaneEffect effect speed
                      thickness (get_angle_from_center tm)
                      (get_height_normalized tm))));
      [discriminate | eexists; reflexivity | discriminate | discriminate].
  - apply (requires_tree_model_intro _ _ _ _
             (fun effect tm =>
                pulse_origins ←
                  sphere_pulse.draw_origins rng tm led_count 0
                    (Z.to_nat num_pulses);
                Ok (sphere_pulse.mkSpherePulseEffect effect speed pulse_width
                      num_pulses (sphere_pulse._calculate_max_distance tm)
                      pulse_origins)));
      [| | discriminate | discriminate].
    + intros e tm.
      destruct (sphere_pulse.draw_origins rng tm led_count 0
                  (Z.to_nat num_pulses)) as [origins | err] eqn:Hdraw;
        simpl; [discriminate |].
      apply draw_origins_raises in Hdraw.
      destruct Hdraw as [-> | ->]; discriminate.
    + intros e tm Hcount.
      destruct (draw_origins_total rng tm led_count (Z.to_nat num_pulses)
                  Hcount 0%nat) as [origins ->].
      simpl. eexists; reflexivity.
Qed.
End constructors.

(** ** The height gradient as an effect class *)

Lemma for_range_invariant {A} (P : A -> Prop) (body : Z -> A -> result A) :
  (forall i s s', body i s = Ok s' -> P s -> P s') ->
  forall (n : nat) (i : Z) (s s' : A),
    for_range body i n s = Ok s' -> P s -> P s'.
Proof.
  intros Hbody. induction n as [| n IH]; intros i s s'; simpl.
  - intros [= <-]. auto.
  - destruct (body i s) as [s1 |] eqn:Hstep; simpl; [| discriminate].
    intros Hrest Hs. eapply IH; [exact Hrest |]. eapply Hbody; eauto.
Qed.

Lemma set_pixel_timing {F} `{PyFloat F} (e e' : Effect F) (i r g b : Z) :
  set_pixel e i r g b = Ok e' ->
  start_time e' = start_time e /\ current_time e' = current_time e /\
  frame_count e' = frame_count e /\ running e' = running e /\
  effect_base.led_count e' = effect_base.led_count e.
Proof.
  unfold set_pixel.
  destruct (_ && _); [destruct (_ <? _)%nat |]; intros [= <-];
    repeat split.
Qed.

#[global] Instance HeightGradientEffect_laws {F} `{PyFloat F} :
  EffectLaws F (height_gradient.HeightGradientEffect F).
Proof.
  split.
  - intros e self. reflexivity.
  - intros dt self self' Hupd. simpl in Hupd.
    unfold height_gradient.update in Hupd.
    set (P := fun s : height_gradient.HeightGradientEffect F =>
                start_time (height_gradient.effect s)
                = start_time (height_gradient.effect self) /\
                current_time (height_gradient.effect s)
                = current_time (height_gradient.effect self) /\
                frame_count (height_gradient.effect s)
                = frame_count (height_gradient.effect self) /\
                running (height_gradient.effect s)
                = running (height_gradient.effect self)).
    apply (for_range_invariant P) in Hupd; [exact Hupd | | repeat split].
    intros i s s' Hstep (Hst & Hct & Hfc & Hrun).
    destruct (py_index (height_gradient.heights s) i) as [h |];
      [simpl in Hstep | discriminate].
    destruct (height_gradient.led_color s h) as [[[r g] b] |];
      [simpl in Hstep | discriminate].
    destruct (set_pixel (height_gradient.effect s) i r g b) as [e' |] eqn:Hset;
      [simpl in Hstep | discriminate].
    injection Hstep as <-. apply set_pixel_timing in Hset.
    destruct Hset as (Hst' & Hct' & Hfc' & Hrun' & _).
    unfold P; simpl. repeat split; congruence.
Qed.

(** ** Elapsed time *)

Section elapsed_time.
Context {E : Type} `{EffectClass Q E} `{!EffectLaws Q E}.

(** One tick of a running effect: the reading [now] it takes, and what it
    leaves in the effect. *)
Lemma tick_running (w w' : clock Q) (self self' : E) (p : list color) :
  running (base self) = true -> tick w self = Ok (p, self', w') ->
  let st := default (readings w (calls w)) (start_time (base self)) in
  let k := match start_time (base self) with
           | Some _ => calls w
           | None => S (calls w)
           end in
  let now := readings w k in
  let elapsed := current_time (base self) in
  start_time (base self') = Some st /\
  current_time (base self') = (elapsed + (now - (st + elapsed)))%Q /\
  frame_count (base self') = frame_count (base self) + 1 /\
  running (base self') = true /\
  readings w' = readings w /\ calls w' = S k.
Proof.
  intros Hrun. unfold tick. rewrite Hrun. simpl.
  destruct (start_time (base self)) as [st |] eqn:Hst; simpl;
    match goal with
    | |- context [update ?dt ?s] => destruct (update dt s) as [s1 |] eqn:Hupd
    end; simpl; try discriminate;
    intros [= _ <- <-];
    apply update_timing in Hupd; rewrite base_with_base in Hupd; simpl in Hupd;
    destruct Hupd as (-> & -> & -> & ->); repeat split; exact Hrun.
Qed.

Lemma tick_synced (w w' : clock Q) (self self' : E) (p : list color) :
  nondecreasing (readings w) ->
  running (base self) = true -> tick w self = Ok (p, self', w') ->
  synced w' self' /\
  (synced w self -> (current_time (base self) <= current_time (base self'))%Q).
Proof.
  intros Hmono Hrun Htick.
  destruct (tick_running w w' self self' p Hrun Htick)
    as (Hst & Hct & _ & Hrun' & Hr & Hc).
  split.
  - split; [exact Hrun' |]. eexists. split; [exact Hst |].
    rewrite Hct, Hr, Hc.
    match goal with
    | |- (_ <= readings w (S ?k))%Q =>
        pose proof (Hmono k (S k) ltac:(lia)) as Hnext
    end.
    lra.
  - intros (_ & st & Hsome & Hle). rewrite Hct, Hsome. simpl. lra.
Qed.

Lemma elapsed_trace_synced (n : nat) :
  forall (w : clock Q) (self : E),
    nondecreasing (readings w) -> synced w self ->
    Forall (fun t => (current_time (base self) <= t)%Q)
           (elapsed_trace n w self) /\
    StronglySorted Qle (elapsed_trace n w self).
Proof.
  induction n as [| n IH]; intros w self Hmono Hsync; simpl.
  - split; constructor.
  - destruct (tick w self) as [[[p self'] w'] |] eqn:Htick;
      [| split; constructor].
    destruct (tick_running w w' self self' p (proj1 Hsync) Htick)
      as (_ & _ & _ & _ & Hr & _).
    destruct (tick_synced w w' self self' p Hmono (proj1 Hsync) Htick)
      as (Hsync' & Hle).
    specialize (Hle Hsync).
    assert (Hmono' : nondecreasing (readings w')) by (rewrite Hr; exact Hmono).
    destruct (IH w' self' Hmono' Hsync') as (Hall & Hsorted).
    split.
    + constructor; [exact Hle |].
      eapply Forall_impl; [exact Hall |]. intros t Ht. simpl in Ht. lra.
    + constructor; assumption.
Qed.

Lemma elapsed_trace_sorted (n : nat) (w : clock Q) (self : E) :
  nondecreasing (readings w) -> running (base self) = true ->
  StronglySorted Qle (elapsed_trace n w self).
Proof.
  intros Hmono Hrun.
  destruct n as [| n]; simpl; [constructor |].
  destruct (tick w self) as [[[p self'] w'] |] eqn:Htick; [| constructor].
  destruct (tick_running w w' self self' p Hrun Htick)
    as (_ & _ & _ & _ & Hr & _).
  destruct (tick_synced w w' self self' p Hmono Hrun Htick) as (Hsync' & _).
  assert (Hmono' : nondecreasing (readings w')) by (rewrite Hr; exact Hmono).
  destruct (elapsed_trace_synced n w' self' Hmono' Hsync')
    as (Hall & Hsorted).
  constructor; assumption.
Qed.
End elapsed_time.

(** C2 (amended): while the effect is running, whatever the readings of
    the wall clock and in any arithmetic, a tick keeps the logical start
    (the reading taken when there was none) and adds
    [now - (start_time + current_time)] to [current_time].  In exact
    arithmetic that leaves [current_time] at [now - start_time]: from one
    tick to the next it changes by the difference of the two readings, so
    it goes down when the later reading is the lower one, and over any
    number of ticks it never decreases when the readings do not decrease.
    On the binary64 floats of the code the sums are rounded, and the
    elapsed time can go down under equal readings: started at 0.3 and
    ticked three times at 0.9, it is 0.6000000000000001 (the float
    0.9 - 0.3), then 0.6, then 0.6000000000000001. *)
Theorem elapsed_time_follows_the_clock :
  (forall (F E : Type) (HF : PyFloat F) (HE : EffectClass F E)
          (HL : EffectLaws F E)
          (w w' : clock F) (self self' : E) (p : list color),
     running (base self) = true -> tick w self = Ok (p, self', w') ->
     let st := default (readings w (calls w)) (start_time (base self)) in
     let now := readings w (match start_time (base self) with
                            | Some _ => calls w
                            | None => S (calls w)
                            end) in
     start_time (base self') = Some st /\
     current_time (base self')
     = (current_time (base self)
        + (now - (st + current_time (base self))))%py) /\
  (forall (E : Type) (HE : EffectClass Q E) (HL : EffectLaws Q E)
          (w w' : clock Q) (self self' : E) (p : list color),
     running (base self) = true -> tick w self = Ok (p, self', w') ->
     let st := default (readings w (calls w)) (start_time (base self)) in
     let now := readings w (match start_time (base self) with
                            | Some _ => calls w
                            | None => S (calls w)
                            end) in
     (current_time (base self') == now - st)%Q /\
     (forall p2 self2 w2, tick w' self' = Ok (p2, self2, w2) ->
        (current_time (base self2) - current_time (base self')
         == readings w' (calls w') - now)%Q)) /\
  (forall (E : Type) (HE : EffectClass Q E) (HL : EffectLaws Q E)
          (n : nat) (w : clock Q) (self : E),
     nondecreasing (readings w) -> running (base self) = true ->
     StronglySorted Qle (elapsed_trace n w self)) /\
  elapsed_on (F:=Binary64.t) 3 (clock_of_tenths [3; 9; 9; 9])
  = Ok [PrimFloat.sub (b64 9 10) (b64 3 10); b64 6 10;
        PrimFloat.sub (b64 9 10) (b64 3 10)] /\
  PrimFloat.ltb (b64 6 10) (PrimFloat.sub (b64 9 10) (b64 3 10)) = true.
Proof.
  split; [| split; [| split; [| split; vm_compute; reflexivity]]].
  - intros F E HF HE HL w w' self self' p Hrun. unfold tick.
    rewrite Hrun. simpl.
    destruct (start_time (base self)) as [st |] eqn:Hst; simpl;
      match goal with
      | |- context [update ?dt ?s] => destruct (update dt s) as [s1 |] eqn:Hupd
      end; simpl; try discriminate;
      intros [= _ <- <-];
      apply update_timing in Hupd; rewrite base_with_base in Hupd;
      simpl in Hupd; destruct Hupd as (-> & -> & _ & _); split; reflexivity.
  - intros E HE HL w w' self self' p Hrun Htick.
    destruct (tick_running w w' self self' p Hrun Htick)
      as (Hst & Hct & _ & Hrun' & Hr & Hc).
    cbv zeta. split; [rewrite Hct; ring |].
    intros p2 self2 w2 Htick2.
    destruct (tick_running w' w2 self' self2 p2 Hrun' Htick2)
      as (_ & Hct2 & _).
    rewrite Hst in Hct2. simpl in Hct2. rewrite Hct2, Hct. ring.
  - intros E HE HL n w self Hmono Hrun.
    apply elapsed_trace_sorted; assumption.
Qed.

(** ** Runs of the sample effect *)

(** C1: the run of the scenario.  At heights 0 and 1/2 the gradient from
    (0, 0, 255) to (255, 0, 0) gives (0, 0, 255) and (127, 0, 127), as the
    claim says.  At height 1 it gives (0, 0, 255) again, not (255, 0, 0):
    [update] reduces the height modulo 1 before it interpolates, although
    [_interpolate_colors] itself maps position 1 to the last colour. *)
Theorem height_gradient_top_led_wraps :
  first_frame (F:=Binary64.t) [10; 11]
  = Ok [(0, 0, 255); (127, 0, 127); (0, 0, 255)] /\
  (exists self : height_gradient.HeightGradientEffect Binary64.t,
     sample_gradient = Ok self /\
     height_gradient.heights self = [b64 0 1; b64 1 2; b64 1 1] /\
     height_gradient.led_color self (b64 0 1) = Ok (0, 0, 255) /\
     height_gradient.led_color self (b64 1 2) = Ok (127, 0, 127) /\
     height_gradient.led_color self (b64 1 1) = Ok (0, 0, 255)) /\
  height_gradient._interpolate_colors blue_to_red (b64 1 1) = Ok (255, 0, 0) /\
  first_frame (F:=Q) [10; 11] = Ok [(0, 0, 255); (127, 0, 127); (0, 0, 255)].
Proof.
  split; [vm_compute; reflexivity |]. split.
  - eexists. split; [vm_compute; reflexivity |].
    repeat split; vm_compute; reflexivity.
  - split; vm_compute; reflexivity.
Qed.

(** C2, as stated, fails: the effect is started when the clock reads 10
    and ticks when it reads 12 and then 11; the elapsed time is 2 after
    the first tick and 1 after the second, in exact arithmetic and on
    binary64 floats. *)
Lemma elapsed_time_decreases_counterexample :
  (exists self w,
     started (F:=Q) [10; 12; 11] = Ok (self, w) /\
     running (base self) = true /\
     elapsed_trace 2 w self = [2; 1]%Q /\
     ~ StronglySorted Qle (elapsed_trace 2 w self)) /\
  elapsed_after (F:=Binary64.t) 2 [10; 12; 11] = Ok [b64 2 1; b64 1 1].
Proof.
  split; [| vm_compute; reflexivity].
  eexists. eexists. split; [vm_compute; reflexivity |].
  split; [reflexivity |].
  assert (Htrace : forall t, t = [2; 1]%Q -> ~ StronglySorted Qle t).
  { intros t -> Hsorted. inversion Hsorted as [| ? ? _ Hall]; subst.
    inversion Hall as [| ? ? Hle _]; subst.
    unfold Qle in Hle; simpl in Hle. lia. }
  split; [vm_compute; reflexivity |].
  apply Htrace. vm_compute; reflexivity.
Qed.

(** C2 at work: started at 10, ticks at 12, 13 and 17. *)
Lemma elapsed_time_follows_the_clock_witness :
  exists self w,
    started (F:=Q) [10; 12; 13; 17] = Ok (self, w) /\
    nondecreasing (readings w) /\ running (base self) = true /\
    elapsed_trace 3 w self = [2; 3; 7]%Q /\
    StronglySorted Qle (elapsed_trace 3 w self).
Proof.
  eexists. eexists. split; [vm_compute; reflexivity |].
  match goal with
  | |- nondecreasing ?r /\ ?run = true /\ _ =>
      assert (Hmono : nondecreasing r);
      [| assert (Hrun : run = true) by reflexivity]
  end.
  { intros i j Hij.
    destruct i as [| [| [| [| [| i]]]]], j as [| [| [| [| [| j]]]]];
      try lia; unfold Qle; simpl; lia. }
  split; [exact Hmono |]. split; [exact Hrun |].
  split; [vm_compute; reflexivity |].
  exact (proj1 (proj2 (proj2 elapsed_time_follows_the_clock))
           _ _ _ 3%nat _ _ Hmono Hrun).
Defined.

(** C5 at work: an effect that was constructed and never started. *)
Lemma tick_not_running_is_noop_witness :
  exists self : height_gradient.HeightGradientEffect Q,
    sample_gradient = Ok self /\ running (base self) = false /\
    tick (clock_of [10]) self
    = Ok (pixels (base self), self, clock_of [10]).
Proof.
  eexists. split; [vm_compute; reflexivity |].
  match goal with
  | |- ?run = false /\ _ => assert (Hidle : run = false) by reflexivity
  end.
  split; [exact Hidle |].
  exact (proj1 (tick_not_running_is_noop (clock_of [10]) _ Hidle)).
Defined.

(** C6, as stated, fails on both halves.  Without a model and with a frame
    rate of 0, the base initializer divides by the frame rate before the
    model is looked at: the error is [ZeroDivisionError], not the
    missing-model error.  With the model of three points, the sphere pulse
    for no LED raises [ValueError] when it draws its first origin, and the
    one for five LEDs raises [IndexError] when the draw is LED 4. *)
Lemma spatial_effects_construction_counterexample :
  height_gradient.HeightGradientEffect_init (F:=Q) 3 0 None
    (Some blue_to_red) true (1 # 2)%Q
  = Raise ZeroDivisionError /\
  ZeroDivisionError <> MissingGeometry "HeightGradientEffect" /\
  exists tm : TreeModel Q,
    TreeModel_init (Some (Some line_csv)) 3 = Ok tm /\
    sphere_pulse.SpherePulseEffect_init (H0:=numpy_stub)
      (fun k => Z.of_nat k) 0 30 (Some tm) (1 # 2)%Q (1 # 10)%Q 3
    = Raise (ValueError "high <= 0") /\
    sphere_pulse.SpherePulseEffect_init (H0:=numpy_stub)
      (fun _ => 4) 5 30 (Some tm) (1 # 2)%Q (1 # 10)%Q 3
    = Raise IndexError.
Proof.
  split; [reflexivity |]. split; [discriminate |].
  eexists. split; [vm_compute; reflexivity |].
  split; vm_compute; reflexivity.
Qed.

(** C6 at work: three LEDs at thirty frames a second, without a model and
    with the line of three points. *)
Lemma spatial_effects_require_tree_model_witness :
  30 <> 0 /\ 0 <= 3 /\
  height_gradient.HeightGradientEffect_init (F:=Q) 3 30 None
    (Some blue_to_red) true (1 # 2)%Q
  = Raise (MissingGeometry "HeightGradientEffect") /\
  exists tm : TreeModel Q,
    TreeModel_init (Some (Some line_csv)) 3 = Ok tm /\
    0 < 3 <= Z.of_nat (length (coordinates tm)) /\
    (exists e, height_gradient.HeightGradientEffect_init 3 30 (Some tm)
                 (Some blue_to_red) true (1 # 2)%Q = Ok e) /\
    (exists e, sphere_pulse.SpherePulseEffect_init (H0:=numpy_stub)
                 (fun k => Z.of_nat k) 3 30 (Some tm) (1 # 2)%Q (1 # 10)%Q 3
               = Ok e).
Proof.
  assert (Hfps : 30 <> 0) by lia. assert (Hn : 0 <= 3) by lia.
  pose proof (spatial_effects_require_tree_model (F:=Q) (H0:=numpy_stub)
                3 30 (Some blue_to_red) true (1 # 2)%Q (1 # 5)%Q (1 # 2)%Q
                3%Q (3 # 20)%Q (3 # 20)%Q (1 # 10)%Q 3 (fun k => Z.of_nat k))
    as (Hgradient & _ & _ & _ & Hsphere).
  destruct Hgradient as (_ & Hnone & _ & Hsome).
  destruct Hsphere as (_ & _ & _ & Hpulse).
  split; [exact Hfps |]. split; [exact Hn |].
  split; [exact (Hnone Hfps Hn) |].
  eexists. split; [vm_compute; reflexivity |].
  match goal with
  | |- ?c /\ _ => assert (Hcount : c) by (simpl; lia)
  end.
  split; [exact Hcount |]. split.
  - exact (Hsome _ Hfps Hn I).
  - exact (Hpulse _ Hfps Hn Hcount).
Defined.

(** * Further properties *)

(** ** Streaming a frame (src/wled_client.py) *)

Lemma py_range_480 (n : nat) :
  py_range 0 (Z.of_nat n) wled_client.max_pixels_per_packet
  = map (fun k : nat => 480 * Z.of_nat k) (seq 0 (ddp_count n)).
Proof.
  unfold py_range, ddp_count, wled_client.max_pixels_per_packet.
  replace (Z.of_nat n - 0 + 480 - 1) with (Z.of_nat n + 479) by lia.
  apply map_ext. intros k. lia.
Qed.

Lemma ddp_count_spec (n k : nat) :
  (k < ddp_count n)%nat <-> 480 * Z.of_nat k < Z.of_nat n.
Proof.
  unfold ddp_count.
  assert (Hq : 480 * ((Z.of_nat n + 479) / 480) <= Z.of_nat n + 479
               < 480 * ((Z.of_nat n + 479) / 480) + 480).
  { pose proof (Z.mul_div_le (Z.of_nat n + 479) 480 ltac:(lia)).
    pose proof (Z.mul_succ_div_gt (Z.of_nat n + 479) 480 ltac:(lia)). lia. }
  assert (Hpos : 0 <= (Z.of_nat n + 479) / 480)
    by (apply Z.div_pos; lia).
  split; intros Hk; lia.
Qed.

Lemma to_bytes_app (a b : list color) :
  wled_client.to_bytes (a ++ b)
  = wled_client.to_bytes a ++ wled_client.to_bytes b.
Proof. unfold wled_client.to_bytes. apply flat_map_app. Qed.

Lemma to_bytes_length (a : list color) :
  length (wled_client.to_bytes a) = (3 * length a)%nat.
Proof.
  induction a as [| [[r g] b] a IH]; simpl; [reflexivity | lia].
Qed.

Lemma to_bytes_is_byte (a : list color) :
  Forall is_byte (wled_client.to_bytes a).
Proof.
  induction a as [| [[r g] b] a IH]; simpl; [constructor |].
  repeat constructor; try exact IH;
    unfold is_byte, uint8; apply Z.mod_pos_bound; lia.
Qed.

Lemma ddp_chunk_length (pixels : list color) (k : nat) :
  length (ddp_chunk pixels k)
  = Z.to_nat (Z.min 480 (Z.of_nat (length pixels) - 480 * Z.of_nat k)).
Proof.
  unfold ddp_chunk. rewrite length_take, length_drop. lia.
Qed.

(** The datagram at a chunk boundary, when its channel offset fits the
    32-bit field. *)
Lemma ddp_packet_chunk (pixels : list color) (start_channel : Z) (k : nat) :
  480 * Z.of_nat k < Z.of_nat (length pixels) ->
  0 <= start_channel + 1440 * Z.of_nat k < 4294967296 ->
  let c := start_channel + 1440 * Z.of_nat k in
  let len := 3 * Z.of_nat (length (ddp_chunk pixels k)) in
  let push :=
    if Z.of_nat (length pixels) <=? 480 * Z.of_nat k + 480 then 1 else 0 in
  wled_client.ddp_packet pixels start_channel (480 * Z.of_nat k)
  = Some ([65; push; 0; 0; 0; 1;
           c / 16777216; (c / 65536) mod 256; (c / 256) mod 256; c mod 256;
           len / 256; len mod 256]
          ++ wled_client.to_bytes (ddp_chunk pixels k)).
Proof.
  intros Hk Hc c len push.
  unfold wled_client.ddp_packet, wled_client.max_pixels_per_packet.
  set (N := Z.of_nat (length pixels)) in *.
  assert (Hchunk : take (Z.to_nat (Z.min (480 * Z.of_nat k + 480) N
                                   - 480 * Z.of_nat k))
                     (drop (Z.to_nat (480 * Z.of_nat k)) pixels)
                   = ddp_chunk pixels k).
  { unfold ddp_chunk.
    replace (Z.to_nat (480 * Z.of_nat k)) with (480 * k)%nat by lia.
    destruct (Z.le_gt_cases (480 * Z.of_nat k + 480) N).
    - f_equal. lia.
    - rewrite !take_ge; [reflexivity | |]; rewrite length_drop; lia. }
  rewrite Hchunk.
  assert (Hlen : (Z.min (480 * Z.of_nat k + 480) N - 480 * Z.of_nat k) * 3
                 = len).
  { subst len. rewrite ddp_chunk_length. fold N. lia. }
  rewrite Hlen.
  assert (Hpush : (if N <=? Z.min (480 * Z.of_nat k + 480) N then 1 else 0)
                  = push).
  { subst push.
    destruct (Z.leb_spec N (Z.min (480 * Z.of_nat k + 480) N)),
      (Z.leb_spec N (480 * Z.of_nat k + 480)); lia. }
  rewrite Hpush.
  replace (start_channel + 480 * Z.of_nat k * 3) with c by (subst c; lia).
  assert (Hrange : 0 <= len <= 1440).
  { subst len. rewrite ddp_chunk_length. fold N. lia. }
  assert (Hflag : 0 <= push < 256) by (subst push; destruct (_ <=? _); lia).
  unfold wled_client.pack_BBHHL, wled_client.pack_B, wled_client.pack_H,
    wled_client.pack_L.
  destruct (Z.leb_spec 0 push); [| lia].
  destruct (Z.ltb_spec push 256); [| lia].
  destruct (Z.leb_spec 0 c); [| lia].
  destruct (Z.ltb_spec c 4294967296); [| lia].
  destruct (Z.leb_spec 0 len); [| lia].
  destruct (Z.ltb_spec len 65536); [| lia].
  reflexivity.
Qed.

Lemma ddp_chunks_concat (pixels : list color) (m : nat) :
  forall i : nat, (length pixels <= 480 * (i + m))%nat ->
  concat (map (ddp_chunk pixels) (seq i m)) = drop (480 * i) pixels.
Proof.
  induction m as [| m IH]; intros i Hcover; simpl.
  - symmetry. apply drop_ge. lia.
  - rewrite IH by lia. unfold ddp_chunk.
    replace (480 * S i)%nat with (480 * i + 480)%nat by lia.
    rewrite <- drop_drop. apply take_drop.
Qed.

Lemma be_value_2 (v : Z) : 0 <= v < 65536 -> be_value [v / 256; v mod 256] = v.
Proof. intros Hv. unfold be_value; simpl. Z.div_mod_to_equations; lia. Qed.

Lemma be_value_4 (v : Z) :
  0 <= v < 4294967296 ->
  be_value [v / 16777216; (v / 65536) mod 256; (v / 256) mod 256; v mod 256]
  = v.
Proof. intros Hv. unfold be_value; simpl. Z.div_mod_to_equations; lia. Qed.

Section ddp.
Variable accepts : list Z -> bool.
Variable pixels : list color.
Variable start_channel : Z.

Let N : Z := Z.of_nat (length pixels).
Let K : nat := ddp_count (length pixels).

(** The flag byte of any datagram the loop builds. *)
Lemma ddp_packet_push (offset : Z) (packet : list Z) :
  wled_client.ddp_packet pixels start_channel offset = Some packet ->
  ddp_push packet
  = Some (if N <=? offset + 480 then 1 else 0).
Proof.
  unfold wled_client.ddp_packet, wled_client.pack_BBHHL, wled_client.pack_B,
    wled_client.pack_H, wled_client.pack_L,
    wled_client.max_pixels_per_packet.
  fold N. simpl.
  set (flag := if N <=? Z.min (offset + 480) N then 1 else 0).
  assert (Hflag : flag = if N <=? offset + 480 then 1 else 0).
  { subst flag. destruct (Z.leb_spec N (Z.min (offset + 480) N)),
      (Z.leb_spec N (offset + 480)); lia. }
  destruct ((0 <=? flag) && (flag <? 256)); simpl; [| discriminate].
  destruct ((0 <=? start_channel + offset * 3)
            && (start_channel + offset * 3 <? 4294967296));
    simpl; [| discriminate].
  destruct (_ && _); simpl; [| discriminate].
  intros [= <-]. unfold ddp_push. simpl. rewrite Hflag. reflexivity.
Qed.

(** The loop over the chunks [i], [i + 1], ... of a frame: datagrams go
    out in order until one cannot be built or sent, and only the datagram
    of the last chunk of the frame carries the push flag. *)
Lemma send_packets_push (m : nat) :
  forall (i : nat) (sent : list (list Z)) (ok : bool),
    (i + m)%nat = K ->
    wled_client.send_packets accepts pixels start_channel
      (map (fun k : nat => 480 * Z.of_nat k) (seq i m)) = (sent, ok) ->
    (length sent <= m)%nat /\
    (ok = true <-> length sent = m) /\
    (forall (j : nat) (packet : list Z),
       sent !! j = Some packet ->
       ddp_push packet = Some (if (i + j + 1 =? K)%nat then 1 else 0)).
Proof.
  induction m as [| m IH]; intros i sent ok HK; simpl.
  - intros [= <- <-]. repeat split; try lia; try reflexivity.
    intros j packet Hj. rewrite lookup_nil in Hj. discriminate.
  - destruct (wled_client.ddp_packet pixels start_channel
                (480 * Z.of_nat i)) as [packet |] eqn:Hpacket.
    2: { intros [= <- <-]. simpl.
         repeat split; try lia; try discriminate;
           intros j p Hj; rewrite lookup_nil in Hj; discriminate. }
    destruct (accepts packet).
    2: { intros [= <- <-]. simpl.
         repeat split; try lia; try discriminate;
           intros j p Hj; rewrite lookup_nil in Hj; discriminate. }
    destruct (wled_client.send_packets accepts pixels start_channel
                (map (fun k : nat => 480 * Z.of_nat k) (seq (S i) m)))
      as [sent' ok'] eqn:Hrest.
    intros [= <- <-].
    destruct (IH (S i) sent' ok' ltac:(lia) Hrest) as (Hlen & Hok & Hpush).
    simpl. split; [lia |]. split; [rewrite Hok; lia |].
    intros [| j] p Hj; simpl in Hj.
    + injection Hj as <-. rewrite (ddp_packet_push _ _ Hpacket). f_equal.
      pose proof (ddp_count_spec (length pixels) (S i)) as Hspec.
      fold K N in Hspec.
      destruct (Nat.eqb_spec (i + 0 + 1) K),
        (Z.leb_spec N (480 * Z.of_nat i + 480)); try reflexivity; lia.
    + rewrite (Hpush j p Hj). replace (S i + j + 1)%nat with (i + S j + 1)%nat
        by lia. reflexivity.
Qed.

(** X3: the push flag marks the end of a frame that went out whole: when
    [stream_pixels_ddp] returns [True] every chunk of the frame was sent
    and the last datagram, and no other, has the flag; when it returns
    [False], whatever the reason, fewer datagrams were sent and none of
    them has it. *)
Theorem ddp_push_marks_complete_frame (sent : list (list Z)) (ok : bool) :
  wled_client.stream_pixels_ddp accepts pixels start_channel = (sent, ok) ->
  (ok = true ->
   length sent = ddp_count (length pixels) /\
   forall (j : nat) (packet : list Z),
     sent !! j = Some packet ->
     ddp_push packet = Some (if (j + 1 =? length sent)%nat then 1 else 0)) /\
  (ok = false ->
   (length sent < ddp_count (length pixels))%nat /\
   Forall (fun packet => ddp_push packet = Some 0) sent).
Proof.
  unfold wled_client.stream_pixels_ddp. rewrite py_range_480. fold K.
  intros Hrun.
  destruct (send_packets_push K 0%nat sent ok ltac:(lia) Hrun)
    as (Hlen & Hok & Hpush).
  split.
  - intros ->. assert (Hall : length sent = K) by (apply Hok; reflexivity).
    split; [exact Hall |]. intros j packet Hj.
    rewrite (Hpush j packet Hj), Hall. reflexivity.
  - intros ->. assert (Hfew : length sent <> K).
    { intros Hall. apply Hok in Hall. discriminate. }
    split; [lia |]. apply Forall_forall. intros packet Hin.
    apply list_elem_of_lookup in Hin. destruct Hin as [j Hj].
    rewrite (Hpush j packet Hj).
    pose proof (lookup_lt_Some _ _ _ Hj).
    destruct (Nat.eqb_spec (0 + j + 1) K); [lia | reflexivity].
Qed.

Hypothesis accepts_all : forall packet, accepts packet = true.
Hypothesis channel_range : 0 <= start_channel /\ start_channel + 3 * N <= 4294967296.

Lemma send_packets_frame (m : nat) :
  forall i : nat, (i + m)%nat = K ->
  exists sent,
    wled_client.send_packets accepts pixels start_channel
      (map (fun k : nat => 480 * Z.of_nat k) (seq i m)) = (sent, true) /\
    length sent = m /\
    forall (j : nat) (packet : list Z),
      sent !! j = Some packet ->
      ddp_data packet = wled_client.to_bytes (ddp_chunk pixels (i + j)) /\
      ddp_offset packet = start_channel + 1440 * Z.of_nat (i + j) /\
      ddp_length packet = Z.of_nat (length (ddp_data packet)) /\
      Forall is_byte packet.
Proof.
  induction m as [| m IH]; intros i HK; simpl.
  - exists []. split; [reflexivity |]. split; [reflexivity |].
    intros j packet Hj. rewrite lookup_nil in Hj. discriminate.
  - assert (Hi : 480 * Z.of_nat i < N).
    { apply ddp_count_spec. fold K. lia. }
    assert (Hc : 0 <= start_channel + 1440 * Z.of_nat i < 4294967296) by lia.
    rewrite (ddp_packet_chunk pixels start_channel i Hi Hc).
    rewrite accepts_all.
    destruct (IH (S i) ltac:(lia)) as (sent & -> & Hlen & Hsent).
    eexists. split; [reflexivity |]. split; [simpl; lia |].
    intros [| j] packet Hj; simpl in Hj.
    + injection Hj as <-.
      set (c := start_channel + 1440 * Z.of_nat i) in *.
      set (len := 3 * Z.of_nat (length (ddp_chunk pixels i))).
      assert (Hlenr : 0 <= len <= 1440).
      { subst len. rewrite ddp_chunk_length. lia. }
      replace (i + 0)%nat with i by lia.
      unfold ddp_data, ddp_offset, ddp_length. simpl.
      rewrite be_value_4 by exact Hc. rewrite be_value_2 by lia.
      repeat split.
      * rewrite drop_0, to_bytes_length. subst len. lia.
      * repeat constructor; try apply to_bytes_is_byte; unfold is_byte;
          try lia;
          try (destruct (_ <=? _); lia);
          Z.div_mod_to_equations; lia.
    + replace (i + S j)%nat with (S i + j)%nat by lia. apply Hsent, Hj.
Qed.
End ddp.

Lemma to_bytes_concat (chunks : list (list color)) :
  concat (map wled_client.to_bytes chunks)
  = wled_client.to_bytes (concat chunks).
Proof.
  induction chunks as [| c chunks IH]; simpl; [reflexivity |].
  rewrite to_bytes_app, IH. reflexivity.
Qed.

(** X1: a frame is delivered whole: when the socket takes every datagram and
    the channels of the frame fit the 32-bit offset field,
    [stream_pixels_ddp] returns [True] and the data of the datagrams, put
    end to end in the order sent, are the bytes of the pixel buffer, three
    per pixel, none lost, repeated or out of order. *)
Theorem ddp_frame_reassembles (accepts : list Z -> bool)
    (pixels : list color) (start_channel : Z) :
  (forall packet, accepts packet = true) ->
  0 <= start_channel ->
  start_channel + 3 * Z.of_nat (length pixels) <= 4294967296 ->
  exists sent,
    wled_client.stream_pixels_ddp accepts pixels start_channel = (sent, true) /\
    concat (map ddp_data sent) = wled_client.to_bytes pixels /\
    Forall (Forall is_byte) sent.
Proof.
  intros Hacc Hlo Hhi.
  destruct (send_packets_frame accepts pixels start_channel Hacc
              (conj Hlo Hhi) (ddp_count (length pixels)) 0%nat
              ltac:(reflexivity)) as (sent & Hrun & Hlen & Hsent).
  exists sent. unfold wled_client.stream_pixels_ddp. rewrite py_range_480.
  split; [exact Hrun |]. split.
  - assert (Hdata : map ddp_data sent
                    = map wled_client.to_bytes
                        (map (ddp_chunk pixels)
                             (seq 0 (ddp_count (length pixels))))).
    { apply list_eq. intros j. rewrite !list_lookup_fmap.
      destruct (sent !! j) as [packet |] eqn:Hj; simpl.
      - pose proof (lookup_lt_Some _ _ _ Hj) as Hlt.
        rewrite lookup_seq_lt by lia. simpl.
        f_equal. apply (Hsent j packet Hj).
      - apply lookup_ge_None in Hj.
        rewrite lookup_seq_ge by lia. reflexivity. }
    rewrite Hdata, to_bytes_concat, ddp_chunks_concat.
    + reflexivity.
    + pose proof (ddp_count_spec (length pixels)
                    (ddp_count (length pixels))). lia.
  - apply Forall_forall. intros packet Hin.
    apply list_elem_of_lookup in Hin. destruct Hin as [j Hj].
    apply (Hsent j packet Hj).
Qed.

(** The frame of two pixels, the second with a channel beyond 8 bits. *)
Lemma ddp_frame_reassembles_witness :
  (forall packet : list Z, (fun _ => true) packet = true) /\ 0 <= 0 /\
  0 + 3 * Z.of_nat (length [(1, 2, 3); (4, 5, 300)]) <= 4294967296 /\
  exists sent,
    wled_client.stream_pixels_ddp (fun _ => true) [(1, 2, 3); (4, 5, 300)] 0
    = (sent, true) /\
    concat (map ddp_data sent) = [1; 2; 3; 4; 5; 44].
Proof.
  assert (Hacc : forall packet : list Z, (fun _ => true) packet = true)
    by reflexivity.
  assert (Hlo : 0 <= 0) by lia.
  assert (Hhi : 0 + 3 * Z.of_nat (length [(1, 2, 3); (4, 5, 300)])
                <= 4294967296) by (simpl; lia).
  split; [exact Hacc |]. split; [exact Hlo |]. split; [exact Hhi |].
  destruct (ddp_frame_reassembles (fun _ => true) [(1, 2, 3); (4, 5, 300)] 0
              Hacc Hlo Hhi) as (sent & Hrun & Hdata & _).
  exists sent. split; [exact Hrun |]. rewrite Hdata. reflexivity.
Defined.

(** X2: the headers a receiver decodes: under the same conditions a frame of
    n pixels goes out in ceil(n / 480) datagrams; the j-th carries the
    pixels from 480 j on, at most 480 of them, announces the channel
    [start_channel + 1440 j] in its offset field and the number of its
    data bytes, at most 1440, in its length field. *)
Theorem ddp_headers_decode (accepts : list Z -> bool)
    (pixels : list color) (start_channel : Z) :
  (forall packet, accepts packet = true) ->
  0 <= start_channel ->
  start_channel + 3 * Z.of_nat (length pixels) <= 4294967296 ->
  exists sent,
    wled_client.stream_pixels_ddp accepts pixels start_channel = (sent, true) /\
    length sent = ddp_count (length pixels) /\
    forall (j : nat) (packet : list Z),
      sent !! j = Some packet ->
      ddp_data packet = wled_client.to_bytes (ddp_chunk pixels j) /\
      ddp_offset packet = start_channel + 1440 * Z.of_nat j /\
      ddp_length packet = Z.of_nat (length (ddp_data packet)) /\
      (length (ddp_data packet) <= 1440)%nat /\
      length packet = (12 + length (ddp_data packet))%nat.
Proof.
  intros Hacc Hlo Hhi.
  destruct (send_packets_frame accepts pixels start_channel Hacc
              (conj Hlo Hhi) (ddp_count (length pixels)) 0%nat
              ltac:(reflexivity)) as (sent & Hrun & Hlen & Hsent).
  exists sent. unfold wled_client.stream_pixels_ddp. rewrite py_range_480.
  split; [exact Hrun |]. split; [exact Hlen |].
  intros j packet Hj. destruct (Hsent j packet Hj) as (Hd & Ho & Hl & Hb).
  simpl in Hd, Ho. repeat split; try assumption.
  - rewrite Hd, to_bytes_length, ddp_chunk_length. lia.
  - assert (Hpacket : (12 <= length packet)%nat).
    { destruct (Nat.le_gt_cases 12 (length packet)) as [Hle | Hgt];
        [exact Hle |].
      exfalso. unfold ddp_data in Hd. rewrite drop_ge in Hd by lia.
      apply (f_equal length) in Hd. rewrite to_bytes_length in Hd.
      simpl in Hd.
      assert (Hchunk : length (ddp_chunk pixels j) = 0%nat) by lia.
      rewrite ddp_chunk_length in Hchunk.
      pose proof (lookup_lt_Some _ _ _ Hj) as Hlt. rewrite Hlen in Hlt.
      apply ddp_count_spec in Hlt. lia. }
    unfold ddp_data. rewrite length_drop. lia.
Qed.

(** Three datagrams for a thousand pixels from channel 7. *)
Lemma ddp_headers_decode_witness :
  (forall packet : list Z, (fun _ => true) packet = true) /\ 0 <= 7 /\
  7 + 3 * Z.of_nat (length (replicate 1000 (1, 2, 3))) <= 4294967296 /\
  exists sent,
    wled_client.stream_pixels_ddp (fun _ => true)
      (replicate 1000 (1, 2, 3)) 7 = (sent, true) /\
    length sent = 3%nat /\
    map ddp_offset sent = [7; 1447; 2887] /\
    map ddp_length sent = [1440; 1440; 120].
Proof.
  assert (Hacc : forall packet : list Z, (fun _ => true) packet = true)
    by reflexivity.
  assert (Hlo : 0 <= 7) by lia.
  assert (Hhi : 7 + 3 * Z.of_nat (length (replicate 1000 (1, 2, 3)))
                <= 4294967296) by (rewrite length_replicate; lia).
  split; [exact Hacc |]. split; [exact Hlo |]. split; [exact Hhi |].
  destruct (ddp_headers_decode (fun _ => true) (replicate 1000 (1, 2, 3)) 7
              Hacc Hlo Hhi) as (sent & Hrun & Hlen & _).
  exists sent. split; [exact Hrun |].
  vm_compute in Hrun. injection Hrun as <-.
  repeat split; vm_compute; reflexivity.
Defined.

(** When the frame went out whole and when it did not. *)
Lemma ddp_push_marks_complete_frame_witness :
  (exists sent,
     wled_client.stream_pixels_ddp (fun _ => true)
       (replicate 1000 (1, 2, 3)) 7 = (sent, true) /\
     map ddp_push sent = [Some 0; Some 0; Some 1]) /\
  (exists sent,
     wled_client.stream_pixels_ddp
       (fun packet => negb (ddp_offset packet =? 2887))
       (replicate 1000 (1, 2, 3)) 7 = (sent, false) /\
     map ddp_push sent = [Some 0; Some 0]).
Proof.
  split.
  - destruct (wled_client.stream_pixels_ddp (fun _ => true)
                (replicate 1000 (1, 2, 3)) 7) as [sent ok] eqn:Hrun.
    pose proof (ddp_push_marks_complete_frame _ _ _ _ _ Hrun) as [Hok _].
    vm_compute in Hrun. injection Hrun as <- <-.
    specialize (Hok eq_refl).
    eexists. split; [reflexivity |]. vm_compute. reflexivity.
  - destruct (wled_client.stream_pixels_ddp
                (fun packet => negb (ddp_offset packet =? 2887))
                (replicate 1000 (1, 2, 3)) 7) as [sent ok] eqn:Hrun.
    pose proof (ddp_push_marks_complete_frame _ _ _ _ _ Hrun) as [_ Hfail].
    vm_compute in Hrun. injection Hrun as <- <-.
    specialize (Hfail eq_refl).
    eexists. split; [reflexivity |]. vm_compute. reflexivity.
Defined.

(** X4: a start channel outside the 32-bit field: [struct.pack] raises on the
    first header, nothing is sent and the method returns [False]; an empty
    buffer sends nothing either, and returns [True]. *)
Theorem ddp_start_channel_out_of_range (accepts : list Z -> bool)
    (pixels : list color) (start_channel : Z) :
  (pixels <> [] -> start_channel < 0 \/ 4294967296 <= start_channel ->
   wled_client.stream_pixels_ddp accepts pixels start_channel = ([], false)) /\
  wled_client.stream_pixels_ddp accepts [] start_channel = ([], true).
Proof.
  split; [| reflexivity].
  intros Hne Hout. unfold wled_client.stream_pixels_ddp.
  rewrite py_range_480.
  assert (Hcount : (0 < ddp_count (length pixels))%nat).
  { apply ddp_count_spec. destruct pixels; [congruence | simpl; lia]. }
  destruct (ddp_count (length pixels)) as [| m]; [lia |].
  cbn [seq map wled_client.send_packets].
  replace (wled_client.ddp_packet pixels start_channel (480 * Z.of_nat 0))
    with (@None (list Z)); [reflexivity |].
  assert (Hpack : wled_client.pack_L start_channel = None).
  { unfold wled_client.pack_L.
    destruct (Z.leb_spec 0 start_channel),
      (Z.ltb_spec start_channel 4294967296); simpl; try reflexivity. lia. }
  unfold wled_client.ddp_packet, wled_client.pack_BBHHL.
  replace (start_channel + 480 * Z.of_nat 0 * 3) with start_channel by lia.
  rewrite Hpack.
  destruct (wled_client.pack_B 65); simpl; [| reflexivity].
  destruct (wled_client.pack_B _); simpl; reflexivity.
Qed.

Lemma ddp_start_channel_out_of_range_witness :
  [(1, 2, 3)] <> [] /\ (-1 < 0 \/ 4294967296 <= -1) /\
  wled_client.stream_pixels_ddp (fun _ => true) [(1, 2, 3)] (-1) = ([], false).
Proof.
  assert (Hne : [(1, 2, 3)] <> ([] : list color)) by discriminate.
  assert (Hout : -1 < 0 \/ 4294967296 <= -1) by (left; lia).
  split; [exact Hne |]. split; [exact Hout |].
  exact (proj1 (ddp_start_channel_out_of_range (fun _ => true) [(1, 2, 3)]
                  (-1)) Hne Hout).
Defined.

(** ** The colour wheel, once more (utils/color_utils.py) *)

(** X5: around the wheel the colour changes smoothly: from a position in
    0..254 to the next no channel moves by more than 3, the three segment
    joints at 85 and 170 included, and the two ends 0 and 255 are the same
    red, so that the reduction modulo 256 closes the circle without a
    jump. *)
Theorem wheel_steps_are_small (pos : Z) :
  0 <= pos < 255 ->
  (let '(r, g, b) := wheel pos in
   let '(r', g', b') := wheel (pos + 1) in
   Z.abs (r' - r) <= 3 /\ Z.abs (g' - g) <= 3 /\ Z.abs (b' - b) <= 3) /\
  wheel 255 = wheel 0.
Proof.
  intros Hpos. split; [| reflexivity]. unfold wheel.
  repeat match goal with
         | |- context [?a <? ?b] => destruct (Z.ltb_spec a b)
         end; lia.
Qed.

(** The joint at 170: from (0, 0, 255) to (3, 0, 252). *)
Lemma wheel_steps_are_small_witness :
  0 <= 170 < 255 /\
  (let '(r, g, b) := wheel 170 in
   let '(r', g', b') := wheel (170 + 1) in
   Z.abs (r' - r) <= 3 /\ Z.abs (g' - g) <= 3 /\ Z.abs (b' - b) <= 3).
Proof.
  assert (Hpos : 0 <= 170 < 255) by lia.
  exact (conj Hpos (proj1 (wheel_steps_are_small 170 Hpos))).
Defined.

(** ** Configuration (src/config_manager.py) *)

Lemma split_dot_nonempty (s : string) : config_manager.split_dot s <> [].
Proof.
  destruct s as [| c s]; simpl; [discriminate |].
  destruct (Ascii.eqb c "."); [discriminate |].
  destruct (config_manager.split_dot s); discriminate.
Qed.

Lemma split_dot_no_dot (k : string) :
  no_dot k = true -> config_manager.split_dot k = [k].
Proof.
  induction k as [| c k IH]; simpl; [reflexivity |].
  destruct (Ascii.eqb c "."); simpl; [discriminate |].
  intros Hk. rewrite (IH Hk). reflexivity.
Qed.

Lemma split_dot_app (a b : string) :
  config_manager.split_dot (a +:+ "." +:+ b)
  = config_manager.split_dot a ++ config_manager.split_dot b.
Proof.
  induction a as [| c a IH]; simpl; [reflexivity |].
  destruct (Ascii.eqb c "."); simpl; [rewrite IH; reflexivity |].
  rewrite IH. pose proof (split_dot_nonempty a) as Hne.
  destruct (config_manager.split_dot a); [congruence | reflexivity].
Qed.

(** X6: dot notation: a key without a dot is looked up in the top-level
    mapping; a key [k.rest] looks [k] up there and goes on with [rest] in
    the value found.  Whenever the value at hand is not a mapping, or has
    no such key, the default is returned; [get] never raises. *)
Theorem config_get_descends (self : config_manager.ConfigManager)
    (k rest : string) (dflt : config_manager.yaml) :
  no_dot k = true ->
  config_manager.get self k dflt
  = match config_manager.config self with
    | config_manager.YDict d => default dflt (d !! k)
    | _ => dflt
    end /\
  config_manager.get self (k +:+ "." +:+ rest) dflt
  = match config_manager.config self with
    | config_manager.YDict d =>
        match d !! k with
        | Some v =>
            config_manager.get
              (config_manager.mkConfigManager
                 (config_manager.config_path self) v) rest dflt
        | None => dflt
        end
    | _ => dflt
    end.
Proof.
  intros Hk. unfold config_manager.get.
  rewrite split_dot_app, (split_dot_no_dot k Hk). simpl.
  destruct (config_manager.config self); split; reflexivity.
Qed.

(** [leds.count] in the sample: found under [leds]. *)
Lemma config_get_descends_witness :
  no_dot "leds" = true /\
  config_manager.get sample_config "leds.count" config_manager.YNull
  = config_manager.YInt 50 /\
  config_manager.get sample_config "wled.host" config_manager.YNull
  = config_manager.YNull.
Proof.
  assert (Hk : no_dot "leds" = true) by reflexivity.
  split; [exact Hk |]. split.
  - change "leds.count" with ("leds" +:+ "." +:+ "count").
    rewrite (proj2 (config_get_descends sample_config "leds" "count"
                      config_manager.YNull Hk)).
    reflexivity.
  - reflexivity.
Defined.

(** X7: the three properties and their fall-backs: [led_count] is the value
    stored at [leds.count] and 1610 when the file has no mapping [leds] or
    that has no [count]; likewise [fps] with 30 and [wled_host] with
    ['localhost'].  No check is made on what the stored value is. *)
Theorem config_properties_fall_back (self : config_manager.ConfigManager) :
  let section (name : string) : gmap string config_manager.yaml :=
    match config_manager.config self with
    | config_manager.YDict d =>
        match d !! name with
        | Some (config_manager.YDict s) => s
        | _ => ∅
        end
    | _ => ∅
    end in
  config_manager.led_count self
  = default (config_manager.YInt 1610) (section "leds" !! "count") /\
  config_manager.fps self
  = default (config_manager.YInt 30) (section "leds" !! "fps") /\
  config_manager.wled_host self
  = default (config_manager.YStr "localhost") (section "wled" !! "host").
Proof.
  unfold config_manager.led_count, config_manager.fps,
    config_manager.wled_host.
  unfold config_manager.get.
  change (config_manager.split_dot "leds.count") with ["leds"; "count"].
  change (config_manager.split_dot "leds.fps") with ["leds"; "fps"].
  change (config_manager.split_dot "wled.host") with ["wled"; "host"].
  destruct (config_manager.config self) as [| | | | | | d]; simpl;
    try (repeat split; reflexivity).
  repeat split.
  - destruct (d !! "leds") as [[| | | | | | s] |]; try reflexivity.
  - destruct (d !! "leds") as [[| | | | | | s] |]; try reflexivity.
  - destruct (d !! "wled") as [[| | | | | | s] |]; try reflexivity.
Qed.

(** X8: a file that does not hold a mapping, an empty file ([None]) among
    them: [get] answers every key with the default, and so do the three
    properties, while the section accessors raise [AttributeError]. *)
Theorem config_without_mapping (self : config_manager.ConfigManager) :
  (forall d, config_manager.config self <> config_manager.YDict d) ->
  (forall key dflt, config_manager.get self key dflt = dflt) /\
  config_manager.led_count self = config_manager.YInt 1610 /\
  config_manager.get_wled_config self = inl config_manager.AttributeError /\
  config_manager.get_led_config self = inl config_manager.AttributeError /\
  config_manager.get_effect_config self = inl config_manager.AttributeError.
Proof.
  intros Hnot.
  assert (Hget : forall key dflt, config_manager.get self key dflt = dflt).
  { intros key dflt. unfold config_manager.get.
    pose proof (split_dot_nonempty key) as Hne.
    destruct (config_manager.split_dot key) as [| k keys]; [congruence |].
    simpl. destruct (config_manager.config self) as [| | | | | | d];
      try reflexivity.
    exfalso. apply (Hnot d). reflexivity. }
  split; [exact Hget |]. split; [apply Hget |].
  unfold config_manager.get_wled_config, config_manager.get_led_config,
    config_manager.get_effect_config, config_manager.get_section.
  destruct (config_manager.config self) as [| | | | | | d];
    try (repeat split; reflexivity).
  exfalso. apply (Hnot d). reflexivity.
Qed.

Lemma config_without_mapping_witness :
  let self := config_manager.mkConfigManager "empty.yaml" config_manager.YNull in
  (forall d, config_manager.config self <> config_manager.YDict d) /\
  config_manager.get self "leds.count" (config_manager.YInt 7)
  = config_manager.YInt 7 /\
  config_manager.get_wled_config self = inl config_manager.AttributeError.
Proof.
  intros self.
  assert (Hnot : forall d,
             config_manager.config self <> config_manager.YDict d)
    by (intros d; discriminate).
  destruct (config_without_mapping self Hnot) as (Hget & _ & Hwled & _).
  split; [exact Hnot |]. split; [apply Hget | exact Hwled].
Defined.

(** X9: the module keeps one instance: once a call of [get_config] has
    returned a manager, every later call returns that manager, whatever
    path it is given and whatever the files hold by then; a call that
    raises leaves the module without an instance, so that the next call
    loads again. *)
Theorem get_config_keeps_first_instance
    (files files' : string -> config_manager.file_outcome)
    (default_path : string) (path path' : option string) :
  match config_manager.get_config files default_path None path with
  | (inr instance, state) =>
      config_manager.get_config files' default_path state path'
      = (inr instance, state) /\
      config_manager.config_path instance = default default_path path /\
      files (config_manager.config_path instance)
      = config_manager.Loaded (config_manager.config instance)
  | (inl e, state) =>
      state = None /\
      forall content,
        files (default default_path path) <> config_manager.Loaded content
  end.
Proof.
  unfold config_manager.get_config, config_manager.ConfigManager_init,
    config_manager._load_config.
  destruct (files (default default_path path)) eqn:Hfile; simpl.
  - split; [reflexivity | intros; discriminate].
  - split; [reflexivity | intros; discriminate].
  - repeat split. exact Hfile.
Qed.

(** ** The tree model: files that cannot be used (src/tree_model.py) *)

Section tree_model_files.
Context {F : Type} `{PyFloat F}.

Lemma read_rows_short (rows : list (list (csv_field F))) :
  Forall (fun row => (length row < 3)%nat) rows -> read_rows rows = Ok [].
Proof.
  induction 1 as [| row rows Hrow _ IH]; simpl; [reflexivity |].
  destruct row as [| c0 [| c1 [| c2 row]]]; simpl in Hrow; try lia; exact IH.
Qed.

Lemma read_rows_bad (rows : list (list (csv_field F))) :
  Exists (fun row => bad_row row = true) rows ->
  exists e, read_rows rows = Raise e.
Proof.
  induction 1 as [row rows Hrow | row rows _ IH]; simpl.
  - destruct row as [| c0 [| c1 [| c2 row]]]; simpl in Hrow; try discriminate.
    destruct c0, c1, c2; simpl in Hrow; try discriminate; eexists; reflexivity.
  - destruct IH as [e He]. rewrite He.
    destruct row as [| c0 [| c1 [| c2 row]]]; try (eexists; reflexivity).
    destruct c0, c1, c2; eexists; reflexivity.
Qed.

Lemma read_rows_width (rows : list (list (csv_field F))) :
  forall pts, read_rows rows = Ok pts -> rectangular 3 pts.
Proof.
  induction rows as [| row rows IH]; simpl; intros pts.
  - intros [= <-]. constructor.
  - destruct row as [| c0 [| c1 [| c2 row]]]; try apply IH.
    destruct c0, c1, c2; try discriminate.
    destruct (read_rows rows) as [rest |]; [simpl | discriminate].
    intros [= <-]. constructor; [reflexivity | apply IH; reflexivity].
Qed.

(** X10: a file that holds no coordinates, only a header and rows of fewer
    than three fields: the constructor does not fall back to the expected
    count.  It has set [led_count] to 0 by the time the bounds fail, so
    the fallback is the one for no LED at all, and that raises out of the
    constructor. *)
Theorem tree_model_without_points_raises
    (first : list (csv_field F)) (rest : list (list (csv_field F))) (n : Z) :
  parse_first_row first = None ->
  Forall (fun row => (length row < 3)%nat) rest ->
  TreeModel_init (Some (Some (first :: rest))) n = TreeModel_init None 0 /\
  exists msg, TreeModel_init (F:=F) None 0 = Raise (ValueError msg).
Proof.
  intros Hfirst Hrest. split; [| eexists; reflexivity].
  unfold TreeModel_init, load_from_csv, read_csv.
  rewrite Hfirst, (read_rows_short rest Hrest). simpl.
  destruct n; reflexivity.
Qed.

(** X11: a file that cannot be opened, a file without any row, and a file with
    a row of three fields or more one of whose first three is not a number:
    nothing of the file is kept, the model is the linear fallback for the
    expected count. *)
Theorem unreadable_csv_falls_back (file : csv_file F) (n : Z) :
  file = None \/ file = Some [] \/
  (exists first rest,
     file = Some (first :: rest) /\
     Exists (fun row => bad_row row = true) rest) ->
  TreeModel_init (Some file) n = TreeModel_init None n.
Proof.
  intros [-> | [-> | (first & rest & -> & Hbad)]]; try reflexivity.
  unfold TreeModel_init, load_from_csv, read_csv.
  destruct (read_rows_bad rest Hbad) as [e ->]. reflexivity.
Qed.

(** X12: a file without a header is read with the width of its first row.
    When that is not three and rows follow, the rows do not fit and the
    whole file is dropped for the fallback of the expected count; when
    the first row has fewer than three fields and nothing follows, the
    fallback is the one for one LED. *)
Theorem headerless_csv_needs_three_columns
    (first : list (csv_field F)) (rest : list (list (csv_field F)))
    (coords : list F) (pts : list (list F)) (n : Z) :
  parse_first_row first = Some coords -> length coords <> 3%nat ->
  read_rows rest = Ok pts ->
  (pts <> [] ->
   TreeModel_init (Some (Some (first :: rest))) n = TreeModel_init None n) /\
  (pts = [] -> (length coords < 3)%nat ->
   TreeModel_init (Some (Some (first :: rest))) n = TreeModel_init None 1).
Proof.
  intros Hfirst Hwidth Hrest.
  pose proof (read_rows_width rest pts Hrest) as Hrect.
  unfold TreeModel_init, load_from_csv, read_csv.
  rewrite Hfirst, Hrest. simpl. split.
  - intros Hpts. destruct pts as [| pt pts]; [congruence |].
    inversion Hrect as [| ? ? Hpt _]; subst. simpl.
    destruct (Nat.eqb_spec (length pt) (length coords)) as [Heq |];
      [congruence | reflexivity].
  - intros -> Hshort. simpl.
    assert (Hraise : forall k, exists e,
               _calculate_bounds k [coords] = Raise e).
    { intros k. unfold _calculate_bounds. simpl.
      destruct coords as [| x [| y [| z coords]]]; simpl in Hshort; try lia;
        eexists; reflexivity. }
    match goal with
    | |- context [_calculate_bounds ?k [coords]] =>
        destruct (Hraise k) as [e ->]
    end.
    destruct n as [| p |]; try reflexivity. destruct p; reflexivity.
Qed.
End tree_model_files.

(** A header, a row of two fields and a blank line. *)
Lemma tree_model_without_points_raises_witness :
  parse_first_row (F:=Q) [Text; Text; Text] = None /\
  Forall (fun row : list (csv_field Q) => (length row < 3)%nat)
    [ [Number 1%Q; Number 2%Q]; [] ] /\
  exists msg,
    TreeModel_init (Some (Some header_only_csv)) 50 = Raise (ValueError msg).
Proof.
  assert (Hfirst : parse_first_row (F:=Q) [Text; Text; Text] = None)
    by reflexivity.
  assert (Hrest : Forall (fun row : list (csv_field Q) => (length row < 3)%nat)
                    [ [Number 1%Q; Number 2%Q]; [] ])
    by (repeat constructor).
  destruct (tree_model_without_points_raises _ _ 50 Hfirst Hrest)
    as (Heq & msg & Hmsg).
  split; [exact Hfirst |]. split; [exact Hrest |].
  exists msg. unfold header_only_csv. rewrite Heq. exact Hmsg.
Defined.

(** The word in the second data row costs the first one as well. *)
Lemma unreadable_csv_falls_back_witness :
  Exists (fun row : list (csv_field Q) => bad_row row = true)
    [ [Number 0%Q; Number 0%Q; Number 0%Q]; [Number 1%Q; Text; Number 0%Q] ] /\
  TreeModel_init (Some (Some misprinted_csv)) 5 = TreeModel_init None 5.
Proof.
  assert (Hbad : Exists (fun row : list (csv_field Q) => bad_row row = true)
                   [ [Number 0%Q; Number 0%Q; Number 0%Q];
                     [Number 1%Q; Text; Number 0%Q] ])
    by (right; left; reflexivity).
  split; [exact Hbad |].
  apply (unreadable_csv_falls_back (Some misprinted_csv) 5).
  right; right. eexists. eexists. split; [reflexivity | exact Hbad].
Defined.

(** Three rows of index, x, y, z without a header: the model is the
    vertical line of the fallback. *)
Lemma headerless_csv_needs_three_columns_witness :
  parse_first_row (F:=Q) [Number 0%Q; Number 0%Q; Number 0%Q; Number 0%Q]
  = Some [0%Q; 0%Q; 0%Q; 0%Q] /\
  length [0%Q; 0%Q; 0%Q; 0%Q] <> 3%nat /\
  read_rows [ [Number 1%Q; Number 1%Q; Number 0%Q; Number 0%Q];
              [Number 2%Q; Number 0%Q; Number 0%Q; Number 1%Q] ]
  = Ok [ [1%Q; 1%Q; 0%Q]; [2%Q; 0%Q; 0%Q] ] /\
  TreeModel_init (Some (Some indexed_csv)) 3 = TreeModel_init None 3.
Proof.
  assert (Hfirst : parse_first_row (F:=Q)
                     [Number 0%Q; Number 0%Q; Number 0%Q; Number 0%Q]
                   = Some [0%Q; 0%Q; 0%Q; 0%Q]) by reflexivity.
  assert (Hwidth : length [0%Q; 0%Q; 0%Q; 0%Q] <> 3%nat) by (simpl; lia).
  assert (Hrest : read_rows
                    [ [Number 1%Q; Number 1%Q; Number 0%Q; Number 0%Q];
                      [Number 2%Q; Number 0%Q; Number 0%Q; Number 1%Q] ]
                  = Ok [ [1%Q; 1%Q; 0%Q]; [2%Q; 0%Q; 0%Q] ]) by reflexivity.
  split; [exact Hfirst |]. split; [exact Hwidth |]. split; [exact Hrest |].
  apply (proj1 (headerless_csv_needs_three_columns _ _ _ _ 3
                  Hfirst Hwidth Hrest)).
  discriminate.
Defined.

(** ** The tree model: bounds on the three axes *)

Section tree_model_axes.
Context {F : Type} `{PyFloat F}.

Lemma calculate_bounds_axes (w : nat) (n : Z) (a : list (list F))
    (m : TreeModel F) :
  rectangular w a -> _calculate_bounds n a = Ok m ->
  forall j, (j < 3)%nat -> tree_queries.bounds_axis m j = axis_range a j.
Proof.
  intros Hrect. unfold _calculate_bounds.
  destruct a as [| row rows]; [discriminate |].
  inversion Hrect as [| ? ? Hrow Hrows]; subst. simpl.
  assert (Hget : forall (f : F -> F -> F) (k : nat) (x : F),
             py_index (foldl (zip_with f) row rows) (Z.of_nat k) = Ok x ->
             x = foldl f (nth k row (of_int 0)) (column k rows)).
  { intros f k x Hx. apply py_index_Ok in Hx; [| lia].
    rewrite Nat2Z.id in Hx.
    pose proof (lookup_lt_Some _ _ _ Hx) as Hlt.
    rewrite (foldl_zip_with_length f (length row)) in Hlt
      by (reflexivity || assumption).
    apply (nth_lookup_Some _ _ (of_int 0)) in Hx.
    rewrite (foldl_zip_with_nth f (length row)) in Hx
      by (lia || reflexivity || assumption).
    symmetry. exact Hx. }
  set (lo := foldl (zip_with fmin) row rows) in *.
  set (hi := foldl (zip_with fmax) row rows) in *.
  destruct (py_index lo 0) as [x0 |] eqn:Hx0; [simpl | discriminate].
  destruct (py_index hi 0) as [x1 |] eqn:Hx1; [simpl | discriminate].
  destruct (py_index lo 1) as [y0 |] eqn:Hy0; [simpl | discriminate].
  destruct (py_index hi 1) as [y1 |] eqn:Hy1; [simpl | discriminate].
  destruct (py_index lo 2) as [z0 |] eqn:Hz0; [simpl | discriminate].
  destruct (py_index hi 2) as [z1 |] eqn:Hz1; [simpl | discriminate].
  intros [= <-] j Hj.
  apply (Hget fmin 0%nat) in Hx0. apply (Hget fmax 0%nat) in Hx1.
  apply (Hget fmin 1%nat) in Hy0. apply (Hget fmax 1%nat) in Hy1.
  apply (Hget fmin 2%nat) in Hz0. apply (Hget fmax 2%nat) in Hz1.
  unfold tree_queries.bounds_axis, axis_range; simpl.
  destruct j as [| [| [| j]]]; [| | | lia]; congruence.
Qed.

Lemma calculate_bounds_model_axes (w : nat) (n : Z) (a : list (list F))
    (m : TreeModel F) :
  rectangular w a -> n = Z.of_nat (length a) -> _calculate_bounds n a = Ok m ->
  model_axes m.
Proof.
  intros Hrect Hn Hm.
  destruct (calculate_bounds_Ok w _ _ _ Hrect Hm)
    as (Hcount & Ha & Hw & row & rows & Hrows & _).
  pose proof (calculate_bounds_axes w _ _ _ Hrect Hm) as Haxes.
  rewrite <- Ha in *. repeat split.
  - congruence.
  - rewrite Hrows. discriminate.
  - exists w. split; assumption.
  - exact Haxes.
Qed.

Lemma create_linear_fallback_axes (n : Z) (m : TreeModel F) :
  _create_linear_fallback n = Ok m -> model_axes m.
Proof.
  unfold _create_linear_fallback.
  destruct (Z.ltb_spec n 0); [discriminate |].
  apply (calculate_bounds_model_axes 3); [apply fallback_rectangular |].
  rewrite length_map, np_linspace01_length. lia.
Qed.

Lemma TreeModel_init_axes csv_path (n : Z) (m : TreeModel F) :
  TreeModel_init csv_path n = Ok m -> model_axes m.
Proof.
  unfold TreeModel_init, load_from_csv.
  destruct csv_path as [[rows |] |]; try apply create_linear_fallback_axes.
  destruct (read_csv rows ≫= np_array) as [a | e] eqn:Hread;
    [| apply create_linear_fallback_axes].
  assert (Hrect : exists w, rectangular w a).
  { destruct (read_csv rows) as [pts |]; [| discriminate]. simpl in Hread.
    apply np_array_Ok in Hread. destruct Hread as [-> Hrect]. exact Hrect. }
  destruct Hrect as [w Hrect].
  set (k := if Z.of_nat (length a) =? n then n else Z.of_nat (length a)).
  assert (Hk : k = Z.of_nat (length a)).
  { subst k. destruct (Z.eqb_spec (Z.of_nat (length a)) n); congruence. }
  destruct (_calculate_bounds k a) as [m' |] eqn:Hm';
    [| apply create_linear_fallback_axes].
  intros [= <-]. exact (calculate_bounds_model_axes w k a m' Hrect Hk Hm').
Qed.

(** *** Columns *)


Lemma rescale_column_Ok (w : nat) (a : list (list F)) (j : nat) (lo hi : F) :
  rectangular w a -> (j < w)%nat ->
  tree_queries.rescale_column a j lo hi
  = Ok (map (fun row =>
               <[j := ((nth j row (of_int 0) - lo) / (hi - lo))%py]> row) a).
Proof.
  intros Hrect Hj. unfold tree_queries.rescale_column.
  induction Hrect as [| row rows Hrow _ IH]; simpl; [reflexivity |].
  destruct (lookup_lt_is_Some_2 row j) as [x Hx]; [lia |].
  rewrite Hx. simpl. rewrite IH. simpl.
  rewrite (nth_lookup_Some _ _ _ _ Hx). reflexivity.
Qed.

Lemma normalize_axis_Ok (m : TreeModel F) (w : nat) (a : list (list F))
    (j : nat) :
  rectangular w a -> (j < w)%nat ->
  tree_queries.normalize_axis m j a = Ok (map (step_row m j) a).
Proof.
  intros Hrect Hj. unfold tree_queries.normalize_axis, step_row.
  destruct (tree_queries.bounds_axis m j) as [lo hi].
  destruct (lo <? hi)%py.
  - apply (rescale_column_Ok w); assumption.
  - rewrite map_id. reflexivity.
Qed.

Lemma step_row_length (m : TreeModel F) (j : nat) (row : list F) :
  length (step_row m j row) = length row.
Proof.
  unfold step_row. destruct (tree_queries.bounds_axis m j) as [lo hi].
  destruct (lo <? hi)%py; [apply length_insert | reflexivity].
Qed.

Lemma step_row_rectangular (m : TreeModel F) (w j : nat) (a : list (list F)) :
  rectangular w a -> rectangular w (map (step_row m j) a).
Proof.
  unfold rectangular. intros Hrect. apply Forall_map.
  eapply Forall_impl; [exact Hrect |]. intros row Hrow. simpl.
  rewrite step_row_length. exact Hrow.
Qed.

Lemma step_row_lookup (m : TreeModel F) (j k : nat) (row : list F) (x : F) :
  row !! k = Some x ->
  step_row m j row !! k = Some (if Nat.eqb k j then rescaled m j x else x).
Proof.
  intros Hx. unfold step_row, rescaled.
  destruct (tree_queries.bounds_axis m j) as [lo hi].
  destruct (Nat.eqb_spec k j) as [-> | Hne].
  - destruct (lo <? hi)%py; [| exact Hx].
    rewrite (nth_lookup_Some _ _ _ _ Hx).
    apply list_lookup_insert_eq. apply (lookup_lt_Some _ _ _ Hx).
  - destruct (lo <? hi)%py; [| exact Hx].
    rewrite list_lookup_insert_ne by congruence. exact Hx.
Qed.

Lemma normalize_coordinates_rows (m : TreeModel F) (w : nat) :
  rectangular w (coordinates m) -> (3 <= w)%nat ->
  tree_queries.normalize_coordinates m
  = Ok (map (fun row => step_row m 2 (step_row m 1 (step_row m 0 row)))
          (coordinates m)).
Proof.
  intros Hrect Hw. unfold tree_queries.normalize_coordinates.
  set (a0 := coordinates m) in *.
  set (a1 := map (step_row m 0) a0).
  set (a2 := map (step_row m 1) a1).
  assert (Hrect1 : rectangular w a1) by (apply step_row_rectangular, Hrect).
  assert (Hrect2 : rectangular w a2) by (apply step_row_rectangular, Hrect1).
  rewrite (normalize_axis_Ok m w a0 0 Hrect) by lia.
  unfold mbind, result_bind. fold a1.
  rewrite (normalize_axis_Ok m w a1 1 Hrect1) by lia. fold a2.
  rewrite (normalize_axis_Ok m w a2 2 Hrect2) by lia.
  subst a2 a1. rewrite !map_map. reflexivity.
Qed.

Lemma normalized_row_lookup (m : TreeModel F) (j : nat) (row : list F) (x : F) :
  row !! j = Some x ->
  step_row m 2 (step_row m 1 (step_row m 0 row)) !! j
  = Some (if (j <? 3)%nat then rescaled m j x else x).
Proof.
  intros Hx.
  rewrite (step_row_lookup m 2 j _ _
             (step_row_lookup m 1 j _ _ (step_row_lookup m 0 j _ _ Hx))).
  destruct j as [| [| [| j]]]; reflexivity.
Qed.

Lemma normalized_column (m : TreeModel F) (w j : nat) (a : list (list F)) :
  rectangular w a -> (j < 3 <= w)%nat ->
  column j (map (fun row => step_row m 2 (step_row m 1 (step_row m 0 row))) a)
  = map (rescaled m j) (column j a).
Proof.
  intros Hrect Hj. unfold column. rewrite !map_map.
  apply map_ext_in. intros row Hrow.
  assert (Hlen : length row = w).
  { unfold rectangular in Hrect. rewrite Forall_forall in Hrect.
    apply Hrect, list_elem_of_In, Hrow. }
  destruct (lookup_lt_is_Some_2 row j) as [x Hx]; [lia |].
  rewrite (nth_lookup_Some _ _ _ _ Hx).
  apply nth_lookup_Some. rewrite (normalized_row_lookup m j row x Hx).
  destruct (Nat.ltb_spec j 3); [reflexivity | lia].
Qed.

(** X13: [normalize_coordinates] on a model a constructor returned: it raises
    nothing and keeps the shape of the array; the value [x] of a column
    whose bounds are apart becomes [(x - min) / (max - min)], a column
    whose bounds coincide and the columns past the third are left as they
    are.  So the third column holds the normalized heights when the z
    bounds are apart, and the raw z coordinates, not zeros, when they
    coincide. *)
Theorem normalize_coordinates_entries csv_path (n : Z) (m : TreeModel F) :
  TreeModel_init csv_path n = Ok m ->
  exists a,
    tree_queries.normalize_coordinates m = Ok a /\
    length a = length (coordinates m) /\
    (forall i j row x,
       coordinates m !! i = Some row -> row !! j = Some x ->
       exists row',
         a !! i = Some row' /\ length row' = length row /\
         row' !! j = Some (if (j <? 3)%nat then rescaled m j x else x)) /\
    (let '(z_min, z_max) := tree_queries.bounds_axis m 2 in
     if (z_min <? z_max)%py
     then column 2 a = get_height_normalized m
     else column 2 a = column 2 (coordinates m)).
Proof.
  intros Hm. apply TreeModel_init_axes in Hm.
  destruct Hm as (Hcount & Hne & (w & Hw & Hrect) & Haxes).
  eexists. split; [exact (normalize_coordinates_rows m w Hrect Hw) |].
  split; [| split].
  - apply length_map.
  - intros i j row x Hrow Hx.
    exists (step_row m 2 (step_row m 1 (step_row m 0 row))).
    split; [| split].
    + rewrite list_lookup_fmap, Hrow. reflexivity.
    + rewrite !step_row_length. reflexivity.
    + apply normalized_row_lookup, Hx.
  - rewrite (normalized_column m w 2) by (assumption || lia).
    unfold get_height_normalized, rescaled.
    assert (Hz : tree_queries.bounds_axis m 2 = (bounds m).2).
    { unfold tree_queries.bounds_axis. destruct (bounds m) as [[bx by_] bz].
      reflexivity. }
    rewrite Hz. destruct (bounds m).2 as [z_min z_max].
    destruct (z_min <? z_max)%py; [reflexivity |].
    rewrite map_id. reflexivity.
Qed.
End tree_model_axes.

(** The tetrahedron: its coordinates are normalized already. *)
Lemma normalize_coordinates_entries_witness :
  exists m : TreeModel Q,
    TreeModel_init (Some (Some tetrahedron_csv)) 4 = Ok m /\
    exists a, tree_queries.normalize_coordinates m = Ok a /\
              length a = length (coordinates m) /\
              column 2 a = [0; 0; 0; 1]%Q.
Proof.
  eexists. split; [vm_compute; reflexivity |].
  match goal with
  | |- exists a, tree_queries.normalize_coordinates ?m = _ /\ _ =>
      assert (Hm : TreeModel_init (Some (Some tetrahedron_csv)) 4 = Ok m)
        by (vm_compute; reflexivity);
      destruct (normalize_coordinates_entries _ _ _ Hm) as (a & Ha & Hlen & _)
  end.
  exists a. split; [exact Ha |]. split; [exact Hlen |].
  vm_compute in Ha. injection Ha as <-. reflexivity.
Defined.

(** ** The tree model in exact arithmetic: ranges and queries *)

Lemma fle_Q (a b : Q) : fle a b = true <-> (a <= b)%Q.
Proof.
  unfold fle; simpl.
  rewrite orb_true_iff, Q_ltb_lt, Qeq_bool_iff. split.
  - intros [Hlt | Heq]; [apply Qlt_le_weak, Hlt | rewrite Heq; apply Qle_refl].
  - intros Hle. destruct (Qlt_le_dec a b) as [Hlt | Hge]; [left; exact Hlt |].
    right. apply Qle_antisym; assumption.
Qed.

Lemma axis_range_Q (a : list (list Q)) (j : nat) :
  a <> [] ->
  let '(lo, hi) := axis_range a j in
  Forall (fun row => (lo <= nth j row 0)%Q /\ (nth j row 0 <= hi)%Q) a /\
  Exists (fun row => nth j row 0%Q = lo) a /\
  Exists (fun row => nth j row 0%Q = hi) a.
Proof.
  destruct a as [| row rows]; [congruence |]. intros _.
  unfold axis_range. change (of_int 0) with 0%Q.
  set (z0 := nth j row 0%Q). set (zs := column j rows).
  destruct (foldl_fmin_Q zs z0) as (Hlo0 & Hlos & Hloin).
  destruct (foldl_fmax_Q zs z0) as (Hhi0 & Hhis & Hhiin).
  set (lo := foldl fmin z0 zs) in *. set (hi := foldl fmax z0 zs) in *.
  assert (Hmem : forall v, In v zs -> exists r, In r rows /\ nth j r 0%Q = v).
  { intros v Hv. unfold zs, column in Hv. apply in_map_iff in Hv.
    destruct Hv as (r & Hr & Hin). exists r. split; assumption. }
  split; [| split].
  - constructor; [split; assumption |].
    apply Forall_forall. intros r Hr.
    rewrite Forall_forall in Hlos, Hhis.
    assert (Hin : nth j r 0%Q ∈ zs).
    { apply list_elem_of_In. unfold zs, column.
      apply (in_map (fun row => nth j row 0%Q)), list_elem_of_In, Hr. }
    split; [apply Hlos | apply Hhis]; exact Hin.
  - destruct Hloin as [Heq | Hin].
    + apply Exists_cons_hd. symmetry. exact Heq.
    + apply Exists_cons_tl, Exists_exists.
      destruct (Hmem _ Hin) as (r & Hr & Hv).
      exists r. split; [apply list_elem_of_In, Hr | exact Hv].
  - destruct Hhiin as [Heq | Hin].
    + apply Exists_cons_hd. symmetry. exact Heq.
    + apply Exists_cons_tl, Exists_exists.
      destruct (Hmem _ Hin) as (r & Hr & Hv).
      exists r. split; [apply list_elem_of_In, Hr | exact Hv].
Qed.

(** X14: on every axis whose bounds are apart, [normalize_coordinates] brings
    the coordinates of a constructed model into [0, 1]: there is one value
    per LED, every value lies in the interval, some LED is at 0 and some
    LED is at 1. *)
Theorem normalize_coordinates_unit_range csv_path (n : Z) (m : TreeModel Q)
    (j : nat) :
  TreeModel_init csv_path n = Ok m -> (j < 3)%nat ->
  ((tree_queries.bounds_axis m j).1 < (tree_queries.bounds_axis m j).2)%Q ->
  exists a,
    tree_queries.normalize_coordinates m = Ok a /\
    length (column j a) = Z.to_nat (led_count m) /\
    Forall (fun v => (0 <= v)%Q /\ (v <= 1)%Q) (column j a) /\
    Exists (fun v => (v == 0)%Q) (column j a) /\
    Exists (fun v => (v == 1)%Q) (column j a).
Proof.
  intros Hm Hj Hapart. apply TreeModel_init_axes in Hm.
  destruct Hm as (Hcount & Hne & (w & Hw & Hrect) & Haxes).
  eexists. split; [exact (normalize_coordinates_rows m w Hrect Hw) |].
  rewrite (normalized_column m w j) by (assumption || lia).
  pose proof (axis_range_Q (coordinates m) j Hne) as Hrange.
  rewrite <- (Haxes j Hj) in Hrange.
  unfold rescaled.
  destruct (tree_queries.bounds_axis m j) as [lo hi]. simpl in Hapart.
  destruct Hrange as (Hall & Hlo & Hhi).
  assert (Hlt : Q_ltb lo hi = true) by (apply Q_ltb_lt, Hapart).
  simpl. rewrite Hlt.
  split; [| split; [| split]].
  - unfold column. rewrite !length_map. lia.
  - apply Forall_forall. intros v Hv.
    apply list_elem_of_In, in_map_iff in Hv. destruct Hv as (z & <- & Hz).
    unfold column in Hz. apply in_map_iff in Hz.
    destruct Hz as (row & <- & Hrow).
    rewrite Forall_forall in Hall.
    destruct (Hall row) as [Hge Hle]; [apply list_elem_of_In, Hrow |].
    apply normalized_range; assumption.
  - apply Exists_exists in Hlo. destruct Hlo as (row & Hrow & Hv).
    apply Exists_exists. exists ((lo - lo) / (hi - lo))%Q. split.
    + apply list_elem_of_In, in_map_iff. exists lo. split; [reflexivity |].
      unfold column. apply in_map_iff. exists row.
      split; [exact Hv | apply list_elem_of_In, Hrow].
    + unfold Qdiv. ring.
  - apply Exists_exists in Hhi. destruct Hhi as (row & Hrow & Hv).
    apply Exists_exists. exists ((hi - lo) / (hi - lo))%Q. split.
    + apply list_elem_of_In, in_map_iff. exists hi. split; [reflexivity |].
      unfold column. apply in_map_iff. exists row.
      split; [exact Hv | apply list_elem_of_In, Hrow].
    + field. lra.
Qed.

(** The x axis of the tetrahedron. *)
Lemma normalize_coordinates_unit_range_witness :
  exists m : TreeModel Q,
    TreeModel_init (Some (Some tetrahedron_csv)) 4 = Ok m /\
    (0 < 3)%nat /\
    ((tree_queries.bounds_axis m 0).1 < (tree_queries.bounds_axis m 0).2)%Q /\
    exists a, tree_queries.normalize_coordinates m = Ok a /\
              Forall (fun v => (0 <= v)%Q /\ (v <= 1)%Q) (column 0 a).
Proof.
  eexists. split; [vm_compute; reflexivity |].
  match goal with
  | |- _ /\ (Qlt (tree_queries.bounds_axis ?m 0).1 _) /\ _ =>
      assert (Hm : TreeModel_init (Some (Some tetrahedron_csv)) 4 = Ok m)
        by (vm_compute; reflexivity);
      assert (Hj : (0 < 3)%nat) by lia;
      assert (Hapart : ((tree_queries.bounds_axis m 0).1
                        < (tree_queries.bounds_axis m 0).2)%Q)
        by reflexivity;
      destruct (normalize_coordinates_unit_range _ _ _ _ Hm Hj Hapart)
        as (a & Ha & _ & Hall & _)
  end.
  split; [exact Hj |]. split; [exact Hapart |].
  exists a. split; assumption.
Defined.

(** *** [np.where] *)







(** ** The linear fallback, in exact arithmetic *)

Lemma bounds_axis_2 {F} `{PyFloat F} (m : TreeModel F) :
  tree_queries.bounds_axis m 2 = (bounds m).2.
Proof.
  unfold tree_queries.bounds_axis. destruct (bounds m) as [[bx by_] bz].
  reflexivity.
Qed.

Lemma inject_Z_pos (z : Z) : 0 < z -> (0 < inject_Z z)%Q.
Proof. intros Hz. change 0%Q with (inject_Z 0). rewrite <- Zlt_Qlt. exact Hz. Qed.

Lemma fraction_range (i n : Z) :
  0 <= i <= n -> 0 < n ->
  (0 <= inject_Z i / inject_Z n)%Q /\ (inject_Z i / inject_Z n <= 1)%Q.
Proof.
  intros Hi Hn. pose proof (inject_Z_pos n Hn) as Hpos. split.
  - apply Qle_shift_div_l; [exact Hpos |]. rewrite Qmult_0_l.
    change 0%Q with (inject_Z 0). rewrite <- Zle_Qle. lia.
  - apply Qle_shift_div_r; [exact Hpos |]. rewrite Qmult_1_l.
    rewrite <- Zle_Qle. lia.
Qed.

Lemma linspace_lookup (n : Z) (i : nat) :
  1 < n -> (i < Z.to_nat n)%nat ->
  exists v : Q,
    np_linspace01 n !! i = Some v /\
    (v == inject_Z (Z.of_nat i) / inject_Z (n - 1))%Q.
Proof.
  intros Hn Hi. unfold np_linspace01.
  destruct (Z.ltb_spec 0 (n - 1)); [| lia].
  destruct (Z.ltb_spec 1 n); [| lia].
  pose proof (inject_Z_pos (n - 1) ltac:(lia)) as Hpos.
  destruct (Nat.eq_dec i (Z.to_nat (n - 1))) as [-> | Hne].
  - exists 1%Q. split.
    + apply list_lookup_insert_eq. rewrite length_map, length_seq. lia.
    + rewrite Z2Nat.id by lia. field. lra.
  - eexists. split.
    + rewrite list_lookup_insert_ne by congruence.
      rewrite list_lookup_fmap, lookup_seq_lt by exact Hi. reflexivity.
    + simpl. change (inject_Z 1) with 1%Q. change (inject_Z 0) with 0%Q.
      field. lra.
Qed.

(** X16: the model built without a file, for one LED or more: the LEDs stand
    on the vertical axis through the origin, the first one at the bottom;
    with two LEDs or more, LED [i] is at height [i / (n - 1)], so the last
    one is at 1, the z bounds are 0 and 1, and the normalized height of
    every LED is its z coordinate.  A single LED sits at the origin with
    normalized height 0. *)
Theorem linear_fallback_is_even_line (n : Z) :
  0 < n ->
  exists m : TreeModel Q,
    TreeModel_init None n = Ok m /\ led_count m = n /\
    tree_queries.bounds_axis m 0 = (0, 0)%Q /\
    tree_queries.bounds_axis m 1 = (0, 0)%Q /\
    ((tree_queries.bounds_axis m 2).1 == 0)%Q /\
    ((tree_queries.bounds_axis m 2).2 == if n =? 1 then 0 else 1)%Q /\
    forall i, (i < Z.to_nat n)%nat ->
      exists z h,
        coordinates m !! i = Some [0; 0; z]%Q /\
        get_height_normalized m !! i = Some h /\
        (h == z)%Q /\
        (z == if n =? 1 then 0
              else inject_Z (Z.of_nat i) / inject_Z (n - 1))%Q.
Proof.
  intros Hn. destruct (Z.eq_dec n 1) as [-> | Hn1].
  { eexists. split; [reflexivity |]. repeat split.
    intros i Hi. destruct i as [| i]; [| lia].
    eexists. eexists. repeat split. }
  assert (H1 : 1 < n) by lia. clear Hn Hn1.
  destruct (Z.eqb_spec n 1) as [| _]; [lia |].
  destruct (create_linear_fallback_total (F:=Q) n) as [m Hm]; [lia |].
  exists m. split; [exact Hm |].
  destruct (create_linear_fallback_axes n m Hm)
    as (Hcount & Hne & _ & Haxes).
  assert (Hcoords : led_count m = n /\
            coordinates m
            = map (fun z : Q => [0; 0; z]%Q) (np_linspace01 n)).
  { unfold _create_linear_fallback in Hm.
    destruct (Z.ltb_spec n 0); [lia |].
    destruct (calculate_bounds_Ok 3 _ _ _ (fallback_rectangular n) Hm)
      as (Hled & Ha & _). split; [exact Hled | exact Ha]. }
  destruct Hcoords as [Hled Hcoords].
  set (L := np_linspace01 (F:=Q) n) in *.
  assert (HL : length L = Z.to_nat n) by apply np_linspace01_length.
  assert (Hrow : forall i, (i < Z.to_nat n)%nat ->
             exists z, coordinates m !! i = Some [0; 0; z]%Q /\
                       (z == inject_Z (Z.of_nat i) / inject_Z (n - 1))%Q).
  { intros i Hi. destruct (linspace_lookup n i H1 Hi) as (v & Hv & Heq).
    exists v. split; [| exact Heq].
    fold L in Hv. rewrite Hcoords, list_lookup_fmap, Hv. reflexivity. }
  assert (Hrows : forall row, row ∈ coordinates m ->
             exists i z, (i < Z.to_nat n)%nat /\ row = [0; 0; z]%Q /\
                         (z == inject_Z (Z.of_nat i) / inject_Z (n - 1))%Q).
  { intros row Hin. apply list_elem_of_lookup in Hin. destruct Hin as [i Hi].
    assert (Hlt : (i < Z.to_nat n)%nat).
    { apply lookup_lt_Some in Hi. rewrite Hcoords, length_map, HL in Hi.
      exact Hi. }
    destruct (Hrow i Hlt) as (z & Hz & Heq). exists i, z.
    split; [exact Hlt |]. split; [congruence | exact Heq]. }
  assert (Hflat : forall j, (j < 2)%nat ->
             tree_queries.bounds_axis m j = (0, 0)%Q).
  { intros j Hj. rewrite (Haxes j) by lia.
    pose proof (axis_range_Q (coordinates m) j Hne) as Hrange.
    destruct (axis_range (coordinates m) j) as [lo hi].
    destruct Hrange as (_ & Hlo & Hhi).
    apply Exists_exists in Hlo, Hhi.
    destruct Hlo as (r1 & Hr1 & <-). destruct Hhi as (r2 & Hr2 & <-).
    destruct (Hrows r1 Hr1) as (? & ? & _ & -> & _).
    destruct (Hrows r2 Hr2) as (? & ? & _ & -> & _).
    destruct j as [| [| j]]; [reflexivity | reflexivity | lia]. }
  assert (Hz : ((tree_queries.bounds_axis m 2).1 == 0)%Q /\
               ((tree_queries.bounds_axis m 2).2 == 1)%Q).
  { rewrite (Haxes 2%nat) by lia.
    pose proof (axis_range_Q (coordinates m) 2 Hne) as Hrange.
    destruct (axis_range (coordinates m) 2) as [lo hi].
    destruct Hrange as (Hall & Hlo & Hhi). simpl.
    apply Exists_exists in Hlo, Hhi. rewrite Forall_forall in Hall.
    destruct Hlo as (r1 & Hr1 & Hlo). destruct Hhi as (r2 & Hr2 & Hhi).
    destruct (Hrows r1 Hr1) as (i1 & z1 & Hi1 & -> & Hz1).
    destruct (Hrows r2 Hr2) as (i2 & z2 & Hi2 & -> & Hz2).
    simpl in Hlo, Hhi. subst z1 z2.
    destruct (fraction_range (Z.of_nat i1) (n - 1)) as [Hge1 _]; [lia | lia |].
    destruct (fraction_range (Z.of_nat i2) (n - 1)) as [_ Hle2]; [lia | lia |].
    destruct (Hrow 0%nat) as (zb & Hzb & Heqb); [lia |].
    destruct (Hrow (Z.to_nat (n - 1))) as (zt & Hzt & Heqt); [lia |].
    destruct (Hall [0; 0; zb]%Q) as [Hlob _];
      [apply list_elem_of_lookup; eexists; exact Hzb |].
    destruct (Hall [0; 0; zt]%Q) as [_ Hhit];
      [apply list_elem_of_lookup; eexists; exact Hzt |].
    simpl in Hlob, Hhit.
    assert (Hb0 : (zb == 0)%Q).
    { rewrite Heqb. simpl. unfold Qdiv. ring. }
    assert (Ht1 : (zt == 1)%Q).
    { rewrite Heqt, Z2Nat.id by lia.
      pose proof (inject_Z_pos (n - 1) ltac:(lia)). field. lra. }
    split; lra. }
  destruct Hz as [Hzmin Hzmax].
  split; [exact Hled |]. split; [apply Hflat; lia |].
  split; [apply Hflat; lia |]. split; [exact Hzmin |]. split; [exact Hzmax |].
  intros i Hi. destruct (Hrow i Hi) as (z & Hzi & Heq).
  rewrite bounds_axis_2 in Hzmin, Hzmax.
  unfold get_height_normalized.
  destruct (bounds m).2 as [z_min z_max]. simpl in Hzmin, Hzmax.
  assert (Hlt : Q_ltb z_min z_max = true) by (apply Q_ltb_lt; lra).
  simpl. rewrite Hlt.
  exists z, ((z - z_min) / (z_max - z_min))%Q.
  split; [exact Hzi |]. split; [| split; [| exact Heq]].
  - unfold column. rewrite !list_lookup_fmap, Hzi. reflexivity.
  - rewrite Hzmin, Hzmax. field.
Qed.

(** Five LEDs: the third one is half way up. *)
Lemma linear_fallback_is_even_line_witness :
  0 < 5 /\
  exists m : TreeModel Q,
    TreeModel_init None 5 = Ok m /\
    exists z, coordinates m !! 2%nat = Some [0; 0; z]%Q /\ (z == 1 # 2)%Q.
Proof.
  assert (Hn : 0 < 5) by lia. split; [exact Hn |].
  destruct (linear_fallback_is_even_line 5 Hn)
    as (m & Hm & _ & _ & _ & _ & _ & Hleds).
  exists m. split; [exact Hm |].
  destruct (Hleds 2%nat) as (z & h & Hz & _ & _ & Heq); [simpl; lia |].
  exists z. split; [exact Hz |]. rewrite Heq. reflexivity.
Defined.

(** ** Colours, in exact arithmetic (utils/color_utils.py) *)

Lemma Q_trunc_mono (x y : Q) :
  (0 <= x)%Q -> (x <= y)%Q -> 0 <= Q_trunc x <= Q_trunc y.
Proof.
  intros Hx Hxy.
  rewrite (Q_trunc_floor x Hx), (Q_trunc_floor y) by lra. split.
  - change 0 with (Qfloor 0). apply Qfloor_resp_le, Hx.
  - apply Qfloor_resp_le, Hxy.
Qed.

Lemma unit_scale (v k : Q) :
  (0 <= v)%Q -> (0 <= k)%Q -> (k <= 1)%Q -> (0 <= v * k)%Q /\ (v * k <= v)%Q.
Proof.
  intros Hv Hk0 Hk1. split.
  - apply Qmult_le_0_compat; assumption.
  - rewrite <- (Qmult_1_r v) at 2.
    apply Qmult_le_compat_nonneg; split; lra.
Qed.

(** The channel [int(x * 255)] of a component [x] between 0 and the
    value [v]. *)
Lemma hsv_channel (x v : Q) :
  (0 <= x)%Q -> (x <= v)%Q -> (v <= 1)%Q ->
  0 <= Q_trunc (x * 255) <= Q_trunc (v * 255) /\ Q_trunc (v * 255) <= 255.
Proof.
  intros Hx Hxv Hv. split.
  - apply Q_trunc_mono; lra.
  - apply (Q_trunc_bounds (v * 255) 255); [lra |].
    change (inject_Z 255) with 255%Q. lra.
Qed.

Lemma hsv_to_rgb_range (h s v : Q) :
  (0 <= h)%Q -> (0 <= s)%Q -> (s <= 1)%Q -> (0 <= v)%Q -> (v <= 1)%Q ->
  channels_ok (hsv_to_rgb h s v) /\
  brightest (hsv_to_rgb h s v) = Q_trunc (v * 255) /\
  ((s == 0)%Q ->
   hsv_to_rgb h s v
   = (Q_trunc (v * 255), Q_trunc (v * 255), Q_trunc (v * 255))).
Proof.
  intros Hh Hs0 Hs1 Hv0 Hv1.
  unfold hsv_to_rgb, colorsys.hsv_to_rgb. simpl.
  change (inject_Z 0) with 0%Q. change (inject_Z 1) with 1%Q.
  change (inject_Z 6) with 6%Q. change (inject_Z 255) with 255%Q.
  destruct (hsv_channel v v Hv0 ltac:(lra) Hv1) as [Hvv Hv255].
  destruct (Qeq_bool s 0) eqn:Hgrey.
  { unfold channels_ok, brightest. repeat split; try lia. }
  assert (Hsat : ~ (s == 0)%Q).
  { intros Heq. apply Qeq_bool_iff in Heq. congruence. }
  set (i := Q_trunc (h * 6)).
  set (f := (h * 6 - inject_Z i)%Q).
  assert (Hf : (0 <= f)%Q /\ (f <= 1)%Q).
  { unfold f, i. rewrite Q_trunc_floor by lra.
    pose proof (Qfloor_le (h * 6)). pose proof (Qlt_floor (h * 6)) as Hlt.
    rewrite inject_Z_plus in Hlt. change (inject_Z 1) with 1%Q in Hlt.
    split; lra. }
  destruct Hf as [Hf0 Hf1].
  destruct (unit_scale s f Hs0 Hf0 Hf1) as [Hsf0 Hsf1].
  destruct (unit_scale s (1 - f) Hs0 ltac:(lra) ltac:(lra)) as [Hsg0 Hsg1].
  destruct (unit_scale v (1 - s) Hv0 ltac:(lra) ltac:(lra)) as [Hp0 Hp1].
  destruct (unit_scale v (1 - s * f) Hv0 ltac:(lra) ltac:(lra))
    as [Hq0 Hq1].
  destruct (unit_scale v (1 - s * (1 - f)) Hv0 ltac:(lra) ltac:(lra))
    as [Ht0 Ht1].
  pose proof (hsv_channel _ v Hp0 Hp1 Hv1) as [Hp _].
  pose proof (hsv_channel _ v Hq0 Hq1 Hv1) as [Hq _].
  pose proof (hsv_channel _ v Ht0 Ht1 Hv1) as [Ht _].
  split; [| split; [| intros Heq; contradiction]];
    destruct (i mod 6 =? 0); [| destruct (i mod 6 =? 1);
      [| destruct (i mod 6 =? 2); [| destruct (i mod 6 =? 3);
        [| destruct (i mod 6 =? 4)]]] | | destruct (i mod 6 =? 1);
      [| destruct (i mod 6 =? 2); [| destruct (i mod 6 =? 3);
        [| destruct (i mod 6 =? 4)]]]];
    unfold channels_ok, brightest; lia.
Qed.

Lemma black_of_brightest (c : color) :
  channels_ok c -> brightest c = 0 -> c = (0, 0, 0).
Proof.
  destruct c as [[r g] b]. unfold channels_ok, brightest.
  intros (Hr & Hg & Hb) Hmax. f_equal; [f_equal |]; lia.
Qed.

(** X17: [hsv_to_rgb] for a hue that is not negative and a saturation and a
    value in [0, 1]: the three channels lie in 0..255 and the largest of
    them is [int(v * 255)]; so a value of 0 gives black whatever the hue,
    and without saturation the colour is a grey. *)
Theorem hsv_to_rgb_channels (h s v : Q) :
  (0 <= h)%Q -> (0 <= s)%Q -> (s <= 1)%Q -> (0 <= v)%Q -> (v <= 1)%Q ->
  channels_ok (hsv_to_rgb h s v) /\
  brightest (hsv_to_rgb h s v) = Q_trunc (v * 255) /\
  ((v == 0)%Q -> hsv_to_rgb h s v = (0, 0, 0)) /\
  ((s == 0)%Q ->
   hsv_to_rgb h s v
   = (Q_trunc (v * 255), Q_trunc (v * 255), Q_trunc (v * 255))).
Proof.
  intros Hh Hs0 Hs1 Hv0 Hv1.
  destruct (hsv_to_rgb_range h s v Hh Hs0 Hs1 Hv0 Hv1) as (Hok & Hmax & Hgrey).
  split; [exact Hok |]. split; [exact Hmax |]. split; [| exact Hgrey].
  intros Hzero. apply black_of_brightest; [exact Hok |].
  rewrite Hmax. apply Q_trunc_inject_Z. rewrite Hzero. reflexivity.
Qed.

(** An orange: hue 1/12 at full saturation and value. *)
Lemma hsv_to_rgb_channels_witness :
  (0 <= 1 # 12)%Q /\ (0 <= 1)%Q /\ (1 <= 1)%Q /\
  hsv_to_rgb (1 # 12)%Q 1%Q 1%Q = (255, 127, 0) /\
  channels_ok (hsv_to_rgb (1 # 12)%Q 1%Q 1%Q).
Proof.
  assert (Hh : (0 <= 1 # 12)%Q) by (unfold Qle; simpl; lia).
  assert (H0 : (0 <= 1)%Q) by (unfold Qle; simpl; lia).
  assert (H1 : (1 <= 1)%Q) by (unfold Qle; simpl; lia).
  split; [exact Hh |]. split; [exact H0 |]. split; [exact H1 |].
  split; [reflexivity |].
  exact (proj1 (hsv_to_rgb_channels (1 # 12) 1 1 Hh H0 H1 H0 H1)).
Defined.

(** *** Colour temperature *)

Lemma clamp_255_range (x : Q) : 0 <= pyint (clamp_255 (PFloat x)) <= 255.
Proof.
  unfold clamp_255, pymin, pymax, pylt; simpl.
  change (inject_Z 255) with 255%Q. change (inject_Z 0) with 0%Q.
  destruct (Q_ltb x 255) eqn:Hhi; simpl.
  - destruct (Q_ltb 0 x) eqn:Hlo; simpl; [| lia].
    apply Q_ltb_lt in Hhi, Hlo.
    apply (Q_trunc_bounds x 255); [lra |].
    change (inject_Z 255) with 255%Q. lra.
  - lia.
Qed.

(** X18: [kelvin_to_rgb] returns 8-bit channels for every temperature and
    whatever the logarithm and the power return, since each computed
    channel is clamped; up to 6600 K the red channel is 255, from 6600 K
    on the blue channel is 255, and up to 1900 K the blue channel is
    0. *)
Theorem kelvin_to_rgb_channels `{Libm Q} (kelvin : Q) :
  channels_ok (kelvin_to_rgb kelvin) /\
  ((kelvin <= 6600)%Q -> (kelvin_to_rgb kelvin).1.1 = 255) /\
  ((6600 <= kelvin)%Q -> (kelvin_to_rgb kelvin).2 = 255) /\
  ((kelvin <= 1900)%Q -> (kelvin_to_rgb kelvin).2 = 0).
Proof.
  unfold kelvin_to_rgb.
  set (temp := (kelvin / of_int 100)%py).
  assert (Htemp : (temp == kelvin / 100)%Q) by reflexivity.
  assert (Hle : forall c : Z, fle temp (of_int c) = true
                              <-> (kelvin <= 100 * inject_Z c)%Q).
  { intros c. rewrite fle_Q, Htemp. simpl. split; intros Hc.
    - apply (Qmult_le_r _ _ 100) in Hc; [| reflexivity].
      revert Hc. field_simplify (kelvin / 100 * 100)%Q. intros Hc. lra.
    - apply Qle_shift_div_r; [reflexivity | lra]. }
  assert (Hge : fge temp (of_int 66) = true <-> (6600 <= kelvin)%Q).
  { unfold fge. rewrite fle_Q, Htemp. simpl.
    change (inject_Z 66) with 66%Q. split; intros Hc.
    - apply (Qmult_le_r _ _ 100) in Hc; [| reflexivity].
      revert Hc. field_simplify (kelvin / 100 * 100)%Q. intros Hc. lra.
    - apply Qle_shift_div_l; [reflexivity | lra]. }
  pose proof (Hle 66) as H66. pose proof (Hle 19) as H19.
  change (inject_Z 66) with 66%Q in H66. change (inject_Z 19) with 19%Q in H19.
  repeat match goal with
         | |- context [clamp_255 (PFloat ?x)] =>
             let c := fresh "c" in
             let Hc := fresh "Hc" in
             pose proof (clamp_255_range x) as Hc;
             set (c := clamp_255 (PFloat x)) in *
         end.
  destruct (fle temp (of_int 66)) eqn:Hred;
    destruct (fge temp (of_int 66)) eqn:Hblue;
    destruct (fle temp (of_int 19)) eqn:Hcold;
    simpl; unfold channels_ok;
    repeat split; try lia; intros Hk;
    try reflexivity;
    try (apply H66 in Hk; congruence);
    try (apply Hge in Hk; congruence);
    try (apply H19 in Hk; congruence);
    try (assert (fle temp (of_int 19) = true) by (apply H19; exact Hk);
         congruence);
    try (assert (fge temp (of_int 66) = true) by (apply Hge; exact Hk);
         congruence);
    try (assert (fle temp (of_int 66) = true) by (apply H66; exact Hk);
         congruence);
    try (exfalso;
         assert (Ha : (kelvin <= 100 * 19)%Q) by (apply H19; reflexivity);
         assert (Hb : (6600 <= kelvin)%Q) by (apply Hge; reflexivity);
         lra).
Qed.

(** Candle light and an overcast sky. *)
Lemma kelvin_to_rgb_channels_witness :
  (1800 <= 6600)%Q /\ (1800 <= 1900)%Q /\ (6600 <= 7000)%Q /\
  (kelvin_to_rgb (H0:=libm_stub) 1800%Q).1.1 = 255 /\
  (kelvin_to_rgb (H0:=libm_stub) 1800%Q).2 = 0 /\
  (kelvin_to_rgb (H0:=libm_stub) 7000%Q).2 = 255.
Proof.
  assert (Ha : (1800 <= 6600)%Q) by (unfold Qle; simpl; lia).
  assert (Hb : (1800 <= 1900)%Q) by (unfold Qle; simpl; lia).
  assert (Hc : (6600 <= 7000)%Q) by (unfold Qle; simpl; lia).
  split; [exact Ha |]. split; [exact Hb |]. split; [exact Hc |].
  destruct (kelvin_to_rgb_channels (H:=libm_stub) 1800%Q)
    as (_ & Hred & _ & Hblue).
  destruct (kelvin_to_rgb_channels (H:=libm_stub) 7000%Q)
    as (_ & _ & Hcool & _).
  split; [exact (Hred Ha) |]. split; [exact (Hblue Hb) | exact (Hcool Hc)].
Defined.

(** *** Blending stays in range *)

Lemma channel_Q (c : Z) :
  0 <= c <= 255 -> (0 <= inject_Z c)%Q /\ (inject_Z c <= 255)%Q.
Proof.
  intros Hc. change 0%Q with (inject_Z 0). change 255%Q with (inject_Z 255).
  rewrite <- !Zle_Qle. lia.
Qed.

(** The truncation of a weighted mean of two channels is a channel. *)
Lemma mix_range_Q (c1 c2 : Z) (r : Q) :
  0 <= c1 <= 255 -> 0 <= c2 <= 255 -> (0 <= r)%Q -> (r <= 1)%Q ->
  0 <= Q_trunc (inject_Z c1 * (1 - r) + inject_Z c2 * r) <= 255.
Proof.
  intros Hc1 Hc2 Hr0 Hr1.
  destruct (channel_Q c1 Hc1) as [H1 H1'], (channel_Q c2 Hc2) as [H2 H2'].
  assert (Hr' : (0 <= 1 - r)%Q) by lra.
  pose proof (Qmult_le_0_compat _ _ H1 Hr').
  pose proof (Qmult_le_0_compat _ _ H2 Hr0).
  assert (Ha : (inject_Z c1 * (1 - r) <= 255 * (1 - r))%Q)
    by (apply Qmult_le_compat_r; lra).
  assert (Hb : (inject_Z c2 * r <= 255 * r)%Q)
    by (apply Qmult_le_compat_r; lra).
  apply Q_trunc_bounds; [lra |].
  change (inject_Z 255) with 255%Q. lra.
Qed.

Lemma blend_channel_range_Q (c1 c2 : Z) (ratio : pynum Q) :
  0 <= c1 <= 255 -> 0 <= c2 <= 255 ->
  0 <= blend_channel c1 c2 (pymax (PInt 0) (pymin (PInt 1) ratio)) <= 255.
Proof.
  intros Hc1 Hc2.
  pose proof (fun r => mix_range_Q c1 c2 r Hc1 Hc2) as Hmix.
  unfold blend_channel, pymax, pymin, pylt.
  destruct ratio as [z | x]; simpl.
  - destruct (Z.ltb_spec z 1); simpl.
    + destruct (Z.ltb_spec 0 z); simpl; lia.
    + lia.
  - change (inject_Z 1) with 1%Q. change (inject_Z 0) with 0%Q.
    destruct (Q_ltb x 1) eqn:Hhi; simpl.
    + destruct (Q_ltb 0 x) eqn:Hlo; simpl; [| lia].
      apply Q_ltb_lt in Hhi, Hlo. change (inject_Z 1) with 1%Q.
      apply Hmix; lra.
    + lia.
Qed.

Lemma blend_colors_range_Q (c1 c2 : color) (ratio : pynum Q) :
  channels_ok c1 -> channels_ok c2 -> channels_ok (blend_colors c1 c2 ratio).
Proof.
  destruct c1 as [[r1 g1] b1], c2 as [[r2 g2] b2].
  intros (Hr1 & Hg1 & Hb1) (Hr2 & Hg2 & Hb2).
  unfold blend_colors, channels_ok.
  repeat split; apply blend_channel_range_Q; assumption.
Qed.

(** *** Dimming *)

Lemma dim_channel_range (c : Z) (factor : pynum Q) :
  0 <= c <= 255 -> (0 <= to_float factor)%Q -> (to_float factor <= 1)%Q ->
  0 <= pyint (pymul (PInt c) factor) <= c.
Proof.
  intros Hc Hlo Hhi. destruct factor as [z | x]; simpl in *.
  - change 0%Q with (inject_Z 0) in Hlo. change 1%Q with (inject_Z 1) in Hhi.
    rewrite <- Zle_Qle in Hlo, Hhi. nia.
  - destruct (channel_Q c Hc) as [Hc0 _].
    destruct (unit_scale (inject_Z c) x Hc0 Hlo Hhi) as [Hm0 Hm1].
    apply Q_trunc_bounds; assumption.
Qed.

(** X19: [dim] by a factor between 0 and 1, an [int] or a [float]: no channel
    grows and none becomes negative; the factor 1 leaves the colour as it
    is and the factor 0 gives black. *)
Theorem dim_never_brightens (c : color) (factor : pynum Q) :
  channels_ok c -> (0 <= to_float factor)%Q -> (to_float factor <= 1)%Q ->
  (0 <= (dim c factor).1.1 <= c.1.1 /\
   0 <= (dim c factor).1.2 <= c.1.2 /\
   0 <= (dim c factor).2 <= c.2) /\
  dim c (PInt (F:=Q) 1) = c /\ dim c (PFloat 1%Q) = c /\
  dim c (PInt (F:=Q) 0) = (0, 0, 0) /\ dim c (PFloat 0%Q) = (0, 0, 0).
Proof.
  destruct c as [[r g] b]. intros (Hr & Hg & Hb) Hlo Hhi.
  assert (Hone : forall v : Z, Q_trunc (inject_Z v * 1) = v).
  { intros v. apply Q_trunc_inject_Z. ring. }
  assert (Hzero : forall v : Z, Q_trunc (inject_Z v * 0) = 0).
  { intros v. apply Q_trunc_inject_Z. change (inject_Z 0) with 0%Q. ring. }
  unfold dim; simpl. split; [| split; [| split; [| split]]].
  - repeat split; apply dim_channel_range; assumption.
  - rewrite !Z.mul_1_r. reflexivity.
  - rewrite !Hone. reflexivity.
  - rewrite !Z.mul_0_r. reflexivity.
  - rewrite !Hzero. reflexivity.
Qed.

(** An amber at three quarters. *)
Lemma dim_never_brightens_witness :
  channels_ok (255, 191, 0) /\ (0 <= 3 # 4)%Q /\ (3 # 4 <= 1)%Q /\
  dim (255, 191, 0) (PFloat (3 # 4)%Q) = (191, 143, 0) /\
  0 <= (dim (255, 191, 0) (PFloat (3 # 4)%Q)).1.2 <= 191.
Proof.
  assert (Hok : channels_ok (255, 191, 0)) by (simpl; lia).
  assert (Hlo : (0 <= 3 # 4)%Q) by (unfold Qle; simpl; lia).
  assert (Hhi : (3 # 4 <= 1)%Q) by (unfold Qle; simpl; lia).
  split; [exact Hok |]. split; [exact Hlo |]. split; [exact Hhi |].
  split; [reflexivity |].
  exact (proj1 (proj2 (proj1 (dim_never_brightens (255, 191, 0)
                                (PFloat (3 # 4)%Q) Hok Hlo Hhi)))).
Defined.

(** ** Loops that paint the buffer *)


Section paint.
Context {A : Type} (px : A -> list color) (R : A -> Prop) (col : nat -> color)
  (body : Z -> A -> result A) (K : nat).
Hypothesis paint_step : forall (i : nat) (s : A),
  (i < K)%nat -> R s -> (K <= length (px s))%nat ->
  exists s', body (Z.of_nat i) s = Ok s' /\ R s' /\
             px s' = <[i := col i]> (px s).

Lemma for_range_paint_from (m : nat) :
  forall (k : nat) (s : A),
    (k + m = K)%nat -> R s -> (K <= length (px s))%nat ->
    exists s',
      for_range body (Z.of_nat k) m s = Ok s' /\ R s' /\
      length (px s') = length (px s) /\
      (forall j, (k <= j < K)%nat -> px s' !! j = Some (col j)) /\
      (forall j, (j < k)%nat \/ (K <= j)%nat -> px s' !! j = px s !! j).
Proof.
  induction m as [| m IH]; intros k s Hk HR Hlen; simpl.
  - exists s. repeat split; try assumption. intros j Hj. lia.
  - destruct (paint_step k s) as (s1 & -> & HR1 & Hpx1); [lia | assumption .. |].
    simpl. replace (Z.of_nat k + 1) with (Z.of_nat (S k)) by lia.
    assert (Hlen1 : length (px s1) = length (px s))
      by (rewrite Hpx1; apply length_insert).
    destruct (IH (S k) s1) as (s' & Hrun & HR' & Hlen' & Hnew & Hold);
      [lia | assumption | lia |].
    exists s'. split; [exact Hrun |]. split; [exact HR' |].
    split; [lia |]. split.
    + intros j Hj. destruct (Nat.eq_dec j k) as [-> | Hne].
      * rewrite Hold by lia. rewrite Hpx1.
        apply list_lookup_insert_eq. lia.
      * apply Hnew. lia.
    + intros j Hj. rewrite Hold by lia. rewrite Hpx1.
      apply list_lookup_insert_ne. lia.
Qed.

Lemma for_range_paint (s : A) :
  R s -> (K <= length (px s))%nat ->
  exists s',
    for_range body 0 K s = Ok s' /\ R s' /\
    length (px s') = length (px s) /\
    (forall j, (j < K)%nat -> px s' !! j = Some (col j)) /\
    (forall j, (K <= j)%nat -> px s' !! j = px s !! j).
Proof.
  intros HR Hlen.
  destruct (for_range_paint_from K 0 s) as (s' & Hrun & HR' & Hlen' & Hnew & Hold);
    [lia | assumption .. |].
  exists s'. split; [exact Hrun |]. split; [exact HR' |].
  split; [exact Hlen' |]. split.
  - intros j Hj. apply Hnew. lia.
  - intros j Hj. apply Hold. right. exact Hj.
Qed.
End paint.

(** ** The rainbow (effects/rainbow.py) *)

(** X20: [update] of the rainbow effect on a buffer of [led_count] pixels: it
    raises nothing, adds [dt * speed * 50] to the offset, changes no other
    field but the buffer, and paints every LED with the colour of the wheel
    at its index, a colour whose channels lie in 0..255 and sum to 255. *)
Theorem rainbow_update_paints_the_wheel (dt : Q)
    (self : rainbow.RainbowEffect Q) :
  buffer_sized (rainbow.effect self) ->
  exists self',
    rainbow.update dt self = Ok self' /\
    rainbow.offset self'
    = pyadd (rainbow.offset self)
        (PFloat (dt * rainbow.speed self * 50)%Q) /\
    rainbow.speed self' = rainbow.speed self /\
    rainbow.effect self'
    = set_pixels (pixels (rainbow.effect self')) (rainbow.effect self) /\
    length (pixels (rainbow.effect self'))
    = length (pixels (rainbow.effect self)) /\
    forall i c,
      pixels (rainbow.effect self') !! i = Some c ->
      c = wheel (rainbow.pixel_index self' (Z.of_nat i)) /\
      channels_ok c /\ c.1.1 + c.1.2 + c.2 = 255.
Proof.
  intros Hsized. unfold buffer_sized in Hsized.
  unfold rainbow.update.
  set (offset' := pyadd (rainbow.offset self)
                    (PFloat (dt * rainbow.speed self * of_int 50)%py)).
  set (s0 := rainbow.mkRainbowEffect (rainbow.effect self)
               (rainbow.speed self) offset').
  set (K := Z.to_nat (effect_base.led_count (rainbow.effect self))) in *.
  set (R := fun s : rainbow.RainbowEffect Q =>
              s = rainbow.mkRainbowEffect
                    (set_pixels (pixels (rainbow.effect s))
                       (rainbow.effect self))
                    (rainbow.speed self) offset').
  set (col := fun i : nat => wheel (rainbow.pixel_index s0 (Z.of_nat i))).
  assert (Hwheel : forall i,
             let c := col i in
             channels_ok c /\ c.1.1 + c.1.2 + c.2 = 255 /\
             (uint8 c.1.1, uint8 c.1.2, uint8 c.2) = c).
  { intros i. simpl. unfold col.
    rewrite rainbow_pixel_index_range.
    set (pos := rainbow.pixel_index s0 (Z.of_nat i)).
    destruct (wheel (pos mod 256)) as [[r g] b] eqn:Hc.
    pose proof (Z.mod_pos_bound pos 256 ltac:(lia)) as Hpos.
    destruct (wheel_channels (pos mod 256) r g b ltac:(lia) Hc)
      as [(Hr & Hg & Hb) Hsum].
    simpl. rewrite !uint8_small by assumption.
    unfold channels_ok. repeat split; lia. }
  destruct (for_range_paint (fun s => pixels (rainbow.effect s)) R col
              (fun (i : Z) (self0 : rainbow.RainbowEffect Q) =>
                 let '(r, g, b) := wheel (rainbow.pixel_index self0 i) in
                 if (Z.to_nat i <? length (pixels (rainbow.effect self0)))%nat
                 then Ok (rainbow.mkRainbowEffect
                            (set_pixels
                               (<[Z.to_nat i := (uint8 r, uint8 g, uint8 b)]>
                                  (pixels (rainbow.effect self0)))
                               (rainbow.effect self0))
                            (rainbow.speed self0) (rainbow.offset self0))
                 else Raise IndexError)
              K) with (s := s0)
    as (s' & Hrun & HR' & Hlen' & Hnew & _).
  - intros i s Hi HR Hlen. rewrite HR.
    change (rainbow.pixel_index _ (Z.of_nat i))
      with (rainbow.pixel_index s0 (Z.of_nat i)).
    fold (col i). destruct (Hwheel i) as (_ & _ & Hu).
    destruct (col i) as [[r g] b]. simpl in Hu. simpl.
    rewrite Nat2Z.id.
    destruct (Nat.ltb_spec i (length (pixels (rainbow.effect s)))); [| lia].
    eexists. split; [reflexivity |]. split.
    + unfold R. simpl. reflexivity.
    + simpl. rewrite Hu. reflexivity.
  - unfold R, s0. destruct self as [e sp off]; destruct e; reflexivity.
  - simpl. lia.
  - exists s'. split; [exact Hrun |]. rewrite HR'. simpl.
    split; [reflexivity |]. split; [reflexivity |]. split; [reflexivity |].
    split; [exact Hlen' |].
    intros i c Hc.
    assert (Hi : (i < K)%nat).
    { apply lookup_lt_Some in Hc. simpl in Hlen'. lia. }
    rewrite (Hnew i Hi) in Hc. injection Hc as <-.
    destruct (Hwheel i) as (Hok & Hsum & _).
    split; [| split; assumption].
    unfold col, rainbow.pixel_index. reflexivity.
Qed.

(** Three LEDs, a quarter of a second after the last frame. *)
Lemma rainbow_update_paints_the_wheel_witness :
  exists self : rainbow.RainbowEffect Q,
    rainbow.RainbowEffect_init 3 30 1%Q = Ok self /\
    buffer_sized (rainbow.effect self) /\
    exists self',
      rainbow.update (1 # 4)%Q self = Ok self' /\
      pixels (rainbow.effect self')
      = [(219, 36, 0); (0, 219, 36); (39, 0, 216)].
Proof.
  eexists. split; [reflexivity |].
  match goal with
  | |- buffer_sized ?e /\ _ => assert (Hsized : buffer_sized e) by reflexivity
  end.
  split; [exact Hsized |].
  destruct (rainbow_update_paints_the_wheel (1 # 4)%Q _ Hsized)
    as (self' & Hrun & _).
  exists self'. split; [exact Hrun |].
  vm_compute in Hrun. injection Hrun as <-. reflexivity.
Defined.

(** ** The height gradient (effects/height_gradient.py) *)

Lemma height_normalized_length {F} `{PyFloat F} (m : TreeModel F) :
  model_wf m -> length (get_height_normalized m) = Z.to_nat (led_count m).
Proof.
  intros (Hcount & _). unfold get_height_normalized.
  destruct (bounds m).2 as [z_min z_max].
  destruct (z_min <? z_max)%py.
  - unfold column. rewrite !length_map. lia.
  - apply length_replicate.
Qed.

Lemma bind_Ok {A B} (a : A) (f : A -> result B) : (Ok a ≫= f) = f a.
Proof. reflexivity. Qed.

Lemma py_index_inside {A} (l : list A) (i : Z) :
  0 <= i < Z.of_nat (length l) ->
  exists a, py_index l i = Ok a /\ l !! Z.to_nat i = Some a.
Proof.
  intros Hi. destruct (lookup_lt_is_Some_2 l (Z.to_nat i)) as [a Ha]; [lia |].
  exists a. split; [| exact Ha].
  rewrite <- (Z2Nat.id i) by lia. apply py_index_lookup, Ha.
Qed.


Lemma Q_mod_1_range (x : Q) : (0 <= Q_mod x 1)%Q /\ (Q_mod x 1 < 1)%Q.
Proof.
  unfold Q_mod.
  assert (Hfloor : Qfloor (x / 1) = Qfloor x).
  { apply Qfloor_comp. field. }
  rewrite Hfloor.
  pose proof (Qfloor_le x). pose proof (Qlt_floor x) as Hlt.
  rewrite inject_Z_plus in Hlt. change (inject_Z 1) with 1%Q in Hlt.
  split; lra.
Qed.

Lemma interpolate_colors_ok (cs : list color) (position : Q) :
  cs <> [] -> Forall channels_ok cs -> (0 <= position)%Q ->
  exists c, height_gradient._interpolate_colors cs position = Ok c /\
            channels_ok c.
Proof.
  intros Hne Hok Hpos. unfold height_gradient._interpolate_colors.
  assert (Hget : forall i, 0 <= i < Z.of_nat (length cs) ->
             exists c, py_index cs i = Ok c /\ channels_ok c).
  { intros i Hi. destruct (py_index_inside cs i Hi) as (c & Hc & Hl).
    exists c. split; [exact Hc |].
    rewrite Forall_forall in Hok. apply Hok.
    apply list_elem_of_lookup. eexists; exact Hl. }
  assert (Hlen : 0 < Z.of_nat (length cs)).
  { destruct cs; [congruence | simpl; lia]. }
  destruct (Z.eqb_spec (Z.of_nat (length cs)) 1) as [H1 | H1].
  - apply Hget. lia.
  - set (len := Z.of_nat (length cs)) in *.
    set (segment_size := (of_int 1 / of_int (len - 1))%py).
    assert (Hseg : (0 < segment_size)%Q).
    { unfold segment_size. simpl. change (inject_Z 1) with 1%Q.
      apply Qlt_shift_div_l; [apply inject_Z_pos; lia | lra]. }
    set (k := int_of (position / segment_size)%py).
    assert (Hk : 0 <= k).
    { unfold k. simpl.
      apply (Q_trunc_mono 0 (position / segment_size)); [lra |].
      apply Qle_shift_div_l; [exact Hseg | lra]. }
    destruct (Hget (Z.min k (len - 2))) as (c1 & -> & Hc1); [lia |].
    destruct (Hget (Z.min k (len - 2) + 1)) as (c2 & -> & Hc2); [lia |].
    simpl. eexists. split; [reflexivity |].
    apply blend_colors_range_Q; assumption.
Qed.

Lemma led_color_ok (self : height_gradient.HeightGradientEffect Q) (h : Q) :
  gradient_colors_ok (height_gradient.colors self) ->
  exists c, height_gradient.led_color self h = Ok c /\ channels_ok c.
Proof.
  intros Hcolors. unfold height_gradient.led_color.
  match goal with
  | |- context [(?x %% of_int 1)%py] =>
      set (height := (x %% of_int 1)%py);
      destruct (Q_mod_1_range x) as [Hh0 Hh1];
      change (Q_mod x 1) with height in Hh0, Hh1
  end.
  destruct (height_gradient.colors self) as [cs |].
  - destruct Hcolors as [Hne Hok].
    apply interpolate_colors_ok; assumption.
  - eexists. split; [reflexivity |].
    apply (hsv_to_rgb_range height 1 1); lra.
Qed.

Section gradient_update.
Variable dt : Q.
Variable self : height_gradient.HeightGradientEffect Q.
Hypothesis sized : buffer_sized (height_gradient.effect self).
Hypothesis colors_ok : gradient_colors_ok (height_gradient.colors self).

(** The colour of LED [i]. *)
Let col (i : nat) : color :=
  match height_gradient.heights self !! i with
  | Some h =>
      match height_gradient.led_color self h with
      | Ok c => c
      | Raise _ => (0, 0, 0)
      end
  | None => (0, 0, 0)
  end.

Let only_pixels (s : height_gradient.HeightGradientEffect Q) : Prop :=
  s = gradient_with_pixels (pixels (height_gradient.effect s)) self.

Let body (i : Z) (s : height_gradient.HeightGradientEffect Q)
  : result (height_gradient.HeightGradientEffect Q) :=
  height ← py_index (height_gradient.heights s) i;
  '(r, g, b) ← height_gradient.led_color s height;
  effect ← set_pixel (height_gradient.effect s) i r g b;
  Ok (height_gradient.mkHeightGradientEffect effect
        (height_gradient.colors s) (height_gradient.animated s)
        (height_gradient.speed s) (height_gradient.heights s)).

Lemma gradient_step (K : nat) (i : nat)
    (s : height_gradient.HeightGradientEffect Q) :
  (K <= Z.to_nat (effect_base.led_count (height_gradient.effect self)))%nat ->
  (K <= length (height_gradient.heights self))%nat ->
  (i < K)%nat -> only_pixels s ->
  (K <= length (pixels (height_gradient.effect s)))%nat ->
  exists s', body (Z.of_nat i) s = Ok s' /\ only_pixels s' /\
             pixels (height_gradient.effect s')
             = <[i := col i]> (pixels (height_gradient.effect s)).
Proof.
  intros HK Hheights Hi Hs Hlen. unfold body. rewrite Hs.
  set (p := pixels (height_gradient.effect s)) in *.
  change (height_gradient.heights (gradient_with_pixels p self))
    with (height_gradient.heights self).
  destruct (py_index_inside (height_gradient.heights self) (Z.of_nat i))
    as (h & -> & Hh); [lia |].
  rewrite Nat2Z.id in Hh. rewrite bind_Ok. cbv beta.
  change (height_gradient.led_color (gradient_with_pixels p self) h)
    with (height_gradient.led_color self h).
  destruct (led_color_ok self h colors_ok) as (c & Hc & Hok).
  assert (Hcol : col i = c) by (unfold col; rewrite Hh, Hc; reflexivity).
  rewrite Hc, bind_Ok. destruct c as [[r g] b]. destruct Hok as (Hr & Hg & Hb).
  unfold set_pixel. simpl.
  destruct (Z.leb_spec 0 (Z.of_nat i)); [| lia].
  destruct (Z.ltb_spec (Z.of_nat i)
              (effect_base.led_count (height_gradient.effect self)));
    [| lia].
  simpl. rewrite Nat2Z.id.
  destruct (Nat.ltb_spec i (length p)); [| lia].
  rewrite !uint8_small by assumption.
  eexists. split; [reflexivity |]. split.
  - unfold only_pixels. reflexivity.
  - simpl. rewrite Hcol. reflexivity.
Qed.

Lemma gradient_start : only_pixels self.
Proof.
  unfold only_pixels, gradient_with_pixels.
  destruct self as [e cs an sp hs]. destruct e. reflexivity.
Qed.

Lemma gradient_update_Ok :
  (Z.to_nat (effect_base.led_count (height_gradient.effect self))
   <= length (height_gradient.heights self))%nat ->
  exists self',
    height_gradient.update dt self = Ok self' /\
    self' = gradient_with_pixels (pixels (height_gradient.effect self')) self /\
    length (pixels (height_gradient.effect self'))
    = length (pixels (height_gradient.effect self)) /\
    forall i,
      (i < Z.to_nat (effect_base.led_count (height_gradient.effect self)))%nat ->
      pixels (height_gradient.effect self') !! i = Some (col i).
Proof.
  intros Hheights.
  set (K := Z.to_nat (effect_base.led_count (height_gradient.effect self))) in *.
  destruct (for_range_paint (fun s => pixels (height_gradient.effect s))
              only_pixels col body K) with (s := self)
    as (s' & Hrun & HR' & Hlen' & Hnew & _).
  - intros i s Hi HR Hlen. apply (gradient_step K); (assumption || lia).
  - apply gradient_start.
  - unfold buffer_sized in sized. fold K in sized. lia.
  - exists s'. split; [exact Hrun |]. split; [exact HR' |].
    split; [exact Hlen' | exact Hnew].
Qed.

End gradient_update.

(** X21: [update] of the height gradient.  Built the way [main] builds it,
    from a model a constructor returned and with the LED count of that
    model, the effect has a height for each of its LEDs.  On such an
    effect [update] raises nothing, changes the buffer only, and gives
    every LED the colour of its height, whose channels lie in 0..255,
    whether the colours are interpolated or those of the rainbow; and it
    leaves the effect ready for the next frame. *)
Theorem height_gradient_update_paints_every_led :
  (forall csv_path (n fps : Z) (m : TreeModel Q) colors animated speed,
     TreeModel_init csv_path n = Ok m -> fps <> 0 ->
     gradient_colors_ok colors ->
     exists self,
       height_gradient.HeightGradientEffect_init (led_count m) fps (Some m)
         colors animated speed = Ok self /\
       gradient_ready self) /\
  (forall (dt : Q) (self : height_gradient.HeightGradientEffect Q),
     gradient_ready self ->
     exists self',
       height_gradient.update dt self = Ok self' /\
       self' = gradient_with_pixels
                 (pixels (height_gradient.effect self')) self /\
       gradient_ready self' /\
       forall i,
         (i < Z.to_nat (effect_base.led_count (height_gradient.effect self)))%nat ->
         exists h c,
           height_gradient.heights self !! i = Some h /\
           height_gradient.led_color self h = Ok c /\ channels_ok c /\
           pixels (height_gradient.effect self') !! i = Some c).
Proof.
  split.
  - intros csv_path n fps m colors animated speed Hm Hfps Hcolors.
    pose proof (TreeModel_init_wf _ _ _ Hm) as Hwf.
    assert (Hn : 0 <= led_count m) by (destruct Hwf as (<- & _); lia).
    unfold height_gradient.HeightGradientEffect_init.
    destruct (Effect_init (led_count m) fps (Some m)) as [e |] eqn:He.
    + apply Effect_init_sized in He. destruct He as (Hsized & _ & _ & Hled).
      eexists. split; [reflexivity |].
      split; [exact Hsized |]. split; [| exact Hcolors].
      simpl. rewrite Hled, (height_normalized_length m Hwf). lia.
    + exfalso. unfold Effect_init in He.
      destruct (Z.eqb_spec fps 0); [contradiction |].
      destruct (Z.ltb_spec (led_count m) 0); [lia | discriminate].
  - intros dt self (Hsized & Hheights & Hcolors).
    destruct (gradient_update_Ok dt self Hsized Hcolors Hheights)
      as (self' & Hrun & Honly & Hlen & Hpix).
    exists self'. split; [exact Hrun |]. split; [exact Honly |]. split.
    + rewrite Honly. unfold gradient_ready, buffer_sized. simpl.
      split; [| split; assumption].
      unfold buffer_sized in Hsized. lia.
    + intros i Hi.
      destruct (lookup_lt_is_Some_2 (height_gradient.heights self) i)
        as [h Hh]; [lia |].
      destruct (led_color_ok self h Hcolors) as (c & Hc & Hok).
      exists h, c. split; [exact Hh |]. split; [exact Hc |].
      split; [exact Hok |].
      rewrite (Hpix i Hi), Hh, Hc. reflexivity.
Qed.

(** The sample gradient over the line of three LEDs. *)
Lemma height_gradient_update_paints_every_led_witness :
  exists self : height_gradient.HeightGradientEffect Q,
    sample_gradient = Ok self /\ gradient_ready self /\
    exists self',
      height_gradient.update 0%Q self = Ok self' /\
      pixels (height_gradient.effect self')
      = [(0, 0, 255); (127, 0, 127); (0, 0, 255)].
Proof.
  eexists. split; [vm_compute; reflexivity |].
  match goal with
  | |- gradient_ready ?s /\ _ =>
      assert (Hready : gradient_ready s)
  end.
  { split; [reflexivity |]. split; [simpl; lia |].
    split; [discriminate |]. repeat constructor; simpl; lia. }
  split; [exact Hready |].
  destruct (proj2 height_gradient_update_paints_every_led 0%Q _ Hready)
    as (self' & Hrun & _).
  exists self'. split; [exact Hrun |].
  vm_compute in Hrun. injection Hrun as <-. reflexivity.
Defined.


(** ** The rising wave (effects/rising_wave.py) *)

Lemma fabs_Q (x : Q) :
  (0 <= fabs x)%Q /\ (x <= fabs x)%Q /\ (- x <= fabs x)%Q.
Proof.
  unfold fabs; simpl. change (inject_Z 0) with 0%Q.
  destruct (Q_ltb x 0) eqn:Hneg.
  - apply Q_ltb_lt in Hneg. repeat split; lra.
  - apply Q_ltb_ge in Hneg. repeat split; lra.
Qed.

Lemma brightness_range (wave_height wave_pos height : Q) :
  let b := rising_wave_update.brightness wave_height wave_pos height in
  (0 <= b)%Q /\ (b <= 1)%Q /\
  ((wave_height <= height - wave_pos)%Q \/
   (wave_height <= wave_pos - height)%Q -> b = 0%Q).
Proof.
  unfold rising_wave_update.brightness.
  change (height - wave_pos)%py with (height - wave_pos)%Q.
  destruct (fabs_Q (height - wave_pos)) as (Habs0 & Hup & Hdown).
  set (dist := fabs (height - wave_pos)%Q) in *.
  simpl. change (inject_Z 1) with 1%Q. change (inject_Z 0) with 0%Q.
  destruct (Q_ltb dist wave_height) eqn:Hnear.
  - apply Q_ltb_lt in Hnear.
    assert (Hpos : (0 < wave_height)%Q) by lra.
    assert (Hq0 : (0 <= dist / wave_height)%Q)
      by (apply Qle_shift_div_l; lra).
    assert (Hq1 : (dist / wave_height <= 1)%Q)
      by (apply Qle_shift_div_r; lra).
    destruct (unit_scale (1 - dist / wave_height) (1 - dist / wave_height))
      as [Hb0 Hb1]; [lra | lra | lra |].
    split; [exact Hb0 |]. split; [lra |].
    intros [Hfar | Hfar]; lra.
  - split; [lra |]. split; [lra |]. reflexivity.
Qed.

Section wave_update.
Variable dt : Q.
Variable self : rising_wave.RisingWaveEffect Q.
Hypothesis sized : buffer_sized (rising_wave.effect Q self).
Hypothesis heights_cover :
  (Z.to_nat (effect_base.led_count (rising_wave.effect Q self))
   <= length (rising_wave.heights Q self))%nat.
Hypothesis hue_ok : (0 <= rising_wave.hue Q self)%Q.

Let shade (h : Q) : color :=
  hsv_to_rgb (rising_wave.hue Q self) 1%Q
    (rising_wave_update.brightness (rising_wave.wave_height Q self)
       (rising_wave_update.wave_pos self) h).

Let col (i : nat) : color :=
  match rising_wave.heights Q self !! i with
  | Some h => shade h
  | None => (0, 0, 0)
  end.

Let only_pixels (s : rising_wave.RisingWaveEffect Q) : Prop :=
  s = wave_with_pixels (pixels (rising_wave.effect Q s)) self.

Lemma shade_ok (h : Q) :
  channels_ok (shade h) /\
  ((rising_wave.wave_height Q self
    <= h - rising_wave_update.wave_pos self)%Q \/
   (rising_wave.wave_height Q self
    <= rising_wave_update.wave_pos self - h)%Q ->
   shade h = (0, 0, 0)).
Proof.
  unfold shade.
  destruct (brightness_range (rising_wave.wave_height Q self)
              (rising_wave_update.wave_pos self) h) as (Hb0 & Hb1 & Hfar).
  destruct (hsv_to_rgb_range (rising_wave.hue Q self) 1
              (rising_wave_update.brightness (rising_wave.wave_height Q self)
                 (rising_wave_update.wave_pos self) h))
    as (Hok & Hmax & _); try lra; try exact hue_ok.
  split; [exact Hok |].
  intros H. apply black_of_brightest; [exact Hok |].
  rewrite Hmax, (Hfar H). reflexivity.
Qed.

Lemma wave_update_Ok :
  exists self',
    rising_wave_update.update dt self = Ok self' /\
    self' = wave_with_pixels (pixels (rising_wave.effect Q self')) self /\
    length (pixels (rising_wave.effect Q self'))
    = length (pixels (rising_wave.effect Q self)) /\
    forall i,
      (i < Z.to_nat (effect_base.led_count (rising_wave.effect Q self)))%nat ->
      pixels (rising_wave.effect Q self') !! i = Some (col i).
Proof.
  set (K := Z.to_nat (effect_base.led_count (rising_wave.effect Q self))) in *.
  unfold rising_wave_update.update.
  match goal with
  | |- context [for_range ?b 0 _ self] => set (body := b)
  end.
  destruct (for_range_paint (fun s => pixels (rising_wave.effect Q s))
              only_pixels col body K) with (s := self)
    as (s' & Hrun & HR' & Hlen' & Hnew & _).
  - intros i s Hi HR Hlen. unfold body. rewrite HR.
    set (p := pixels (rising_wave.effect Q s)) in *.
    change (rising_wave.heights Q (wave_with_pixels p self))
      with (rising_wave.heights Q self).
    destruct (py_index_inside (rising_wave.heights Q self) (Z.of_nat i))
      as (h & -> & Hh); [lia |].
    rewrite Nat2Z.id in Hh. rewrite bind_Ok. cbv beta.
    change (hsv_to_rgb _ _ _) with (shade h).
    assert (Hcol : col i = shade h) by (unfold col; rewrite Hh; reflexivity).
    destruct (shade_ok h) as [Hok _].
    destruct (shade h) as [[r g] b]. destruct Hok as (Hr & Hg & Hb).
    unfold set_pixel. simpl.
    destruct (Z.leb_spec 0 (Z.of_nat i)); [| lia].
    destruct (Z.ltb_spec (Z.of_nat i)
                (effect_base.led_count (rising_wave.effect Q self)));
      [| lia].
    simpl. rewrite Nat2Z.id.
    destruct (Nat.ltb_spec i (length p)); [| lia].
    rewrite !uint8_small by assumption.
    eexists. split; [reflexivity |]. split.
    + unfold only_pixels. reflexivity.
    + simpl. rewrite Hcol. reflexivity.
  - unfold only_pixels, wave_with_pixels.
    destruct self as [e sp wh hu hs]. destruct e. reflexivity.
  - unfold buffer_sized in sized. fold K in sized. lia.
  - exists s'. split; [exact Hrun |]. split; [exact HR' |].
    split; [exact Hlen' | exact Hnew].
Qed.
End wave_update.

(** X23: [update] of the rising wave, on a buffer of [led_count] pixels with
    a height for each of them and a hue that is not negative: it raises
    nothing, not even for a wave of height 0, and changes the buffer
    only; every LED gets the colour of the hue at the brightness of its
    height, with channels in 0..255, and every LED that is the height of
    the wave or more above or below the place of the wave is black. *)
Theorem rising_wave_update_lights_only_the_wave (dt : Q)
    (self : rising_wave.RisingWaveEffect Q) :
  buffer_sized (rising_wave.effect Q self) ->
  (Z.to_nat (effect_base.led_count (rising_wave.effect Q self))
   <= length (rising_wave.heights Q self))%nat ->
  (0 <= rising_wave.hue Q self)%Q ->
  exists self',
    rising_wave_update.update dt self = Ok self' /\
    self' = wave_with_pixels (pixels (rising_wave.effect Q self')) self /\
    length (pixels (rising_wave.effect Q self'))
    = length (pixels (rising_wave.effect Q self)) /\
    forall i,
      (i < Z.to_nat (effect_base.led_count (rising_wave.effect Q self)))%nat ->
      exists h c,
        rising_wave.heights Q self !! i = Some h /\
        pixels (rising_wave.effect Q self') !! i = Some c /\
        c = hsv_to_rgb (rising_wave.hue Q self) 1%Q
              (rising_wave_update.brightness (rising_wave.wave_height Q self)
                 (rising_wave_update.wave_pos self) h) /\
        channels_ok c /\
        ((rising_wave.wave_height Q self
          <= h - rising_wave_update.wave_pos self)%Q \/
         (rising_wave.wave_height Q self
          <= rising_wave_update.wave_pos self - h)%Q ->
         c = (0, 0, 0)).
Proof.
  intros Hsized Hheights Hhue.
  destruct (wave_update_Ok dt self Hsized Hheights Hhue)
    as (self' & Hrun & Honly & Hlen & Hpix).
  exists self'. split; [exact Hrun |]. split; [exact Honly |].
  split; [exact Hlen |].
  intros i Hi.
  destruct (lookup_lt_is_Some_2 (rising_wave.heights Q self) i)
    as [h Hh]; [lia |].
  destruct (shade_ok self Hhue h) as [Hok Hfar].
  eexists h, _. split; [exact Hh |].
  split; [rewrite (Hpix i Hi), Hh; reflexivity |].
  split; [reflexivity |]. split; [exact Hok | exact Hfar].
Qed.

(** The wave at 1/2 over five LEDs: only the middle one is lit. *)
Lemma rising_wave_update_lights_only_the_wave_witness :
  exists self : rising_wave.RisingWaveEffect Q,
    sample_wave = Ok self /\
    buffer_sized (rising_wave.effect Q self) /\
    (Z.to_nat (effect_base.led_count (rising_wave.effect Q self))
     <= length (rising_wave.heights Q self))%nat /\
    (0 <= rising_wave.hue Q self)%Q /\
    exists self',
      rising_wave_update.update 0%Q self = Ok self' /\
      pixels (rising_wave.effect Q self')
      = [(0, 0, 0); (0, 0, 0); (0, 255, 255); (0, 0, 0); (0, 0, 0)].
Proof.
  eexists. split; [vm_compute; reflexivity |].
  match goal with
  | |- buffer_sized (rising_wave.effect Q ?s) /\ _ =>
      assert (Hsized : buffer_sized (rising_wave.effect Q s)) by reflexivity;
      assert (Hheights :
        (Z.to_nat (effect_base.led_count (rising_wave.effect Q s))
         <= length (rising_wave.heights Q s))%nat) by (simpl; lia);
      assert (Hhue : (0 <= rising_wave.hue Q s)%Q)
        by (unfold Qle; simpl; lia)
  end.
  split; [exact Hsized |]. split; [exact Hheights |]. split; [exact Hhue |].
  destruct (rising_wave_update_lights_only_the_wave 0%Q _
              Hsized Hheights Hhue) as (self' & Hrun & _).
  exists self'. split; [exact Hrun |].
  vm_compute in Hrun. injection Hrun as <-. reflexivity.
Defined.

(** ** Progress, blur and reset (src/effect_base.py) *)

(** X24: [get_progress]: a duration of 0 raises [ZeroDivisionError]; for any
    other duration, negative ones included, the result lies in [0, 1) and
    is what the elapsed time has run into the current period: the elapsed
    time is a whole number of durations plus that part of one. *)
Theorem get_progress_wraps (self : Effect Q) (duration : Q) :
  ((duration == 0)%Q ->
   effect_tools.get_progress self duration = Raise ZeroDivisionError) /\
  (~ (duration == 0)%Q ->
   exists (p : Q) (k : Z),
     effect_tools.get_progress self duration = Ok p /\
     (0 <= p)%Q /\ (p < 1)%Q /\
     (current_time self == (inject_Z k + p) * duration)%Q).
Proof.
  unfold effect_tools.get_progress; simpl. change (inject_Z 0) with 0%Q.
  split.
  - intros Hzero. apply Qeq_bool_iff in Hzero. rewrite Hzero. reflexivity.
  - intros Hne.
    destruct (Qeq_bool duration 0) eqn:Hzero;
      [apply Qeq_bool_iff in Hzero; contradiction |].
    set (t := current_time self).
    exists (Q_mod t duration / duration)%Q, (Qfloor (t / duration)).
    split; [reflexivity |]. unfold Q_mod.
    pose proof (Qfloor_le (t / duration)) as Hlo.
    pose proof (Qlt_floor (t / duration)) as Hhi.
    rewrite inject_Z_plus in Hhi. change (inject_Z 1) with 1%Q in Hhi.
    set (k := inject_Z (Qfloor (t / duration))) in *.
    assert (Hp : ((t - duration * k) / duration == t / duration - k)%Q)
      by (field; exact Hne).
    rewrite Hp. split; [lra |]. split; [lra |]. field. exact Hne.
Qed.

(** Seven seconds into periods of two seconds. *)
Lemma get_progress_wraps_witness :
  let self : Effect Q :=
    mkEffect 1 30 (1 # 30)%Q None (Some 0%Q) 7%Q 210 [(0, 0, 0)] true in
  ~ (2 == 0)%Q /\
  effect_tools.get_progress self 2%Q = Ok ((7 - 2 * 3) / 2)%Q /\
  exists (p : Q) (k : Z),
    effect_tools.get_progress self 2%Q = Ok p /\ (0 <= p)%Q /\ (p < 1)%Q.
Proof.
  intros self.
  assert (Hne : ~ (2 == 0)%Q) by (intros Heq; discriminate Heq).
  split; [exact Hne |]. split; [reflexivity |].
  destruct (proj2 (get_progress_wraps self 2%Q) Hne)
    as (p & k & Hp & Hlo & Hhi & _).
  exists p, k. repeat split; assumption.
Defined.

(** *** Blur *)

Lemma box_channel_range (a b c : Z) :
  0 <= a <= 255 -> 0 <= b <= 255 -> 0 <= c <= 255 ->
  0 <= effect_tools.box_channel (F:=Q) a b c <= 255.
Proof.
  intros Ha Hb Hc. unfold effect_tools.box_channel; simpl.
  destruct (channel_Q a Ha), (channel_Q b Hb), (channel_Q c Hc).
  change (inject_Z 1 / inject_Z 4)%Q with (1 # 4)%Q.
  change (inject_Z 1 / inject_Z 2)%Q with (1 # 2)%Q.
  set (q := (inject_Z a * (1 # 4) + inject_Z b * (1 # 2)
             + inject_Z c * (1 # 4))%Q).
  assert (Hq : 0 <= Q_trunc q <= 255).
  { apply Q_trunc_bounds; unfold q; [lra |].
    change (inject_Z 255) with 255%Q. lra. }
  rewrite uint8_small; exact Hq.
Qed.

Lemma box_range (x y z : color) :
  channels_ok x -> channels_ok y -> channels_ok z ->
  channels_ok (effect_tools.box (F:=Q) x y z).
Proof.
  destruct x as [[r0 g0] b0], y as [[r1 g1] b1], z as [[r2 g2] b2].
  intros (? & ? & ?) (? & ? & ?) (? & ? & ?).
  unfold effect_tools.box, channels_ok.
  repeat split; apply box_channel_range; assumption.
Qed.

Lemma mix_channel_range (amount : Q) (c b : Z) :
  (0 <= amount)%Q -> (amount <= 1)%Q -> 0 <= c <= 255 -> 0 <= b <= 255 ->
  0 <= effect_tools.mix_channel amount c b <= 255.
Proof.
  intros Ha0 Ha1 Hc Hb. unfold effect_tools.mix_channel; simpl.
  change (inject_Z 1) with 1%Q.
  pose proof (mix_range_Q c b amount Hc Hb Ha0 Ha1) as Hq.
  rewrite uint8_small; exact Hq.
Qed.

Lemma mix_range (amount : Q) (x y : color) :
  (0 <= amount)%Q -> (amount <= 1)%Q -> channels_ok x -> channels_ok y ->
  channels_ok (effect_tools.mix amount x y).
Proof.
  destruct x as [[r0 g0] b0], y as [[r1 g1] b1].
  intros Ha0 Ha1 (? & ? & ?) (? & ? & ?).
  unfold effect_tools.mix, channels_ok.
  repeat split; apply mix_channel_range; assumption.
Qed.

Lemma mix_black (amount : Q) :
  effect_tools.mix amount (0, 0, 0) (0, 0, 0) = (0, 0, 0).
Proof.
  assert (Hc : effect_tools.mix_channel amount 0 0 = 0).
  { unfold effect_tools.mix_channel; simpl.
    rewrite (Q_trunc_inject_Z _ 0); [reflexivity |].
    change (inject_Z 0) with 0%Q. ring. }
  unfold effect_tools.mix. rewrite Hc. reflexivity.
Qed.

Section blur.
Variable self : Effect Q.
Hypothesis sized : buffer_sized self.

(** What the loop stores at index [i]. *)
Let col (i : nat) : color :=
  match pixels self !! Z.to_nat (Z.of_nat i - 1), pixels self !! i,
        pixels self !! Z.to_nat (Z.of_nat i + 1) with
  | Some prev, Some cur, Some next => effect_tools.box (F:=Q) prev cur next
  | _, _, _ => (0, 0, 0)
  end.

Lemma blurred_Ok :
  exists blurred,
    effect_tools.blurred self = Ok blurred /\
    length blurred = length (pixels self) /\
    forall j c, blurred !! j = Some c ->
      pixels self !! j = Some c \/
      exists prev cur next,
        prev ∈ pixels self /\ cur ∈ pixels self /\ next ∈ pixels self /\
        c = effect_tools.box (F:=Q) prev cur next.
Proof.
  unfold effect_tools.blurred.
  match goal with
  | |- context [for_range ?b 1 _ _] => set (body := b)
  end.
  set (n := effect_base.led_count self) in *.
  unfold buffer_sized in sized. fold n in sized.
  set (m := Z.to_nat (n - 2)).
  destruct (Nat.eq_dec m 0%nat) as [Hm | Hm].
  { rewrite Hm. simpl. exists (pixels self).
    split; [reflexivity |]. split; [reflexivity |]. intros j c Hc. left.
    exact Hc. }
  assert (Hn : 3 <= n) by lia.
  assert (Hstep : forall (i : nat) (s : list color),
             (i < 1 + m)%nat -> True -> (1 + m <= length s)%nat ->
             exists s', body (Z.of_nat i) s = Ok s' /\ True /\
                        s' = <[i := col i]> s).
  { intros i s Hi _ Hlen. unfold body.
    rewrite Nat2Z.id.
    destruct (lookup_lt_is_Some_2 (pixels self) (Z.to_nat (Z.of_nat i - 1)))
      as [prev Hprev]; [lia |].
    destruct (lookup_lt_is_Some_2 (pixels self) i) as [cur Hcur]; [lia |].
    destruct (lookup_lt_is_Some_2 (pixels self) (Z.to_nat (Z.of_nat i + 1)))
      as [next Hnext]; [lia |].
    rewrite Hprev, Hcur, Hnext.
    eexists. split; [reflexivity |]. split; [exact I |].
    unfold col. rewrite Hprev, Hcur, Hnext. reflexivity. }
  destruct (for_range_paint_from (fun s : list color => s) (fun _ => True)
              col body (1 + m)%nat Hstep m 1%nat (pixels self))
    as (s' & Hrun & _ & Hlen' & Hnew & Hold); [lia | exact I | lia |].
  exists s'. split; [exact Hrun |]. split; [exact Hlen' |].
  intros j c Hc.
  destruct (Nat.lt_ge_cases j 1%nat) as [Hj0 | Hj1];
    [left; rewrite <- Hold by (left; lia); exact Hc |].
  destruct (Nat.lt_ge_cases j (1 + m)%nat) as [Hin | Hout];
    [| left; rewrite <- Hold by (right; lia); exact Hc].
  right. rewrite (Hnew j) in Hc by lia. injection Hc as <-.
  unfold col.
  destruct (lookup_lt_is_Some_2 (pixels self) (Z.to_nat (Z.of_nat j - 1)))
    as [prev Hprev]; [lia |].
  destruct (lookup_lt_is_Some_2 (pixels self) j) as [cur Hcur]; [lia |].
  destruct (lookup_lt_is_Some_2 (pixels self) (Z.to_nat (Z.of_nat j + 1)))
    as [next Hnext]; [lia |].
  rewrite Hprev, Hcur, Hnext. exists prev, cur, next.
  repeat split; try reflexivity;
    apply list_elem_of_lookup; eexists; eassumption.
Qed.
End blur.

(** X25: [blur].  An amount of 0 or less changes nothing.  For an amount in
    (0, 1], on a buffer of [led_count] 8-bit pixels, [blur] raises
    nothing and changes the buffer only; the new buffer has the same
    length and 8-bit channels, and a black buffer stays black. *)
Theorem blur_keeps_the_buffer_valid (self : Effect Q) (amount : Q) :
  ((amount <= 0)%Q -> effect_tools.blur self amount = Ok self) /\
  ((0 < amount)%Q -> (amount <= 1)%Q -> buffer_sized self ->
   Forall channels_ok (pixels self) ->
   exists self',
     effect_tools.blur self amount = Ok self' /\
     self' = set_pixels (pixels self') self /\
     length (pixels self') = length (pixels self) /\
     Forall channels_ok (pixels self') /\
     (Forall (fun c => c = (0, 0, 0)) (pixels self) ->
      pixels self' = pixels self)).
Proof.
  unfold effect_tools.blur. split.
  - intros Hle.
    assert (Hskip : fle amount (of_int 0) = true) by (apply fle_Q; exact Hle).
    rewrite Hskip. reflexivity.
  - intros Hpos Hone Hsized Hok.
    destruct (fle amount (of_int 0)) eqn:Hle;
      [apply fle_Q in Hle; simpl in Hle; change (inject_Z 0) with 0%Q in Hle;
       lra |].
    destruct (blurred_Ok self Hsized) as (blurred & -> & Hlen & Hfrom).
    rewrite bind_Ok. eexists. split; [reflexivity |]. simpl.
    split; [reflexivity |].
    rewrite Forall_forall in Hok.
    assert (Hblurred : forall j c, blurred !! j = Some c -> channels_ok c).
    { intros j c Hc. destruct (Hfrom j c Hc) as [Hsame | Hbox].
      - apply Hok, list_elem_of_lookup. eexists; exact Hsame.
      - destruct Hbox as (prev & cur & next & Hp & Hcu & Hn & ->).
        apply box_range; apply Hok; assumption. }
    split; [| split].
    + rewrite length_zip_with. lia.
    + apply Forall_forall. intros c Hc.
      apply list_elem_of_lookup in Hc. destruct Hc as [j Hj].
      rewrite lookup_zip_with in Hj.
      destruct (pixels self !! j) as [x |] eqn:Hx; [| discriminate].
      destruct (blurred !! j) as [y |] eqn:Hy; [| discriminate].
      simpl in Hj. injection Hj as <-.
      apply mix_range; try lra.
      * apply Hok, list_elem_of_lookup. eexists; exact Hx.
      * apply (Hblurred j), Hy.
    + intros Hblack. rewrite Forall_forall in Hblack.
      apply list_eq. intros j. rewrite lookup_zip_with.
      destruct (pixels self !! j) as [x |] eqn:Hx; [| reflexivity].
      destruct (lookup_lt_is_Some_2 blurred j) as [y Hy];
        [rewrite Hlen; apply (lookup_lt_Some _ _ _ Hx) |].
      rewrite Hy. simpl. f_equal.
      assert (Hx0 : x = (0, 0, 0)).
      { apply Hblack, list_elem_of_lookup. eexists; exact Hx. }
      assert (Hy0 : y = (0, 0, 0)).
      { destruct (Hfrom j y Hy) as [Hsame | Hbox].
        - apply Hblack, list_elem_of_lookup. eexists; exact Hsame.
        - destruct Hbox as (prev & cur & next & Hp & Hcu & Hn & ->).
          rewrite (Hblack prev Hp), (Hblack cur Hcu), (Hblack next Hn).
          reflexivity. }
      rewrite Hx0, Hy0. apply mix_black.
Qed.

(** One lit LED between two dark ones, blurred by a half. *)
Lemma blur_keeps_the_buffer_valid_witness :
  let self : Effect Q :=
    mkEffect 3 30 (1 # 30)%Q None None 0%Q 0
      [(0, 0, 0); (200, 100, 40); (0, 0, 0)] false in
  (0 < 1 # 2)%Q /\ (1 # 2 <= 1)%Q /\ buffer_sized self /\
  Forall channels_ok (pixels self) /\
  exists self',
    effect_tools.blur self (1 # 2)%Q = Ok self' /\
    pixels self' = [(0, 0, 0); (150, 75, 30); (0, 0, 0)].
Proof.
  intros self.
  assert (Hpos : (0 < 1 # 2)%Q) by reflexivity.
  assert (Hone : (1 # 2 <= 1)%Q) by (unfold Qle; simpl; lia).
  assert (Hsized : buffer_sized self) by reflexivity.
  assert (Hok : Forall channels_ok (pixels self)).
  { repeat constructor; simpl; lia. }
  split; [exact Hpos |]. split; [exact Hone |]. split; [exact Hsized |].
  split; [exact Hok |].
  destruct (proj2 (blur_keeps_the_buffer_valid self (1 # 2)%Q)
              Hpos Hone Hsized Hok) as (self' & Hrun & _).
  exists self'. split; [exact Hrun |].
  vm_compute in Hrun. injection Hrun as <-. reflexivity.
Defined.

(** *** Reset *)

Section reset.
Context {E : Type} `{EffectClass Q E} `{!EffectLaws Q E}.

(** X26: [reset] sets the elapsed time and the frame counter to 0 and
    blackens the buffer, but it keeps [start_time]: the next tick of a
    running effect brings the elapsed time back to the time since the
    start, the value it gets without the reset, and only the frame counter
    starts again. *)
Theorem reset_does_not_rewind_the_clock (w : clock Q) (self : E) (st : Q) :
  running (base self) = true -> start_time (base self) = Some st ->
  let now := readings w (calls w) in
  (forall p self' w',
     tick w (with_base (reset (base self)) self) = Ok (p, self', w') ->
     (current_time (base self') == now - st)%Q /\
     frame_count (base self') = 1 /\
     start_time (base self') = Some st) /\
  (forall p self' w',
     tick w self = Ok (p, self', w') ->
     (current_time (base self') == now - st)%Q /\
     frame_count (base self') = frame_count (base self) + 1).
Proof.
  intros Hrun Hst now. split.
  - intros p self' w' Htick.
    assert (Hrun' : running (base (with_base (reset (base self)) self)) = true)
      by (rewrite base_with_base; exact Hrun).
    destruct (tick_running w w' _ self' p Hrun' Htick)
      as (Hstart & Hct & Hfc & _).
    rewrite base_with_base in Hstart, Hct, Hfc. simpl in Hstart, Hct, Hfc.
    rewrite Hst in Hstart, Hct. simpl in Hstart, Hct.
    split; [| split; [lia | exact Hstart]].
    rewrite Hct. unfold now. change (inject_Z 0) with 0%Q. ring.
  - intros p self' w' Htick.
    destruct (tick_running w w' self self' p Hrun Htick)
      as (_ & Hct & Hfc & _).
    rewrite Hst in Hct. simpl in Hct.
    split; [| exact Hfc].
    rewrite Hct. unfold now. ring.
Qed.
End reset.

(** The sample gradient, started at 10 and ticked at 12 and 13, is reset
    before the tick at 17: the elapsed time is 7 again. *)
Lemma reset_does_not_rewind_the_clock_witness :
  exists (self : height_gradient.HeightGradientEffect Q) (w : clock Q),
    ticked_twice = Ok (self, w) /\
    running (base self) = true /\ start_time (base self) = Some 10%Q /\
    current_time (base self) = 3%Q /\
    exists p self' w',
      tick w (with_base (reset (base self)) self) = Ok (p, self', w') /\
      (current_time (base self') == 17 - 10)%Q /\
      frame_count (base self') = 1.
Proof.
  eexists. eexists. split; [vm_compute; reflexivity |].
  match goal with
  | |- running (base ?s) = true /\ _ /\ _ /\
       (exists p self' w', tick ?w _ = _ /\ _) =>
      assert (Hrun : running (base s) = true) by reflexivity;
      assert (Hst : start_time (base s) = Some 10%Q) by reflexivity;
      destruct (tick w (with_base (reset (base s)) s))
        as [[[p self'] w'] |] eqn:Htick;
      [| vm_compute in Htick; discriminate];
      destruct (proj1 (reset_does_not_rewind_the_clock w s 10%Q Hrun Hst)
                  _ _ _ Htick) as (Hct & Hfc & _)
  end.
  split; [exact Hrun |]. split; [exact Hst |]. split; [reflexivity |].
  exists p, self', w'. split; [reflexivity |].
  split; [exact Hct | exact Hfc].
Defined.
